(* ===================================================================== *)
(* HTTP code generation data of goa (http/codegen/service_data.go):      *)
(* a shallow embedding of the builders that compute the data rendered by *)
(* the HTTP transport templates, with the properties of the design       *)
(* document checked against them; and the DSL functions Payload and      *)
(* Method (dsl/payload.go).                                              *)
(* ===================================================================== *)

From Stdlib Require Import ZArith Ascii String List Lia DecimalString SpecFloat.
From Stdlib Require DecimalZ DecimalPos.
From stdpp Require Import base option list gmap strings.

Set Warnings "-register-all,-clear-no-such-hyp".

Local Open Scope string_scope.

(* --------------------------------------------------------------------- *)
(* 1. The design data model (package design), as far as the builders     *)
(*    inspect it.                                                        *)
(* --------------------------------------------------------------------- *)

(** Kinds of the primitive types. The names returned by [Name ()] are the
    ones the path constructor template compares against. *)
Inductive Kind : Type :=
| BooleanKind | IntKind | Int32Kind | Int64Kind
| UIntKind | UInt32Kind | UInt64Kind
| Float32Kind | Float64Kind
| StringKind | BytesKind | AnyKind.

#[global] Instance Kind_eq_dec : EqDecision Kind.
Proof. solve_decision. Defined.

(** A validation expression: the names of the required child attributes
    and the other rules, kept opaque. *)
Record ValidationExpr : Type := MkValidation {
  Required : list string;
  Rules : list string
}.

(** [design.DataType] and [design.AttributeExpr]. [Empty] is the singleton
    the builders compare against with [==]. A user type is a reference: its
    identity is [ID], its attribute lives in the registry of user types so
    that a user type may refer to itself. *)
Inductive DataType : Type :=
| Empty
| Primitive (k : Kind)
| Array (ElemType : AttributeExpr)
| Map (KeyType ElemType : AttributeExpr)
| Object (nats : list NamedAttributeExpr)
| UserType (ID : string)
with AttributeExpr : Type :=
| MkAttribute (ty : DataType) (description : string)
              (validation : option ValidationExpr)
              (defaultValue : option string)
              (metadata : list (string * list string))
with NamedAttributeExpr : Type :=
| MkNamed (name : string) (attribute : AttributeExpr).

Definition Type_ (a : AttributeExpr) : DataType :=
  match a with MkAttribute t _ _ _ _ => t end.
Definition Description (a : AttributeExpr) : string :=
  match a with MkAttribute _ d _ _ _ => d end.
Definition Validation (a : AttributeExpr) : option ValidationExpr :=
  match a with MkAttribute _ _ v _ _ => v end.
Definition DefaultValue (a : AttributeExpr) : option string :=
  match a with MkAttribute _ _ _ d _ => d end.
Definition Metadata (a : AttributeExpr) : list (string * list string) :=
  match a with MkAttribute _ _ _ _ m => m end.
Definition Name (n : NamedAttributeExpr) : string :=
  match n with MkNamed s _ => s end.
Definition Attribute (n : NamedAttributeExpr) : AttributeExpr :=
  match n with MkNamed _ a => a end.

(** An attribute that only carries a type, [&design.AttributeExpr{Type: t}]. *)
Definition attrOf (t : DataType) : AttributeExpr :=
  MkAttribute t "" None None [].

Definition isEmpty (dt : DataType) : bool :=
  match dt with Empty => true | _ => false end.

(** Height of a type tree; a user type reference counts for the step to its
    attribute. *)
Fixpoint height (dt : DataType) : nat :=
  match dt with
  | Empty | Primitive _ => 0
  | UserType _ => 1
  | Array e => S (height (Type_ e))
  | Map k e => S (Nat.max (height (Type_ k)) (height (Type_ e)))
  | Object nats =>
      S ((fix go (l : list NamedAttributeExpr) : nat :=
            match l with
            | [] => 0
            | n :: r => Nat.max (height (Type_ (Attribute n))) (go r)
            end) nats)
  end.

Definition fieldsHeight (l : list NamedAttributeExpr) : nat :=
  (fix go (l : list NamedAttributeExpr) : nat :=
     match l with
     | [] => 0
     | n :: r => Nat.max (height (Type_ (Attribute n))) (go r)
     end) l.

(* --------------------------------------------------------------------- *)
(* 2. needConversion and needInit                                        *)
(* --------------------------------------------------------------------- *)

(** needConversion returns true if the type needs to be converted from a
    string. *)
Fixpoint needConversion (dt : DataType) : bool :=
  match dt with
  | Empty => false
  | Primitive k =>
      match k with
      | StringKind | AnyKind | BytesKind => false
      | _ => true
      end
  | Array e => needConversion (Type_ e)
  | Map k e => needConversion (Type_ k) || needConversion (Type_ e)
  | _ => true
  end.

(** needInit returns true if and only if the given type is or makes use of
    user types. The loop over the fields of an object returns at the first
    field that needs initialisation. *)
Fixpoint needInit (dt : DataType) : bool :=
  match dt with
  | Empty => false
  | Primitive _ => false
  | Array e => needInit (Type_ e)
  | Map k e => needInit (Type_ k) || needInit (Type_ e)
  | Object nats =>
      (fix loop (l : list NamedAttributeExpr) : bool :=
         match l with
         | [] => false
         | n :: r => if needInit (Type_ (Attribute n)) then true else loop r
         end) nats
  | UserType _ => true
  end.

(** The design document's reading of the two predicates. [UsesUserType dt]
    holds when a user type node occurs in the tree of [dt]: at the root, in
    the element of an array, in the key or element of a map, or in a field
    of an object. *)
Inductive UsesUserType : DataType -> Prop :=
| uses_user id : UsesUserType (UserType id)
| uses_array e : UsesUserType (Type_ e) -> UsesUserType (Array e)
| uses_map_key k e : UsesUserType (Type_ k) -> UsesUserType (Map k e)
| uses_map_elem k e : UsesUserType (Type_ e) -> UsesUserType (Map k e)
| uses_object nats n :
    n ∈ nats -> UsesUserType (Type_ (Attribute n)) -> UsesUserType (Object nats).

(** [StringLike dt] collects the types the design document lists as needing
    no conversion from a string: Empty, the string, bytes and any
    primitives, arrays of such types and maps between such types. *)
Inductive StringLike : DataType -> Prop :=
| sl_empty : StringLike Empty
| sl_string : StringLike (Primitive StringKind)
| sl_bytes : StringLike (Primitive BytesKind)
| sl_any : StringLike (Primitive AnyKind)
| sl_array e : StringLike (Type_ e) -> StringLike (Array e)
| sl_map k e : StringLike (Type_ k) -> StringLike (Type_ e) -> StringLike (Map k e).

(* --------------------------------------------------------------------- *)
(* 3. collectUserTypes                                                   *)
(* --------------------------------------------------------------------- *)

(** The registry of user types: the attribute each identifier stands for
    ([ut.Attribute ()]). An identifier outside the registry is given the
    Empty type, where the traversal returns at once. *)
Definition attributeTypeOf (reg : gmap string AttributeExpr) (id : string) : DataType :=
  match reg !! id with
  | Some a => Type_ a
  | None => Empty
  end.

(** collectUserTypes traverses the given data type recursively and calls back
    the given function for each attribute using a user type.

    [seen] is the variadic argument: [None] when the caller passes no map,
    [Some s] when it passes the map [s], which the callee updates in place;
    the map returned is the state of that shared map after the call. With no
    map passed, the map [s] created locally is dropped on return. Objects,
    arrays and maps forward [seen...] as received; a user type forwards its
    own [s]. The callback acts on a state [St]. Every call consumes one unit
    of [fuel], which bounds the depth of the recursion. *)
Fixpoint collectUserTypes {St : Type} (fuel : nat) (reg : gmap string AttributeExpr)
    (dt : DataType) (cb : string -> St -> St)
    (seen : option (gset string)) (st : St)
  : option (option (gset string) * St) :=
  match fuel with
  | O => None
  | S fuel' =>
      match dt with
      | Empty => Some (seen, st)
      | Object nats =>
          (fix loop (l : list NamedAttributeExpr) (seen : option (gset string)) (st : St) :=
             match l with
             | [] => Some (seen, st)
             | n :: r =>
                 match collectUserTypes fuel' reg (Type_ (Attribute n)) cb seen st with
                 | Some (seen', st') => loop r seen' st'
                 | None => None
                 end
             end) nats seen st
      | Array e => collectUserTypes fuel' reg (Type_ e) cb seen st
      | Map k e =>
          match collectUserTypes fuel' reg (Type_ k) cb seen st with
          | Some (seen', st') => collectUserTypes fuel' reg (Type_ e) cb seen' st'
          | None => None
          end
      | UserType id =>
          let s := default ∅ seen in
          if decide (id ∈ s) then Some (seen, st)
          else
            match collectUserTypes fuel' reg (attributeTypeOf reg id) cb
                    (Some ({[id]} ∪ s)) (cb id st) with
            | Some (s', st') => Some (match seen with Some _ => s' | None => None end, st')
            | None => None
            end
      | Primitive _ => Some (seen, st)
      end
  end.

(** The loop over the fields of an object, as a function of its own. *)
Definition collectFields {St : Type} (fuel : nat) (reg : gmap string AttributeExpr)
    (cb : string -> St -> St) :=
  fix loop (l : list NamedAttributeExpr) (seen : option (gset string)) (st : St)
    : option (option (gset string) * St) :=
    match l with
    | [] => Some (seen, st)
    | n :: r =>
        match collectUserTypes fuel reg (Type_ (Attribute n)) cb seen st with
        | Some (seen', st') => loop r seen' st'
        | None => None
        end
    end.

(** The callback that records the identifiers it is called with. *)
Definition record (id : string) (tr : list string) : list string := tr ++ [id].

(** Cost of entering the user types not yet seen: one call for the node and
    the height of its attribute's type. *)
Definition pending (reg : gmap string AttributeExpr) (s : gset string) : nat :=
  sum_list ((fun p : string * AttributeExpr =>
               if decide (p.1 ∈ s) then 0 else S (height (Type_ p.2)))
            <$> map_to_list reg).

(** Fuel that suffices for a traversal of [dt] over the registry [reg]. *)
Definition collectFuel (reg : gmap string AttributeExpr) (dt : DataType) : nat :=
  S (height dt + pending reg ∅).

(* --------------------------------------------------------------------- *)
(* 4. The data computed by the builders                                  *)
(* --------------------------------------------------------------------- *)

(** Values of type [interface{}] (default values, examples) are kept as
    their textual form. *)
Module InitArgData.
Record t : Type := Make {
  Name : string;
  Description : string;
  Ref : string;
  FieldName : string;
  TypeName : string;
  TypeRef : string;
  Pointer : bool;
  Required : bool;
  DefaultValue : option string;
  Validate : string;
  Example : string
}.
End InitArgData.

Module InitData.
Record t : Type := Make {
  Name : string;
  Description : string;
  ServerArgs : list InitArgData.t;
  ClientArgs : list InitArgData.t;
  CLIArgs : list InitArgData.t;
  ReturnTypeName : string;
  ReturnTypeRef : string;
  ReturnTypeAttribute : string;
  ReturnIsStruct : bool;
  ReturnIsPrimitivePointer : bool;
  ServerCode : string;
  ClientCode : string
}.
End InitData.

Module TypeData.
Record t : Type := Make {
  Name : string;
  VarName : string;
  Description : string;
  Init : option InitData.t;
  Def : string;
  Ref : string;
  ValidateDef : string;
  ValidateRef : string;
  Example : string
}.
End TypeData.

Module ParamData.
Record t : Type := Make {
  Name : string;
  AttributeName : string;
  Description : string;
  FieldName : string;
  VarName : string;
  Type_ : DataType;
  TypeName : string;
  TypeRef : string;
  Required : bool;
  Pointer : bool;
  StringSlice : bool;
  Slice : bool;
  MapStringSlice : bool;
  Map : bool;
  Validate : string;
  DefaultValue : option string;
  Example : string;
  MapQueryParams : option string
}.
End ParamData.

Module HeaderData.
Record t : Type := Make {
  Name : string;
  AttributeName : string;
  Description : string;
  CanonicalName : string;
  FieldName : string;
  VarName : string;
  TypeName : string;
  TypeRef : string;
  Required : bool;
  Pointer : bool;
  StringSlice : bool;
  Slice : bool;
  Type_ : DataType;
  Validate : string;
  DefaultValue : option string;
  Example : string
}.
End HeaderData.

Module RequestData.
Record t : Type := Make {
  PathParams : list ParamData.t;
  QueryParams : list ParamData.t;
  Headers : list HeaderData.t;
  ServerBody : option TypeData.t;
  ClientBody : option TypeData.t;
  PayloadInit : option InitData.t;
  MustValidate : bool
}.
End RequestData.

Module ResponseData.
Record t : Type := Make {
  StatusCode : string;
  Description : string;
  Headers : list HeaderData.t;
  ErrorHeader : string;
  ServerBody : option TypeData.t;
  ClientBody : option TypeData.t;
  ResultInit : option InitData.t;
  TagName : string;
  TagValue : string;
  TagRequired : bool;
  MustValidate : bool;
  ResultAttr : string;
  ViewedResult : bool
}.
End ResponseData.

Module PayloadData.
Record t : Type := Make {
  Name : string;
  Ref : string;
  Request : RequestData.t;
  DecoderReturnValue : string
}.
End PayloadData.

Module ResultData.
Record t : Type := Make {
  IsStruct : bool;
  Name : string;
  Ref : string;
  Responses : list ResponseData.t;
  View : string
}.
End ResultData.

(* --------------------------------------------------------------------- *)
(* 5. The expressions of the HTTP design the builders read               *)
(* --------------------------------------------------------------------- *)

(** A mapped attribute: the attribute and the map from attribute names to
    HTTP element names. *)
Record MappedAttributeExpr : Type := MkMapped {
  MAttribute : AttributeExpr;
  nameMap : list (string * string)
}.

(** A response of an endpoint. [Tag] is the pair of the tag attribute name
    and the tag value. *)
Record HTTPResponseExpr : Type := MkResponse {
  RStatusCode : Z;
  RDescription : string;
  RHeaders : MappedAttributeExpr;
  RBody : AttributeExpr;
  Tag : string * string
}.

(** A security scheme ([service.SchemeData]) and a requirement, as far as
    the payload constructor reads them. *)
Record SchemeData : Type := MkScheme {
  SchemeType : string;
  UsernameAttr : string;
  UsernameField : string;
  UsernameRequired : bool;
  UsernamePointer : bool;
  PasswordAttr : string;
  PasswordField : string;
  PasswordRequired : bool;
  PasswordPointer : bool
}.

Record RequirementData : Type := MkRequirement {
  Schemes : list SchemeData
}.

(** The service method data of an endpoint ([service.MethodData]). *)
Record MethodData : Type := MkMethod {
  MName : string;
  MVarName : string;
  MPayload : string;
  MResult : string;
  ViewedResult : option AttributeExpr;
  Requirements : list RequirementData
}.

(** The service data ([service.Data]) without its name scope, which is part
    of the state. *)
Record ServiceInfo : Type := MkService {
  SName : string;
  StructName : string;
  PkgName : string;
  ViewsPkg : string
}.

(** An endpoint expression with its method expression flattened in. *)
Record EndpointExpr : Type := MkEndpoint {
  MethodName : string;
  Payload : AttributeExpr;
  Result : AttributeExpr;
  Body : AttributeExpr;
  Params : MappedAttributeExpr;
  PathParams : MappedAttributeExpr;
  QueryParams : MappedAttributeExpr;
  Headers : MappedAttributeExpr;
  MapQueryParams : option string;
  Responses : list HTTPResponseExpr;
  Method : MethodData
}.

(* --------------------------------------------------------------------- *)
(* 6. The functions of the other packages the builders call              *)
(* --------------------------------------------------------------------- *)

(** The functions of packages [design] and [codegen], and the helpers of
    this package defined in other files, that the builders call. They are
    kept abstract: the properties below hold for every implementation.
    The look-ups of the name scope are functions of the scope; [Unique] and
    [HashedUnique] return the scope they updated. [GoTypeTransform] returns
    the code, the helpers and the error, [None] standing for [nil]. *)
Class Env : Type := {
  NameScope : Type;
  TransformFunctionData : Type;
  (* design *)
  Types : gmap string AttributeExpr;
  UserTypeName : string -> string;
  AsObject : DataType -> option (list NamedAttributeExpr);
  AsArray : DataType -> option AttributeExpr;
  AsMap : DataType -> option (AttributeExpr * AttributeExpr);
  IsObject : DataType -> bool;
  IsArray : DataType -> bool;
  IsMap : DataType -> bool;
  Find : AttributeExpr -> string -> option AttributeExpr;
  IsRequired : AttributeExpr -> string -> bool;
  IsPrimitivePointer : AttributeExpr -> string -> bool -> bool;
  ExampleOf : AttributeExpr -> string;
  ElemName : MappedAttributeExpr -> string -> string;
  (* codegen *)
  Goify : string -> bool -> string;
  GoTypeRef : NameScope -> AttributeExpr -> string;
  GoTypeName : NameScope -> AttributeExpr -> string;
  GoFullTypeRef : NameScope -> AttributeExpr -> string -> string;
  GoFullTypeName : NameScope -> AttributeExpr -> string -> string;
  Unique : NameScope -> string -> string * NameScope;
  HashedUnique : NameScope -> DataType -> string -> string * NameScope;
  RecursiveValidationCode : AttributeExpr -> bool -> bool -> bool -> string -> string;
  GoTypeTransform :
    DataType -> DataType -> string -> string -> string -> string -> bool ->
    NameScope -> string * list TransformFunctionData * option string;
  AppendHelpers :
    list TransformFunctionData -> list TransformFunctionData ->
    list TransformFunctionData;
  WalkMappedAttr : MappedAttributeExpr -> list (string * string * bool * AttributeExpr);
  (* http/codegen, other files; net/http; fmt *)
  goTypeDef : NameScope -> AttributeExpr -> bool -> bool -> string;
  statusCodeToHTTPConst : Z -> string;
  StatusText : Z -> string;
  CanonicalHeaderKey : string -> string;
  Quote : string -> string
}.

(** [dt.Name ()]: the names of the primitives, arrays, maps and objects are
    the ones the templates compare against; a user type has the name it was
    declared with. *)
Definition kindName (k : Kind) : string :=
  match k with
  | BooleanKind => "boolean"
  | IntKind => "int" | Int32Kind => "int32" | Int64Kind => "int64"
  | UIntKind => "uint" | UInt32Kind => "uint32" | UInt64Kind => "uint64"
  | Float32Kind => "float32" | Float64Kind => "float64"
  | StringKind => "string" | BytesKind => "bytes" | AnyKind => "any"
  end.

Definition TypeNameOf `{Env} (dt : DataType) : string :=
  match dt with
  | Empty => "Empty"
  | Primitive k => kindName k
  | Array _ => "array"
  | Map _ _ => "map"
  | Object _ => "object"
  | UserType id => UserTypeName id
  end.

(** [dt.Kind () == design.StringKind] and [dt.Kind () == design.ArrayKind]. *)
Definition KindIsString (dt : DataType) : bool :=
  match dt with Primitive StringKind => true | _ => false end.
Definition KindIsArray (dt : DataType) : bool :=
  match dt with Array _ => true | _ => false end.

(** [(o *Object).Attribute (name)]: the first attribute of that name. *)
Fixpoint objAttribute (o : list NamedAttributeExpr) (name : string) : option AttributeExpr :=
  match o with
  | [] => None
  | n :: r => if String.eqb (Name n) name then Some (Attribute n) else objAttribute r name
  end.

(** [m[key]] on the metadata of an attribute. *)
Fixpoint metadataLookup (m : list (string * list string)) (key : string) : option (list string) :=
  match m with
  | [] => None
  | (k, v) :: r => if String.eqb k key then Some v else metadataLookup r key
  end.

Section Builders.
Context `{Env}.

(** [ut.Attribute ()] for the user type of identifier [id]. *)
Definition utAttribute (id : string) : AttributeExpr :=
  match Types !! id with
  | Some a => a
  | None => attrOf Empty
  end.

(** The service data under construction, its name scope and the lines
    written to the standard output by [fmt.Println]. *)
Record ServiceData : Type := MkServiceData {
  Scope : NameScope;
  ServerTypeNames : gset string;
  ClientTypeNames : gset string;
  ServerBodyAttributeTypes : list TypeData.t;
  ClientBodyAttributeTypes : list TypeData.t;
  ServerTransformHelpers : list TransformFunctionData;
  ClientTransformHelpers : list TransformFunctionData;
  Stdout : list string
}.

(** Computations of the builders: they update the service data and may
    panic ([None]). *)
Definition M (A : Type) : Type := ServiceData -> option (A * ServiceData).

Definition ret {A} (a : A) : M A := fun sd => Some (a, sd).
Definition bind {A B} (m : M A) (k : A -> M B) : M B :=
  fun sd => match m sd with
            | Some (a, sd') => k a sd'
            | None => None
            end.
Definition panic {A} : M A := fun _ => None.
Definition get : M ServiceData := fun sd => Some (sd, sd).
Definition put (sd : ServiceData) : M unit := fun _ => Some (tt, sd).
Definition modify (f : ServiceData -> ServiceData) : M unit :=
  fun sd => Some (tt, f sd).
(** [v, ok := p; if !ok then panic]: a nil dereference or an index out of
    range. *)
Definition must {A} (o : option A) : M A :=
  match o with Some a => ret a | None => panic end.

Definition Println (s : string) : M unit :=
  modify (fun sd =>
    MkServiceData (Scope sd) (ServerTypeNames sd) (ClientTypeNames sd)
      (ServerBodyAttributeTypes sd) (ClientBodyAttributeTypes sd)
      (ServerTransformHelpers sd) (ClientTransformHelpers sd)
      (Stdout sd ++ [s])).

Definition setScope (sc : NameScope) : M unit :=
  modify (fun sd =>
    MkServiceData sc (ServerTypeNames sd) (ClientTypeNames sd)
      (ServerBodyAttributeTypes sd) (ClientBodyAttributeTypes sd)
      (ServerTransformHelpers sd) (ClientTransformHelpers sd) (Stdout sd)).

Definition setTypeNames (s c : gset string) : M unit :=
  modify (fun sd =>
    MkServiceData (Scope sd) s c
      (ServerBodyAttributeTypes sd) (ClientBodyAttributeTypes sd)
      (ServerTransformHelpers sd) (ClientTransformHelpers sd) (Stdout sd)).

Definition setBodyAttributeTypes (s c : list TypeData.t) : M unit :=
  modify (fun sd =>
    MkServiceData (Scope sd) (ServerTypeNames sd) (ClientTypeNames sd) s c
      (ServerTransformHelpers sd) (ClientTransformHelpers sd) (Stdout sd)).

Definition setServerTransformHelpers (h : list TransformFunctionData) : M unit :=
  modify (fun sd =>
    MkServiceData (Scope sd) (ServerTypeNames sd) (ClientTypeNames sd)
      (ServerBodyAttributeTypes sd) (ClientBodyAttributeTypes sd)
      h (ClientTransformHelpers sd) (Stdout sd)).

Definition setClientTransformHelpers (h : list TransformFunctionData) : M unit :=
  modify (fun sd =>
    MkServiceData (Scope sd) (ServerTypeNames sd) (ClientTypeNames sd)
      (ServerBodyAttributeTypes sd) (ClientBodyAttributeTypes sd)
      (ServerTransformHelpers sd) h (Stdout sd)).

(** [scope.Unique (name)] on the scope of the service. *)
Definition unique (name : string) : M string :=
  fun sd => let '(n, sc) := Unique (Scope sd) name in setScope sc sd ≫= fun r => Some (n, r.2).

End Builders.

Notation "x <- m ;; k" := (bind m (fun x => k))
  (at level 20, m at level 99, k at level 200, only parsing).
Notation "'run' m ;; k" := (bind m (fun _ => k))
  (at level 20, m at level 99, k at level 200, only parsing).

(* --------------------------------------------------------------------- *)
(* 7. buildBodyType and attributeTypeData                                *)
(* --------------------------------------------------------------------- *)

Section BodyTypes.
Context `{Env}.

(** The handling of the Body("name") syntax, common to the builders:
    without the metadata "origin:attribute" the type [t] stands; with it,
    [origin = o[0]] and the type is
    [design.AsObject (t).Attribute (origin).Type]. [None] is a panic: the
    metadata holds no value, [t] is not an object or has no such
    attribute. *)
Definition originSource (body : AttributeExpr) (t : DataType)
  : option (DataType * option string) :=
  match metadataLookup (Metadata body) "origin:attribute" with
  | Some o =>
      origin ← head o;
      obj ← AsObject t;
      a ← objAttribute obj origin;
      Some (Type_ a, Some origin)
  | None => Some (t, None)
  end.

(** buildBodyType builds the TypeData for a request or response body.
    [att] is the payload, result/viewed result or error body attribute,
    [req] tells a request body from a response body, [svr] is true for
    server side code, [viewed] tells whether the body is built from a
    viewed result type. *)
Definition buildBodyType (svc : ServiceInfo) (e : EndpointExpr)
    (body att : AttributeExpr) (req svr viewed : bool) (pkg : string)
  : M (option TypeData.t) :=
  if isEmpty (Type_ body) then ret None
  else
    (* When producing a type that is used for marshaling then produce the
       marshaling code and consider default values. Otherwise when
       generating types that are used to unmarshal use pointer fields
       regardless of whether the attribute is required or has a default
       value. *)
    let marshaled := negb svr && req in
    sd <- get ;;
    let scope := Scope sd in
    let name := TypeNameOf (Type_ body) in
    let ref := GoTypeRef scope body in
    let '(varname, desc, def, validateDef, validateRef) :=
      match Type_ body with
      | UserType id =>
          let varname := Goify (TypeNameOf (Type_ body)) true in
          let def := goTypeDef scope (utAttribute id) (negb marshaled) marshaled in
          let ctx := if req then "request" else "response" in
          let desc :=
            varname ++ " is the type of the " ++ Quote (SName svc) ++ " service "
              ++ Quote (MethodName e) ++ " endpoint HTTP " ++ ctx ++ " body." in
          if (svr && req) || (negb svr && negb req && negb viewed) then
            (* validate unmarshaled data *)
            let validateDef :=
              RecursiveValidationCode body true (negb marshaled) marshaled "body" in
            (varname, desc, def, validateDef,
             if String.eqb validateDef "" then "" else "err = body.Validate()")
          else (varname, desc, def, "", "")
      | _ =>
          (GoTypeRef scope body, Description body, "", "",
           RecursiveValidationCode body true (negb marshaled) marshaled "body")
      end in
    init <-
      (if ((svr && negb req) || (negb svr && req))
            && negb (isEmpty (Type_ att)) && needInit (Type_ body)
       then
         let name := "New" ++ Goify (GoTypeName scope body) true in
         let '(ctx, rctx, sourceVar) :=
           if req then ("request", "payload", "p") else ("response", "result", "res") in
         let desc :=
           name ++ " builds the HTTP " ++ ctx ++ " body from the " ++ rctx ++ " of the "
             ++ Quote (MethodName e) ++ " endpoint of the " ++ Quote (SName svc)
             ++ " service." in
         (* If design uses Body("name") syntax then need to use
            payload/result attribute to transform. *)
         os <- must (originSource body (Type_ att)) ;;
         let '(srcType, o) := os in
         let src :=
           match o with
           | Some origin => sourceVar ++ "." ++ Goify origin true
           | None => sourceVar
           end in
         let origin := default "" o in
         let '(code, helpers, err) :=
           GoTypeTransform srcType (Type_ body) src "body" pkg "" false scope in
         run (match err with
              | Some msg => Println msg (* TBD validate DSL so errors are not possible *)
              | None => ret tt
              end) ;;
         sd1 <- get ;;
         run (if svr
              then setServerTransformHelpers (AppendHelpers (ServerTransformHelpers sd1) helpers)
              else setClientTransformHelpers (AppendHelpers (ClientTransformHelpers sd1) helpers)) ;;
         let arg :=
           InitArgData.Make sourceVar "" (if viewed then sourceVar ++ ".Projected" else sourceVar)
             "" "" (GoFullTypeRef scope att pkg) false false None validateDef (ExampleOf att) in
         ret (Some (InitData.Make name desc
                      (if svr then [arg] else []) (if svr then [] else [arg]) []
                      "" (GoTypeRef scope body) (Goify origin true) false false
                      (if svr then code else "") (if svr then "" else code)))
       else ret None) ;;
    ret (Some (TypeData.Make name varname desc init def ref validateDef validateRef
                 (ExampleOf body))).

(** attributeTypeData: the type data of a user type used by a body, [None]
    when the type name was already seen on that side. The user type is
    given by its identifier; Empty is not a user type here. *)
Definition attributeTypeData (id : string) (req ptr server : bool) : M (option TypeData.t) :=
  sd <- get ;;
  let ut := UserType id in
  let seen := if server then ServerTypeNames sd else ClientTypeNames sd in
  if decide (TypeNameOf ut ∈ seen) then ret None
  else
    run (if server
         then setTypeNames ({[TypeNameOf ut]} ∪ ServerTypeNames sd) (ClientTypeNames sd)
         else setTypeNames (ServerTypeNames sd) ({[TypeNameOf ut]} ∪ ClientTypeNames sd)) ;;
    let scope := Scope sd in
    let att := attrOf ut in
    let name := GoTypeName scope att in
    let ctx := if req then "request" else "response" in
    let desc := name ++ " is used to define fields on " ++ ctx ++ " body types." in
    (* we want to consider defaults if generating the type for a response
       server side or a request client side because generated code
       initializes default value so field can never be nil. *)
    let useDefault := (negb req && server) || (req && negb server) in
    let def := goTypeDef scope (utAttribute id) ptr useDefault in
    let validate := RecursiveValidationCode (utAttribute id) true ptr useDefault "body" in
    let validateRef := if String.eqb validate "" then "" else "err = v.Validate()" in
    ret (Some (TypeData.Make (TypeNameOf ut) name desc None def (GoTypeRef scope att)
                 validate validateRef (ExampleOf att))).

(** The four generation contexts. *)
Inductive Context_ : Type :=
| ServerRequest | ClientRequest | ServerResponse | ClientResponse.

Definition isRequest (c : Context_) : bool :=
  match c with ServerRequest | ClientRequest => true | _ => false end.
Definition isServer (c : Context_) : bool :=
  match c with ServerRequest | ServerResponse => true | _ => false end.
(** The side that decodes: the server for requests, the client for
    responses. *)
Definition isDecoding (c : Context_) : bool :=
  match c with ServerRequest | ClientResponse => true | _ => false end.

(** The body type of a context, as buildPayloadData and buildResultData
    request it. *)
Definition bodyTypeOf (c : Context_) (svc : ServiceInfo) (e : EndpointExpr)
    (body att : AttributeExpr) (viewed : bool) (pkg : string) : M (option TypeData.t) :=
  buildBodyType svc e body att (isRequest c) (isServer c) viewed pkg.

(** The generated definition of the body type of a context, when the
    builder returns one. *)
Definition bodyDef (c : Context_) (svc : ServiceInfo) (e : EndpointExpr)
    (body att : AttributeExpr) (viewed : bool) (pkg : string) (sd : ServiceData)
  : option string :=
  match bodyTypeOf c svc e body att viewed pkg sd with
  | Some (Some td, _) => Some (TypeData.Def td)
  | _ => None
  end.

End BodyTypes.

(* --------------------------------------------------------------------- *)
(* 8. Parameters and headers                                             *)
(* --------------------------------------------------------------------- *)

Section Params.
Context `{Env}.

(** A [for ... range] loop whose body computes one element of the result. *)
Fixpoint mapM {A B : Type} (f : A -> M B) (l : list A) : M (list B) :=
  match l with
  | [] => ret []
  | a :: r => b <- f a ;; bs <- mapM f r ;; ret (b :: bs)
  end.

(** [arr != nil && arr.ElemType.Type.Kind () == design.StringKind]. *)
Definition isStringSlice (arr : option AttributeExpr) : bool :=
  match arr with
  | Some el => KindIsString (Type_ el)
  | None => false
  end.

Definition extractPathParams (a : MappedAttributeExpr) (serviceType : AttributeExpr)
  : M (list ParamData.t) :=
  mapM (fun it : string * string * bool * AttributeExpr =>
          let '(name, elem, required, c) := it in
          varn <- unique (Goify name false) ;;
          sd <- get ;;
          let scope := Scope sd in
          let arr := AsArray (Type_ c) in
          let fieldName := if IsObject (Type_ serviceType) then Goify name true else "" in
          ret {| ParamData.Name := elem;
                 ParamData.AttributeName := name;
                 ParamData.Description := Description c;
                 ParamData.FieldName := fieldName;
                 ParamData.VarName := varn;
                 ParamData.Required := required;
                 ParamData.Type_ := Type_ c;
                 ParamData.TypeName := GoTypeName scope c;
                 ParamData.TypeRef := GoTypeRef scope c;
                 ParamData.Pointer := false;
                 ParamData.Slice := bool_decide (is_Some arr);
                 ParamData.StringSlice := isStringSlice arr;
                 ParamData.Map := false;
                 ParamData.MapStringSlice := false;
                 ParamData.Validate := RecursiveValidationCode c true false false varn;
                 ParamData.DefaultValue := DefaultValue c;
                 ParamData.Example := ExampleOf c;
                 ParamData.MapQueryParams := None |})
       (WalkMappedAttr a).

(** The conjunction deciding [MapStringSlice]; [design.AsArray] is only
    called when the element kind is an array. *)
Definition isMapStringSlice (mp : option (AttributeExpr * AttributeExpr)) : M bool :=
  match mp with
  | Some (k, el) =>
      if KindIsString (Type_ k) && KindIsArray (Type_ el)
      then inner <- must (AsArray (Type_ el)) ;; ret (KindIsString (Type_ inner))
      else ret false
  | None => ret false
  end.

Definition extractQueryParams (a : MappedAttributeExpr) (serviceType : AttributeExpr)
  : M (list ParamData.t) :=
  mapM (fun it : string * string * bool * AttributeExpr =>
          let '(name, elem, required, c) := it in
          varn <- unique (Goify name false) ;;
          sd <- get ;;
          let scope := Scope sd in
          let arr := AsArray (Type_ c) in
          let mp := AsMap (Type_ c) in
          let pointer := IsPrimitivePointer (MAttribute a) name true in
          let typeRef := if pointer then "*" ++ GoTypeRef scope c else GoTypeRef scope c in
          let fieldName := if IsObject (Type_ serviceType) then Goify name true else "" in
          mss <- isMapStringSlice mp ;;
          ret {| ParamData.Name := elem;
                 ParamData.AttributeName := name;
                 ParamData.Description := Description c;
                 ParamData.FieldName := fieldName;
                 ParamData.VarName := varn;
                 ParamData.Required := required;
                 ParamData.Type_ := Type_ c;
                 ParamData.TypeName := GoTypeName scope c;
                 ParamData.TypeRef := typeRef;
                 ParamData.Pointer := pointer;
                 ParamData.Slice := bool_decide (is_Some arr);
                 ParamData.StringSlice := isStringSlice arr;
                 ParamData.Map := bool_decide (is_Some mp);
                 ParamData.MapStringSlice := mss;
                 ParamData.Validate :=
                   RecursiveValidationCode c required false
                     (bool_decide (is_Some (DefaultValue c))) varn;
                 ParamData.DefaultValue := DefaultValue c;
                 ParamData.Example := ExampleOf c;
                 ParamData.MapQueryParams := None |})
       (WalkMappedAttr a).

Definition extractHeaders (a : MappedAttributeExpr) (serviceType : AttributeExpr) (req : bool)
  : M (list HeaderData.t) :=
  obj <- must (AsObject (Type_ (MAttribute a))) ;;
  mapM (fun nat : NamedAttributeExpr =>
          let name := Name nat in
          let elem := ElemName a name in
          varn <- unique (Goify name false) ;;
          sd <- get ;;
          let scope := Scope sd in
          let isObj := IsObject (Type_ serviceType) in
          let required := if isObj then IsRequired serviceType name else true in
          let fieldName := if isObj then Goify name true else "" in
          let pointer := if isObj then IsPrimitivePointer serviceType name req else false in
          (* this should not be nil because we validated *)
          hattr <- must (if isObj then Find serviceType name else Some serviceType) ;;
          let arr := AsArray (Type_ hattr) in
          let typeRef := if pointer then "*" ++ GoTypeRef scope hattr else GoTypeRef scope hattr in
          ret {| HeaderData.Name := elem;
                 HeaderData.AttributeName := name;
                 HeaderData.Description := Description hattr;
                 HeaderData.CanonicalName := CanonicalHeaderKey elem;
                 HeaderData.FieldName := fieldName;
                 HeaderData.VarName := varn;
                 HeaderData.TypeName := GoTypeName scope hattr;
                 HeaderData.TypeRef := typeRef;
                 HeaderData.Required := required;
                 HeaderData.Pointer := pointer;
                 HeaderData.Slice := bool_decide (is_Some arr);
                 HeaderData.StringSlice := isStringSlice arr;
                 HeaderData.Type_ := Type_ hattr;
                 HeaderData.Validate :=
                   RecursiveValidationCode hattr required false
                     (bool_decide (is_Some (DefaultValue hattr))) varn;
                 HeaderData.DefaultValue := DefaultValue hattr;
                 HeaderData.Example := ExampleOf hattr |})
       obj.

(** The arguments of a path constructor, as the loop of analyze over the
    wildcards of a route computes them. *)
Definition pathInitArgs (e : EndpointExpr) (params : list string) : M (list InitArgData.t) :=
  let pathParamsObj := AsObject (Type_ (MAttribute (PathParams e))) in
  mapM (fun arg : string =>
          obj <- must pathParamsObj ;;
          let att := objAttribute obj arg in
          name <- unique (Goify arg false) ;;
          let pointer := IsPrimitivePointer (MAttribute (Params e)) arg false in
          att <- must att ;;
          sd <- get ;;
          let scope := Scope sd in
          let vcode :=
            match Validation att with
            | Some _ => RecursiveValidationCode att true false false name
            | None => ""
            end in
          ret {| InitArgData.Name := name;
                 InitArgData.Description := Description att;
                 InitArgData.Ref := name;
                 InitArgData.FieldName := Goify arg true;
                 InitArgData.TypeName := GoTypeName scope att;
                 InitArgData.TypeRef := GoTypeRef scope att;
                 InitArgData.Pointer := pointer;
                 InitArgData.Required := true;
                 InitArgData.DefaultValue := None;
                 InitArgData.Example := ExampleOf att;
                 InitArgData.Validate := vcode |})
       params.

End Params.

(* --------------------------------------------------------------------- *)
(* 9. buildPayloadData                                                   *)
(* --------------------------------------------------------------------- *)

Section Payload.
Context `{Env}.

(** The three loops that decide whether the decoded request must be
    validated; each leaves at the first element that asks for it. *)
Fixpoint pathParamsNeedValidation (l : list ParamData.t) : bool :=
  match l with
  | [] => false
  | p :: r =>
      if negb (String.eqb (ParamData.Validate p) "") || needConversion (ParamData.Type_ p)
      then true else pathParamsNeedValidation r
  end.

Fixpoint queryParamsNeedValidation (l : list ParamData.t) : bool :=
  match l with
  | [] => false
  | q :: r =>
      if negb (String.eqb (ParamData.Validate q) "") || ParamData.Required q
         || needConversion (ParamData.Type_ q)
      then true else queryParamsNeedValidation r
  end.

Fixpoint headersNeedValidation (l : list HeaderData.t) : bool :=
  match l with
  | [] => false
  | h :: r =>
      if negb (String.eqb (HeaderData.Validate h) "") || HeaderData.Required h
         || needConversion (HeaderData.Type_ h)
      then true else headersNeedValidation r
  end.

Definition requestMustValidate (paramsData queryData : list ParamData.t)
    (headersData : list HeaderData.t) : bool :=
  let mustValidate := pathParamsNeedValidation paramsData in
  let mustValidate :=
    if negb mustValidate then queryParamsNeedValidation queryData else mustValidate in
  let mustValidate :=
    if negb mustValidate then headersNeedValidation headersData else mustValidate in
  mustValidate.

(** The query parameter that maps the whole payload, or one of its
    attributes, when the endpoint asks for it. *)
Definition mapQueryParamOf (e : EndpointExpr) : M (option ParamData.t) :=
  match MapQueryParams e with
  | None => ret None
  | Some n =>
      let payload := Payload e in
      x <- (if String.eqb n ""
            then ret ("", "query", false, payload)
            else
              obj <- must (AsObject (Type_ payload)) ;;
              pAtt <- must (objAttribute obj n) ;;
              ret (Goify n true, n, IsRequired payload n, pAtt)) ;;
      let '(fieldName, name, required, pAtt) := x in
      let varn := Goify name false in
      sd <- get ;;
      let scope := Scope sd in
      ret (Some {| ParamData.Name := name;
                   ParamData.AttributeName := "";
                   ParamData.Description := "";
                   ParamData.FieldName := fieldName;
                   ParamData.VarName := varn;
                   ParamData.Required := required;
                   ParamData.Type_ := Type_ pAtt;
                   ParamData.TypeName := GoTypeName scope pAtt;
                   ParamData.TypeRef := GoTypeRef scope pAtt;
                   ParamData.Pointer := false;
                   ParamData.Slice := false;
                   ParamData.StringSlice := false;
                   ParamData.Map := bool_decide (is_Some (AsMap (Type_ payload)));
                   ParamData.MapStringSlice := false;
                   ParamData.Validate :=
                     RecursiveValidationCode payload required false false varn;
                   ParamData.DefaultValue := DefaultValue pAtt;
                   ParamData.Example := ExampleOf pAtt;
                   ParamData.MapQueryParams := Some n |})
  end.

(** The request data of an endpoint: bodies, parameters, headers and the
    validation flag. The constructor of the payload is added afterwards. *)
Definition buildRequestData (svc : ServiceInfo) (e : EndpointExpr)
  : M (RequestData.t * option ParamData.t) :=
  let payload := Payload e in
  serverBodyData <- buildBodyType svc e (Body e) payload true true false (PkgName svc) ;;
  clientBodyData <- buildBodyType svc e (Body e) payload true false false (PkgName svc) ;;
  paramsData <- extractPathParams (PathParams e) payload ;;
  queryData <- extractQueryParams (QueryParams e) payload ;;
  headersData <- extractHeaders (Headers e) payload true ;;
  mapQueryParam <- mapQueryParamOf e ;;
  let queryData :=
    match mapQueryParam with
    | Some q => (queryData ++ [q])%list
    | None => queryData
    end in
  run (match serverBodyData with
       | Some td =>
           sd <- get ;;
           setTypeNames ({[TypeData.Name td]} ∪ ServerTypeNames sd)
                        ({[TypeData.Name td]} ∪ ClientTypeNames sd)
       | None => ret tt
       end) ;;
  let mustValidate := requestMustValidate paramsData queryData headersData in
  ret ({| RequestData.PathParams := paramsData;
          RequestData.QueryParams := queryData;
          RequestData.Headers := headersData;
          RequestData.ServerBody := serverBodyData;
          RequestData.ClientBody := clientBodyData;
          RequestData.PayloadInit := None;
          RequestData.MustValidate := mustValidate |}, mapQueryParam).

(** [if err == nil] after a call to GoTypeTransform: the helpers are kept
    on the given side only when the call succeeded. *)
Definition keepHelpers (server : bool) (helpers : list TransformFunctionData)
    (err : option string) : M unit :=
  match err with
  | None =>
      sd <- get ;;
      if server
      then setServerTransformHelpers (AppendHelpers (ServerTransformHelpers sd) helpers)
      else setClientTransformHelpers (AppendHelpers (ClientTransformHelpers sd) helpers)
  | Some _ => ret tt
  end.

(** [if err != nil { fmt.Println (err.Error ()) }]. *)
Definition printError (err : option string) : M unit :=
  match err with
  | Some msg => Println msg (* TBD validate DSL so errors are not possible *)
  | None => ret tt
  end.

(** The transformation the payload constructor needs, if any: source
    type, target type, source variable and origin attribute. With a body,
    the body is transformed to the payload or to its origin attribute;
    without one, an array or map payload is built from the first
    parameter. [None] is a panic. *)
Definition payloadTransform (e : EndpointExpr)
  : option (option (DataType * DataType * string * string)) :=
  let payload := Payload e in
  let body := Type_ (Body e) in
  if negb (isEmpty body) then
    (* If design uses Body("name") syntax then need to use payload
       attribute to transform. *)
    os ← originSource (Body e) (Type_ payload);
    Some (Some (body, os.1, "body", default "" os.2))
  else if IsArray (Type_ payload) || IsMap (Type_ payload) then
    params ← AsObject (Type_ (MAttribute (Params e)));
    match params with
    | p0 :: _ =>
        Some (Some (Type_ (Attribute p0), Type_ payload, Goify (Name p0) false, ""))
    | [] => Some None
    end
  else Some None.

(** The code of the payload constructor: the server and client code and
    the origin attribute. The two branches of the source call
    GoTypeTransform on the transformation selected above, first for the
    server, then for the client; [err] is assigned by both calls and read
    once, after the second. *)
Definition payloadInitCode (svc : ServiceInfo) (e : EndpointExpr)
  : M (string * string * string) :=
  sd <- get ;;
  let scope := Scope sd in
  t <- must (payloadTransform e) ;;
  match t with
  | Some (source, target, sourceVar, origin) =>
      let '(serverCode, helpers, err) :=
        GoTypeTransform source target sourceVar "v" "" (PkgName svc) true scope in
      run keepHelpers true helpers err ;;
      (* The client code for building the method payload from a request
         body is used by the CLI tool to build the payload given to the
         client endpoint. It differs because the body type there does not
         use pointers for all fields (no need to validate). *)
      let '(clientCode, helpers, err) :=
        GoTypeTransform source target sourceVar "v" "" (PkgName svc) false scope in
      run keepHelpers false helpers err ;;
      run printError err ;;
      ret (serverCode, clientCode, origin)
  | None => ret ("", "", "")
  end.

End Payload.

Section PayloadInit.
Context `{Env}.

(** The first scheme of type Basic among the requirements, in order. *)
Fixpoint findBasic (schemes : list SchemeData) : option SchemeData :=
  match schemes with
  | [] => None
  | sc :: r => if String.eqb (SchemeType sc) "Basic" then Some sc else findBasic r
  end.

Fixpoint firstBasic (reqs : list RequirementData) : option SchemeData :=
  match reqs with
  | [] => None
  | r :: rs =>
      match findBasic (Schemes r) with
      | Some sc => Some sc
      | None => firstBasic rs
      end
  end.

Definition cliArgsOf (e : EndpointExpr) : M (list InitArgData.t) :=
  match firstBasic (Requirements (Method e)) with
  | None => ret []
  | Some sc =>
      sd <- get ;;
      let scope := Scope sd in
      uatt <- must (Find (Payload e) (UsernameAttr sc)) ;;
      let uarg :=
        {| InitArgData.Name := UsernameAttr sc;
           InitArgData.FieldName := UsernameField sc;
           InitArgData.Description := Description uatt;
           InitArgData.Ref := UsernameAttr sc;
           InitArgData.Required := UsernameRequired sc;
           InitArgData.TypeName := GoTypeName scope uatt;
           InitArgData.TypeRef := GoTypeRef scope uatt;
           InitArgData.Pointer := UsernamePointer sc;
           InitArgData.DefaultValue := None;
           InitArgData.Validate :=
             RecursiveValidationCode uatt true false false (UsernameAttr sc);
           InitArgData.Example := ExampleOf uatt |} in
      patt <- must (Find (Payload e) (PasswordAttr sc)) ;;
      let parg :=
        {| InitArgData.Name := PasswordAttr sc;
           InitArgData.FieldName := PasswordField sc;
           InitArgData.Description := Description patt;
           InitArgData.Ref := PasswordAttr sc;
           InitArgData.Required := PasswordRequired sc;
           InitArgData.TypeName := GoTypeName scope patt;
           InitArgData.TypeRef := GoTypeRef scope patt;
           InitArgData.Pointer := PasswordPointer sc;
           InitArgData.DefaultValue := None;
           InitArgData.Validate :=
             RecursiveValidationCode uatt true false false (PasswordAttr sc);
           InitArgData.Example := ExampleOf patt |} in
      ret [uarg; parg]
  end.

(** The argument holding the body, for the server and for the client. *)
Definition bodyArgs (e : EndpointExpr) (scope : NameScope)
  : list InitArgData.t * list InitArgData.t :=
  let body := Type_ (Body e) in
  if isEmpty body then ([], [])
  else
    let ref := if IsObject body then "&body" else "body" in
    let '(svcode, cvcode) :=
      match body with
      | UserType id =>
          match Validation (utAttribute id) with
          | Some _ =>
              (RecursiveValidationCode (utAttribute id) true false false "body",
               RecursiveValidationCode (utAttribute id) true false true "body")
          | None => ("", "")
          end
      | _ => ("", "")
      end in
    let arg (vcode : string) :=
      {| InitArgData.Name := "body";
         InitArgData.Description := "";
         InitArgData.Ref := ref;
         InitArgData.FieldName := "";
         InitArgData.TypeName := GoTypeName scope (attrOf body);
         InitArgData.TypeRef := GoTypeRef scope (attrOf body);
         InitArgData.Pointer := false;
         InitArgData.Required := true;
         InitArgData.DefaultValue := None;
         InitArgData.Validate := vcode;
         InitArgData.Example := ExampleOf (Body e) |} in
    ([arg svcode], [arg cvcode]).

(** The constructor arguments that stand for the parameters and headers of
    the request. *)
Definition requestArgs (e : EndpointExpr) (request : RequestData.t) : list InitArgData.t :=
  (map (fun p =>
          {| InitArgData.Name := ParamData.VarName p;
             InitArgData.Description := ParamData.Description p;
             InitArgData.Ref := ParamData.VarName p;
             InitArgData.FieldName := ParamData.FieldName p;
             InitArgData.TypeName := ParamData.TypeName p;
             InitArgData.TypeRef := ParamData.TypeRef p;
             (* special case for path params that are not pointers
                (because path params never are) but assigned to fields
                that are. *)
             InitArgData.Pointer :=
               negb (ParamData.Required p) && negb (ParamData.Pointer p)
               && IsPrimitivePointer (Payload e) (ParamData.Name p) true;
             InitArgData.Required := ParamData.Required p;
             InitArgData.DefaultValue := None;
             InitArgData.Validate := ParamData.Validate p;
             InitArgData.Example := ParamData.Example p |})
       (RequestData.PathParams request)
   ++ map (fun p =>
          {| InitArgData.Name := ParamData.VarName p;
             InitArgData.Description := "";
             InitArgData.Ref := ParamData.VarName p;
             InitArgData.FieldName := ParamData.FieldName p;
             InitArgData.TypeName := ParamData.TypeName p;
             InitArgData.TypeRef := ParamData.TypeRef p;
             InitArgData.Pointer := false;
             InitArgData.Required := ParamData.Required p;
             InitArgData.DefaultValue := ParamData.DefaultValue p;
             InitArgData.Validate := ParamData.Validate p;
             InitArgData.Example := ParamData.Example p |})
       (RequestData.QueryParams request)
   ++ map (fun h =>
          {| InitArgData.Name := HeaderData.VarName h;
             InitArgData.Description := "";
             InitArgData.Ref := HeaderData.VarName h;
             InitArgData.FieldName := HeaderData.FieldName h;
             InitArgData.TypeName := HeaderData.TypeName h;
             InitArgData.TypeRef := HeaderData.TypeRef h;
             InitArgData.Pointer := false;
             InitArgData.Required := HeaderData.Required h;
             InitArgData.DefaultValue := HeaderData.DefaultValue h;
             InitArgData.Validate := HeaderData.Validate h;
             InitArgData.Example := HeaderData.Example h |})
       (RequestData.Headers request))%list.

(** The constructor of the payload, built when the payload type is or
    makes use of user types. *)
Definition buildPayloadInit (svc : ServiceInfo) (e : EndpointExpr) (request : RequestData.t)
  : M (option InitData.t) :=
  let payload := Payload e in
  let ep := Method e in
  if needInit (Type_ payload) then
    let n := Goify (MName ep) true in
    let p := Goify (MPayload ep) true in
    (* Raw payload object has type name prefixed with endpoint name. No
       need to prefix the type name again. *)
    name <- (if String.prefix n p then
               sd <- get ;;
               let '(p', sc) := HashedUnique (Scope sd) (Type_ payload) p in
               run setScope sc ;;
               ret ("New" ++ p')
             else ret ("New" ++ n ++ p)) ;;
    let desc :=
      name ++ " builds a " ++ SName svc ++ " service " ++ MethodName e
        ++ " endpoint payload." in
    let isObject := IsObject (Type_ payload) in
    sd <- get ;;
    let '(bodyServer, bodyClient) := bodyArgs e (Scope sd) in
    let args := requestArgs e request in
    let serverArgs := (bodyServer ++ args)%list in
    let clientArgs := (bodyClient ++ args)%list in
    cliArgs <- cliArgsOf e ;;
    code <- payloadInitCode svc e ;;
    let '(serverCode, clientCode, origin) := code in
    sd <- get ;;
    let scope := Scope sd in
    ret (Some {| InitData.Name := name;
                 InitData.Description := desc;
                 InitData.ServerArgs := serverArgs;
                 InitData.ClientArgs := clientArgs;
                 InitData.CLIArgs := cliArgs;
                 InitData.ReturnTypeName := GoFullTypeName scope payload (PkgName svc);
                 InitData.ReturnTypeRef := GoFullTypeRef scope payload (PkgName svc);
                 InitData.ReturnIsStruct := isObject;
                 InitData.ReturnTypeAttribute := Goify origin true;
                 InitData.ReturnIsPrimitivePointer := false;
                 InitData.ServerCode := serverCode;
                 InitData.ClientCode := clientCode |})
  else ret None.

(** The name of the first attribute of [o], when [o] is a non-empty object. *)
Definition firstName (o : option (list NamedAttributeExpr)) : option string :=
  match o with
  | Some (n :: _) => Some (Name n)
  | _ => None
  end.

(** buildPayloadData returns the data structure used to describe the
    endpoint payload including the HTTP request details. *)
Definition buildPayloadData (svc : ServiceInfo) (e : EndpointExpr) : M PayloadData.t :=
  let payload := Payload e in
  rq <- buildRequestData svc e ;;
  let '(request0, mapQueryParam) := rq in
  init <- buildPayloadInit svc e request0 ;;
  let request :=
    {| RequestData.PathParams := RequestData.PathParams request0;
       RequestData.QueryParams := RequestData.QueryParams request0;
       RequestData.Headers := RequestData.Headers request0;
       RequestData.ServerBody := RequestData.ServerBody request0;
       RequestData.ClientBody := RequestData.ClientBody request0;
       RequestData.PayloadInit := init;
       RequestData.MustValidate := RequestData.MustValidate request0 |} in
  sd <- get ;;
  let scope := Scope sd in
  let '(name, ref) :=
    if negb (isEmpty (Type_ payload))
    then (GoFullTypeName scope payload (PkgName svc), GoFullTypeRef scope payload (PkgName svc))
    else ("", "") in
  returnValue <-
    match init with
    | Some _ => ret ""
    | None =>
        match firstName (AsObject (Type_ (MAttribute (Params e)))) with
        | Some n => ret (Goify n false)
        | None =>
            match firstName (AsObject (Type_ (MAttribute (Headers e)))) with
            | Some n => ret (Goify n false)
            | None =>
                match MapQueryParams e with
                | Some "" => q <- must mapQueryParam ;; ret (ParamData.Name q)
                | _ => ret ""
                end
            end
        end
    end ;;
  ret {| PayloadData.Name := name;
         PayloadData.Ref := ref;
         PayloadData.Request := request;
         PayloadData.DecoderReturnValue := returnValue |}.

End PayloadInit.

(* --------------------------------------------------------------------- *)
(* 10. buildResponseResultInit and buildResultData                       *)
(* --------------------------------------------------------------------- *)

Section Result.
Context `{Env}.

(** The result attribute the responses are built from, the package of its
    type and whether it is a viewed result: the attribute "projected" of
    the viewed result type when the method has one. *)
Definition resultOf (svc : ServiceInfo) (e : EndpointExpr)
  : M (AttributeExpr * string * bool) :=
  match ViewedResult (Method e) with
  | Some vr =>
      obj <- must (AsObject (Type_ vr)) ;;
      projected <- must (objAttribute obj "projected") ;;
      ret (projected, ViewsPkg svc, true)
  | None => ret (Result e, PkgName svc, false)
  end.

(** The response body attribute of the result and whether the result
    holds it through a pointer: the result itself, or its origin attribute
    with the Body("name") syntax. [None] is a panic. *)
Definition responseBody (resp : HTTPResponseExpr) (result : AttributeExpr)
  : option (AttributeExpr * string * bool) :=
  match metadataLookup (Metadata (RBody resp)) "origin:attribute" with
  | Some o =>
      origin ← head o;
      obj ← AsObject (Type_ result);
      a ← objAttribute obj origin;
      Some (a, origin, IsPrimitivePointer result origin true)
  | None => Some (result, "", false)
  end.

(** The transformation the result constructor needs, if any: source and
    target types, source variable, target package and the unmarshal
    flag. *)
Definition responseTransform (svc : ServiceInfo) (resp : HTTPResponseExpr)
    (e : EndpointExpr) (result : AttributeExpr) (pkg : string)
  : option (option (DataType * DataType * string * string * bool)) :=
  let rbody := Type_ (RBody resp) in
  if negb (isEmpty rbody) then
    rb ← responseBody resp result;
    Some (Some (rbody, Type_ rb.1.1, "body", pkg,
                bool_decide (ViewedResult (Method e) = None)))
  else if IsArray (Type_ result) || IsMap (Type_ result) then
    params ← AsObject (Type_ (MAttribute (QueryParams e)));
    match params with
    | p0 :: _ =>
        Some (Some (Type_ (Attribute p0), Type_ result, Goify (Name p0) false,
                    PkgName svc, true))
    | [] => Some None
    end
  else Some None.

(** The code of the result constructor: one call to GoTypeTransform, whose
    error is printed. *)
Definition responseInitCode (svc : ServiceInfo) (resp : HTTPResponseExpr)
    (e : EndpointExpr) (result : AttributeExpr) (pkg : string) : M string :=
  sd <- get ;;
  let scope := Scope sd in
  t <- must (responseTransform svc resp e result pkg) ;;
  match t with
  | Some (source, target, sourceVar, tpkg, unmarshal) =>
      let '(code, helpers, err) :=
        GoTypeTransform source target sourceVar "v" "" tpkg unmarshal scope in
      run keepHelpers false helpers err ;;
      run printError err ;;
      ret code
  | None => ret ""
  end.

(** The argument holding the response body, with the origin attribute and
    the pointer flag of the constructor. *)
Definition responseBodyArg (resp : HTTPResponseExpr) (result : AttributeExpr)
    (scope : NameScope) : option (list InitArgData.t * string * bool) :=
  let rbody := Type_ (RBody resp) in
  if negb (isEmpty rbody) then
    rb ← responseBody resp result;
    let '(_, origin, pointer) := rb in
    let ref := if IsObject rbody then "&body" else "body" in
    let pointer := if IsObject rbody then false else pointer in
    let vcode :=
      match rbody with
      | UserType id =>
          match Validation (utAttribute id) with
          | Some _ => RecursiveValidationCode (utAttribute id) true false false "body"
          | None => ""
          end
      | _ => ""
      end in
    Some ([ {| InitArgData.Name := "body";
               InitArgData.Description := "";
               InitArgData.Ref := ref;
               InitArgData.FieldName := "";
               InitArgData.TypeName := "";
               InitArgData.TypeRef := GoTypeRef scope (attrOf rbody);
               InitArgData.Pointer := false;
               InitArgData.Required := false;
               InitArgData.DefaultValue := None;
               InitArgData.Validate := vcode;
               InitArgData.Example := "" |} ], origin, pointer)
  else Some ([], "", false).

(** buildResponseResultInit builds the constructor to transform a client
    response to a result type. *)
Definition buildResponseResultInit (svc : ServiceInfo) (resp : HTTPResponseExpr)
    (e : EndpointExpr) : M InitData.t :=
  let md := Method e in
  rp <- resultOf svc e ;;
  let '(result, pkg, _) := rp in
  sd <- get ;;
  ba <- must (responseBodyArg resp result (Scope sd)) ;;
  let '(clientArgs, origin, pointer) := ba in
  code <- responseInitCode svc resp e result pkg ;;
  headers <- extractHeaders (RHeaders resp) result false ;;
  let clientArgs :=
    (clientArgs ++
     map (fun h =>
            {| InitArgData.Name := HeaderData.VarName h;
               InitArgData.Description := "";
               InitArgData.Ref := HeaderData.VarName h;
               InitArgData.FieldName := HeaderData.FieldName h;
               InitArgData.TypeName := "";
               InitArgData.TypeRef := HeaderData.TypeRef h;
               InitArgData.Pointer := false;
               InitArgData.Required := false;
               InitArgData.DefaultValue := None;
               InitArgData.Validate := HeaderData.Validate h;
               InitArgData.Example := HeaderData.Example h |}) headers)%list in
  let status := Goify (StatusText (RStatusCode resp)) true in
  let n := Goify (MName md) true in
  let r := Goify (MResult md) true in
  (* Raw result object has type name prefixed with endpoint name. No need
     to prefix the type name again. *)
  name <- (if String.prefix n r then
             sd <- get ;;
             let '(r', sc) := HashedUnique (Scope sd) (Type_ result) r in
             run setScope sc ;;
             ret ("New" ++ r' ++ status)
           else ret ("New" ++ n ++ r ++ status)) ;;
  sd <- get ;;
  let scope := Scope sd in
  ret {| InitData.Name := name;
         InitData.Description :=
           name ++ " builds a " ++ Quote (SName svc) ++ " service " ++ Quote (MethodName e)
             ++ " endpoint result from a HTTP " ++ Quote status ++ " response.";
         InitData.ServerArgs := [];
         InitData.ClientArgs := clientArgs;
         InitData.CLIArgs := [];
         InitData.ReturnTypeName := GoFullTypeName scope result pkg;
         InitData.ReturnTypeRef := GoFullTypeRef scope result pkg;
         InitData.ReturnIsStruct := IsObject (Type_ result);
         InitData.ReturnTypeAttribute := Goify origin true;
         InitData.ReturnIsPrimitivePointer := pointer;
         InitData.ServerCode := "";
         InitData.ClientCode := code |}.

(** The data of one response of an endpoint: the body of the loop of
    buildResultData, past the test on the tag. *)
Definition buildResponseData (svc : ServiceInfo) (e : EndpointExpr)
    (result : AttributeExpr) (pkg : string) (viewed : bool) (v : HTTPResponseExpr)
  : M ResponseData.t :=
  origin <- match metadataLookup (Metadata (RBody v)) "origin:attribute" with
            | Some o => must (head o)
            | None => ret ""
            end ;;
  init <- (if needInit (Type_ result)
           then i <- buildResponseResultInit svc v e ;; ret (Some i)
           else ret None) ;;
  headersData <- extractHeaders (RHeaders v) result false ;;
  serverBodyData <- buildBodyType svc e (RBody v) result false true viewed pkg ;;
  clientBodyData <- buildBodyType svc e (RBody v) result false false viewed pkg ;;
  run (match clientBodyData with
       | Some td =>
           sd <- get ;;
           setTypeNames ({[TypeData.Name td]} ∪ ServerTypeNames sd)
                        ({[TypeData.Name td]} ∪ ClientTypeNames sd)
       | None => ret tt
       end) ;;
  let mustValidate := headersNeedValidation headersData in
  ret {| ResponseData.StatusCode := statusCodeToHTTPConst (RStatusCode v);
         ResponseData.Description := RDescription v;
         ResponseData.Headers := headersData;
         ResponseData.ErrorHeader := "";
         ResponseData.ServerBody := serverBodyData;
         ResponseData.ClientBody := clientBodyData;
         ResponseData.ResultInit := init;
         ResponseData.TagName := Goify (Tag v).1 true;
         ResponseData.TagValue := (Tag v).2;
         ResponseData.TagRequired := IsRequired result (Tag v).1 && negb viewed;
         ResponseData.MustValidate := mustValidate;
         ResponseData.ResultAttr := Goify origin true;
         ResponseData.ViewedResult := viewed |}.

(** A response definition without a tag. *)
Definition tagless (v : HTTPResponseExpr) : bool := String.eqb (Tag v).1 "".

(** The loop of buildResultData over the responses of the endpoint. [i] is
    the index of [v] in [e.Responses], [notag] the index of the first
    response without a tag, -1 when there has been none. *)
Fixpoint responsesLoop (build : HTTPResponseExpr -> M ResponseData.t)
    (i : Z) (vs : list HTTPResponseExpr) (notag : Z) (responses : list ResponseData.t)
  : M (Z * list ResponseData.t) :=
  match vs with
  | [] => ret (notag, responses)
  | v :: r =>
      if tagless v && (notag >? -1)%Z
      then (* we don't want more than one response with no tag *)
        responsesLoop build (i + 1)%Z r notag responses
      else
        let notag := if tagless v then i else notag in
        responseData <- build v ;;
        responsesLoop build (i + 1)%Z r notag (responses ++ [responseData])%list
  end.

(** Make sure tagless response is last. The two indices are within the
    list when the test holds. *)
Definition taglessLast {A : Type} (notag : Z) (responses : list A) : list A :=
  let count := Z.of_nat (length responses) in
  if (notag >=? 0)%Z && (notag <? count - 1)%Z then
    match responses !! Z.to_nat notag, responses !! Z.to_nat (count - 1) with
    | Some a, Some b => <[Z.to_nat notag := b]> (<[Z.to_nat (count - 1) := a]> responses)
    | _, _ => responses
    end
  else responses.

(** buildResultData builds the result data for the given service
    endpoint. *)
Definition buildResultData (svc : ServiceInfo) (e : EndpointExpr) : M ResultData.t :=
  let result := Result e in
  view <- match metadataLookup (Metadata result) "view" with
          | Some v => must (head v)
          | None => ret "default"
          end ;;
  sd <- get ;;
  let scope := Scope sd in
  let '(name, ref) :=
    if negb (isEmpty (Type_ result))
    then (GoFullTypeName scope result (PkgName svc), GoFullTypeRef scope result (PkgName svc))
    else ("", "") in
  rp <- resultOf svc e ;;
  let '(result, pkg, viewed) := rp in
  lr <- responsesLoop (buildResponseData svc e result pkg viewed) 0 (Responses e) (-1) [] ;;
  let '(notag, responses) := lr in
  let responses := taglessLast notag responses in
  ret {| ResultData.IsStruct := IsObject (Type_ result);
         ResultData.Name := name;
         ResultData.Ref := ref;
         ResultData.Responses := responses;
         ResultData.View := view |}.

End Result.

(* --------------------------------------------------------------------- *)
(* 11. pathInitT: the code of path constructors                          *)
(* --------------------------------------------------------------------- *)

(** The conversions of the template "slice_conversion", one per branch. *)
Inductive Conversion : Type :=
| QueryEscape            (* url.QueryEscape(v) *)
| FormatIntOfInt64       (* strconv.FormatInt(int64(v), 10) *)
| FormatInt              (* strconv.FormatInt(v, 10) *)
| FormatUintOfUint64     (* strconv.FormatUint(uint64(v), 10) *)
| FormatUint             (* strconv.FormatUint(v, 10) *)
| FormatFloat32          (* strconv.FormatFloat(float64(v), 'f', -1, 32) *)
| FormatFloat64          (* strconv.FormatFloat(v, 'f', -1, 64) *)
| FormatBool             (* strconv.FormatBool(v) *)
| QueryEscapeOfString    (* url.QueryEscape(string(v)) *)
| QueryEscapeSprintf.    (* url.QueryEscape(fmt.Sprintf("%v", v)) *)

(** The template "slice_conversion" applied to the name of an element type. *)
Definition slice_conversion (name : string) : Conversion :=
  if String.eqb name "string" then QueryEscape
  else if String.eqb name "int" || String.eqb name "int32" then FormatIntOfInt64
  else if String.eqb name "int64" then FormatInt
  else if String.eqb name "uint" || String.eqb name "uint32" then FormatUintOfUint64
  else if String.eqb name "uint64" then FormatUint
  else if String.eqb name "float32" then FormatFloat32
  else if String.eqb name "float64" then FormatFloat64
  else if String.eqb name "boolean" then FormatBool
  else if String.eqb name "bytes" then QueryEscapeOfString
  else QueryEscapeSprintf.

Definition dquote : string := String (Ascii.ascii_of_nat 34) "".

(** The text each branch renders. *)
Definition conversionCode (c : Conversion) : string :=
  match c with
  | QueryEscape => " url.QueryEscape(v)"
  | FormatIntOfInt64 => " strconv.FormatInt(int64(v), 10)"
  | FormatInt => " strconv.FormatInt(v, 10)"
  | FormatUintOfUint64 => " strconv.FormatUint(uint64(v), 10)"
  | FormatUint => " strconv.FormatUint(v, 10)"
  | FormatFloat32 => " strconv.FormatFloat(float64(v), 'f', -1, 32)"
  | FormatFloat64 => " strconv.FormatFloat(v, 'f', -1, 64)"
  | FormatBool => " strconv.FormatBool(v)"
  | QueryEscapeOfString => " url.QueryEscape(string(v))"
  | QueryEscapeSprintf =>
      " url.QueryEscape(fmt.Sprintf(" ++ dquote ++ "%v" ++ dquote ++ ", v))"
  end.

(** An argument of the call to [fmt.Sprintf] in the rendered constructor:
    the parameter itself, or [strings.Join (nameSlice, ", ")] where
    [nameSlice] holds the elements of the parameter after conversion. *)
Inductive PathArg : Type :=
| ArgVar (name : string)
| ArgJoin (name : string) (conv : Conversion).

(** The constructor the template renders: [return "PathFormat"] without
    arguments, [return fmt.Sprintf ("PathFormat", args...)] otherwise. *)
Inductive PathPlan : Type :=
| ReturnLiteral (pathFormat : string)
| ReturnSprintf (pathFormat : string) (args : list PathArg).

Definition joinSeparator : string := ", ".

Section PathInit.
Context `{Env}.

(** The argument rendered for [$arg] at index [$i]: the type is the one of
    the attribute at index [$i] of [.PathParams]; the template fails when
    there is none, or when a type named "array" has no element type. *)
Definition pathArg (PathParams : list NamedAttributeExpr) (i : nat) (arg : InitArgData.t)
  : option PathArg :=
  match PathParams !! i with
  | None => None
  | Some nat =>
      let typ := Type_ (Attribute nat) in
      if String.eqb (TypeNameOf typ) "array" then
        match typ with
        | Array el =>
            Some (ArgJoin (InitArgData.Name arg)
                    (slice_conversion (TypeNameOf (Type_ el))))
        | _ => None
        end
      else Some (ArgVar (InitArgData.Name arg))
  end.

Fixpoint pathArgs (PathParams : list NamedAttributeExpr) (i : nat)
    (Args : list InitArgData.t) : option (list PathArg) :=
  match Args with
  | [] => Some []
  | arg :: r =>
      match pathArg PathParams i arg, pathArgs PathParams (S i) r with
      | Some a, Some l => Some (a :: l)
      | _, _ => None
      end
  end.

(** pathInitT is the template used to render the code of path
    constructors; [None] is an execution error, on which analyze panics. *)
Definition pathInitT (Args : list InitArgData.t) (PathParams : list NamedAttributeExpr)
    (PathFormat : string) : option PathPlan :=
  match Args with
  | [] => Some (ReturnLiteral PathFormat)
  | _ => args ← pathArgs PathParams 0 Args; Some (ReturnSprintf PathFormat args)
  end.

End PathInit.

(** Values of the parameters of a path constructor. A floating point
    value is given by its IEEE 754 datum; [VFloat32] holds a value of type
    float32 and [VFloat64] one of type float64. *)
Inductive Value : Type :=
| VBool (b : bool)
| VInt (z : Z)
| VUint (n : N)
| VFloat32 (f : spec_float)
| VFloat64 (f : spec_float)
| VString (s : string)
| VBytes (s : string)
| VArray (l : list Value).

Definition formatInt (z : Z) : string := NilZero.string_of_int (Z.to_int z).
Definition formatUint (n : N) : string := NilZero.string_of_uint (N.to_uint n).
Definition formatBool (b : bool) : string := if b then "true" else "false".

Fixpoint join (sep : string) (l : list string) : string :=
  match l with
  | [] => ""
  | [s] => s
  | s :: r => s ++ sep ++ join sep r
  end.

Section PathSemantics.

(** [strconv.FormatFloat f fmt prec bitSize], of the Go standard library. *)
Variable FormatFloat : spec_float -> ascii -> Z -> Z -> string.

(** The verb [%v] of package fmt on the values above; a floating point
    value is printed in the format [g] with the smallest precision that
    identifies it. *)
Fixpoint formatV (v : Value) : string :=
  match v with
  | VBool b => formatBool b
  | VInt z => formatInt z
  | VUint n => formatUint n
  | VFloat32 f => FormatFloat f "g"%char (-1)%Z 32%Z
  | VFloat64 f => FormatFloat f "g"%char (-1)%Z 64%Z
  | VString s => s
  | VBytes s =>
      "[" ++ join " " (map (fun c => formatUint (N_of_ascii c)) (list_ascii_of_string s)) ++ "]"
  | VArray l => "[" ++ join " " (map formatV l) ++ "]"
  end.

Definition hexDigit (n : nat) : ascii :=
  match String.get n "0123456789ABCDEF" with
  | Some c => c
  | None => "0"%char
  end.

(** [url.QueryEscape]: letters, digits and [-], [_], [.], [~] are kept, a
    space becomes [+], any other byte is written [%XX]. *)
Definition unreserved (c : ascii) : bool :=
  let n := nat_of_ascii c in
  (((65 <=? n) && (n <=? 90)) || ((97 <=? n) && (n <=? 122)) || ((48 <=? n) && (n <=? 57))
   || (n =? 45) || (n =? 95) || (n =? 46) || (n =? 126))%nat.

Fixpoint queryEscape (s : string) : string :=
  match s with
  | EmptyString => ""
  | String c r =>
      if unreserved c then String c (queryEscape r)
      else if (nat_of_ascii c =? 32)%nat then String "+" (queryEscape r)
      else String "%" (String (hexDigit (nat_of_ascii c / 16))
                         (String (hexDigit (nat_of_ascii c mod 16)) (queryEscape r)))
  end.

(** The conversion of one element of an array parameter. The generated
    expression is typed for the element type the template saw; on a value
    of another type it does not compile, which is [None]. *)
Definition convert (c : Conversion) (v : Value) : option string :=
  match c, v with
  | QueryEscape, VString s => Some (queryEscape s)
  | FormatIntOfInt64, VInt z | FormatInt, VInt z => Some (formatInt z)
  | FormatUintOfUint64, VUint n | FormatUint, VUint n => Some (formatUint n)
  | FormatFloat32, VFloat32 f => Some (FormatFloat f "f"%char (-1)%Z 32%Z)
  | FormatFloat64, VFloat64 f => Some (FormatFloat f "f"%char (-1)%Z 64%Z)
  | FormatBool, VBool b => Some (formatBool b)
  | QueryEscapeOfString, VBytes s => Some (queryEscape s)
  | QueryEscapeSprintf, v => Some (queryEscape (formatV v))
  | _, _ => None
  end.

Fixpoint convertAll (c : Conversion) (l : list Value) : option (list string) :=
  match l with
  | [] => Some []
  | v :: r =>
      match convert c v, convertAll c r with
      | Some s, Some ss => Some (s :: ss)
      | _, _ => None
      end
  end.

(** [fmt.Sprintf] on a format whose verbs are [%v], applied to operands
    already formatted. A missing operand prints as fmt does; surplus
    operands and other verbs are not modelled. *)
Fixpoint sprintf (pf : string) (args : list string) : option string :=
  match pf with
  | EmptyString => match args with [] => Some "" | _ => None end
  | String "%" (String "v" rest) =>
      match args with
      | a :: r => (fun s => a ++ s) <$> sprintf rest r
      | [] => (fun s => "%!v(MISSING)" ++ s) <$> sprintf rest []
      end
  | String "%" (String "%" rest) => String "%" <$> sprintf rest args
  | String "%" _ => None
  | String c rest => String c <$> sprintf rest args
  end.

(** The operand an argument of the plan evaluates to. *)
Definition evalArg (a : PathArg) (v : Value) : option string :=
  match a, v with
  | ArgVar _, v => Some (formatV v)
  | ArgJoin _ c, VArray l => join joinSeparator <$> convertAll c l
  | ArgJoin _ _, _ => None
  end.

Fixpoint evalArgs (args : list PathArg) (vals : list Value) : option (list string) :=
  match args, vals with
  | [], [] => Some []
  | a :: ar, v :: vr =>
      match evalArg a v, evalArgs ar vr with
      | Some s, Some ss => Some (s :: ss)
      | _, _ => None
      end
  | _, _ => None
  end.

(** The path a rendered constructor returns on the given parameter values. *)
Definition runPath (p : PathPlan) (vals : list Value) : option string :=
  match p with
  | ReturnLiteral pf => Some pf
  | ReturnSprintf pf args => operands ← evalArgs args vals; sprintf pf operands
  end.

End PathSemantics.

(* --------------------------------------------------------------------- *)
(* 12. A plain implementation of the interface                           *)
(* --------------------------------------------------------------------- *)

(** [design.AsObject] over a registry: an object, or a user type whose
    attribute is an object. *)
Definition plainAsObject (types : gmap string AttributeExpr) (dt : DataType)
  : option (list NamedAttributeExpr) :=
  match dt with
  | Object nats => Some nats
  | UserType id =>
      match types !! id with
      | Some a => match Type_ a with Object nats => Some nats | _ => None end
      | None => None
      end
  | _ => None
  end.

Definition plainIsRequired (a : AttributeExpr) (name : string) : bool :=
  match Validation a with
  | Some v => bool_decide (name ∈ Required v)
  | None => false
  end.

(** A primitive attribute is held through a pointer when it is neither
    bytes nor any, is not required, and has no default value or default
    values are not considered. *)
Definition plainIsPrimitivePointer (types : gmap string AttributeExpr)
    (a : AttributeExpr) (name : string) (useDefault : bool) : bool :=
  match plainAsObject types (Type_ a) ≫= fun o => objAttribute o name with
  | Some f =>
      match Type_ f with
      | Primitive k =>
          negb (bool_decide (k = BytesKind)) && negb (bool_decide (k = AnyKind))
          && negb (plainIsRequired a name)
          && (negb (bool_decide (is_Some (DefaultValue f))) || negb useDefault)
      | _ => false
      end
  | None => false
  end.

Definition plainElemName (m : MappedAttributeExpr) (name : string) : string :=
  default name (snd <$> find (fun p => String.eqb p.1 name) (nameMap m)).

Definition plainTypeName (dt : DataType) : string :=
  match dt with
  | Empty => "Empty"
  | Primitive k => kindName k
  | Array _ => "array"
  | Map _ _ => "map"
  | Object _ => "object"
  | UserType id => id
  end.

(** A struct definition in which a primitive field is a pointer when [ptr]
    is set or when the attribute is a primitive pointer, as the comments of
    buildBodyType and attributeTypeData describe. *)
Definition plainTypeDef (types : gmap string AttributeExpr)
    (a : AttributeExpr) (ptr useDefault : bool) : string :=
  match Type_ a with
  | Object nats =>
      "struct {"
      ++ String.concat "" (map (fun n =>
                        " " ++ Name n ++ " "
                        ++ (match Type_ (Attribute n) with
                            | Primitive _ =>
                                if ptr || plainIsPrimitivePointer types a (Name n) useDefault
                                then "*" else ""
                            | _ => ""
                            end)
                        ++ plainTypeName (Type_ (Attribute n)) ++ ";") nats)
      ++ " }"
  | t => plainTypeName t
  end.

(** The interface over a registry of user types and a table of the errors of
    GoTypeTransform, by source type, target type and unmarshal flag. *)
Definition plainEnv (types : gmap string AttributeExpr)
    (transformError : DataType -> DataType -> bool -> option string) : Env :=
  {| NameScope := list string;
     TransformFunctionData := string;
     Types := types;
     UserTypeName := fun id => id;
     AsObject := plainAsObject types;
     AsArray := fun dt => match dt with Array el => Some el | _ => None end;
     AsMap := fun dt => match dt with Map k el => Some (k, el) | _ => None end;
     IsObject := fun dt => bool_decide (is_Some (plainAsObject types dt));
     IsArray := fun dt => match dt with Array _ => true | _ => false end;
     IsMap := fun dt => match dt with Map _ _ => true | _ => false end;
     Find := fun a name => plainAsObject types (Type_ a) ≫= fun o => objAttribute o name;
     IsRequired := plainIsRequired;
     IsPrimitivePointer := plainIsPrimitivePointer types;
     ExampleOf := fun _ => "";
     ElemName := plainElemName;
     Goify := fun s _ => s;
     GoTypeRef := fun _ a => plainTypeName (Type_ a);
     GoTypeName := fun _ a => plainTypeName (Type_ a);
     GoFullTypeRef := fun _ a pkg => pkg ++ "." ++ plainTypeName (Type_ a);
     GoFullTypeName := fun _ a pkg => pkg ++ "." ++ plainTypeName (Type_ a);
     Unique := fun sc name =>
       if bool_decide (name ∈ sc) then (name ++ "2", (name ++ "2") :: sc)
       else (name, name :: sc);
     HashedUnique := fun sc _ name => (name, sc);
     RecursiveValidationCode := fun a _ _ _ target =>
       match Validation a with
       | Some v => match Rules v with [] => "" | _ => "validate(" ++ target ++ ")" end
       | None => ""
       end;
     GoTypeTransform := fun s t sourceVar targetVar _ _ unmarshal _ =>
       match transformError s t unmarshal with
       | Some msg => ("", [], Some msg)
       | None => (targetVar ++ " := " ++ sourceVar, [], None)
       end;
     AppendHelpers := fun a b => (a ++ b)%list;
     WalkMappedAttr := fun m =>
       match plainAsObject types (Type_ (MAttribute m)) with
       | Some o =>
           map (fun n => (Name n, plainElemName m (Name n),
                          plainIsRequired (MAttribute m) (Name n), Attribute n)) o
       | None => []
       end;
     goTypeDef := fun _ => plainTypeDef types;
     statusCodeToHTTPConst := fun z => "Status" ++ formatInt z;
     StatusText := fun z => formatInt z;
     CanonicalHeaderKey := fun s => s;
     Quote := fun s => dquote ++ s ++ dquote |}.

(** The service data before any builder ran. *)
Definition emptyServiceData (E : Env) (scope : @NameScope E) : @ServiceData E :=
  @MkServiceData E scope ∅ ∅ [] [] [] [] [].

(* --------------------------------------------------------------------- *)
(* 13. A design to evaluate the builders on                              *)
(* --------------------------------------------------------------------- *)

(** The user type Widget: a required name and an optional note, both
    strings without default value. *)
Definition widgetAttribute : AttributeExpr :=
  MkAttribute
    (Object [MkNamed "name" (attrOf (Primitive StringKind));
             MkNamed "note" (attrOf (Primitive StringKind))])
    "" (Some (MkValidation ["name"] [])) None [].

Definition widgetTypes : gmap string AttributeExpr := {[ "Widget" := widgetAttribute ]}.

Definition noTransformError : DataType -> DataType -> bool -> option string :=
  fun _ _ _ => None.

(** GoTypeTransform fails when asked for unmarshaling code only. *)
Definition unmarshalTransformError : DataType -> DataType -> bool -> option string :=
  fun _ _ unmarshal => if unmarshal then Some "cannot transform body to payload" else None.

(** GoTypeTransform always fails. *)
Definition everyTransformError : DataType -> DataType -> bool -> option string :=
  fun _ _ _ => Some "cannot transform".

Definition widgetsService : ServiceInfo :=
  MkService "widgets" "Widgets" "widgets" "widgetsviews".

Definition noAttributes : MappedAttributeExpr := MkMapped (attrOf (Object [])) [].

(** The payload of the method show: a required string id, bound to the
    path, and the widget, carried by the body. *)
Definition showPayload : AttributeExpr :=
  MkAttribute
    (Object [MkNamed "id" (attrOf (Primitive StringKind));
             MkNamed "widget" (attrOf (UserType "Widget"))])
    "" (Some (MkValidation ["id"] [])) None [].

Definition showPathParams : MappedAttributeExpr :=
  MkMapped
    (MkAttribute (Object [MkNamed "id" (attrOf (Primitive StringKind))])
       "" (Some (MkValidation ["id"] [])) None [])
    [].

Definition showBody : AttributeExpr :=
  MkAttribute (UserType "Widget") "" None None [("origin:attribute", ["widget"])].

Definition okResponse (tag : string * string) : HTTPResponseExpr :=
  MkResponse 200 "" noAttributes (attrOf (UserType "Widget")) tag.

Definition showMethod : MethodData :=
  MkMethod "show" "Show" "ShowPayload" "Widget" None [].

Definition showEndpoint : EndpointExpr :=
  MkEndpoint "show" showPayload (attrOf (UserType "Widget")) showBody
    showPathParams showPathParams noAttributes noAttributes None
    [okResponse ("", ""); okResponse ("name", "a"); okResponse ("", "")]
    showMethod.

(** The endpoint get: its payload has the single attribute id, a required
    string bound to the path, and the request has no body. *)
Definition getEndpoint : EndpointExpr :=
  MkEndpoint "get" (MAttribute showPathParams) (attrOf Empty) (attrOf Empty)
    showPathParams showPathParams noAttributes noAttributes None
    [] (MkMethod "get" "Get" "GetPayload" "" None []).

(** The endpoint find: its payload has the single attribute note, a string
    that is not required, bound to the path. *)
Definition findPayload : AttributeExpr :=
  MkAttribute (Object [MkNamed "note" (attrOf (Primitive StringKind))]) "" None None [].

Definition findEndpoint : EndpointExpr :=
  MkEndpoint "find" findPayload (attrOf Empty) (attrOf Empty)
    (MkMapped findPayload []) (MkMapped findPayload []) noAttributes noAttributes None
    [] (MkMethod "find" "Find" "FindPayload" "" None []).

(** The endpoint list: its payload has an integer id and an array of
    strings tags, both bound to the path, by the routes /widgets/{id} and
    /tags/{tags}. *)
Definition listPayload : AttributeExpr :=
  MkAttribute
    (Object [MkNamed "id" (attrOf (Primitive IntKind));
             MkNamed "tags" (attrOf (Array (attrOf (Primitive StringKind))))])
    "" None None [].

Definition listEndpoint : EndpointExpr :=
  MkEndpoint "list" listPayload (attrOf Empty) (attrOf Empty)
    (MkMapped listPayload []) (MkMapped listPayload []) noAttributes noAttributes None
    [] (MkMethod "list" "List" "ListPayload" "" None []).

(** A path parameter as extractPathParams builds it for the required string
    attribute id. *)
Definition idParam : ParamData.t :=
  {| ParamData.Name := "id";
     ParamData.AttributeName := "id";
     ParamData.Description := "";
     ParamData.FieldName := "id";
     ParamData.VarName := "id";
     ParamData.Required := true;
     ParamData.Type_ := Primitive StringKind;
     ParamData.TypeName := "string";
     ParamData.TypeRef := "string";
     ParamData.Pointer := false;
     ParamData.Slice := false;
     ParamData.StringSlice := false;
     ParamData.Map := false;
     ParamData.MapStringSlice := false;
     ParamData.Validate := "";
     ParamData.DefaultValue := None;
     ParamData.Example := "";
     ParamData.MapQueryParams := None |}.

(** An argument of a path constructor named [name]. *)
Definition pathArgument (name : string) : InitArgData.t :=
  {| InitArgData.Name := name;
     InitArgData.Description := "";
     InitArgData.Ref := name;
     InitArgData.FieldName := name;
     InitArgData.TypeName := "";
     InitArgData.TypeRef := "";
     InitArgData.Pointer := false;
     InitArgData.Required := true;
     InitArgData.DefaultValue := None;
     InitArgData.Validate := "";
     InitArgData.Example := "" |}.

(* --------------------------------------------------------------------- *)
(* 14. Readings of the design document and invariants of the loops       *)
(* --------------------------------------------------------------------- *)

(** The seen set a call returns extends the one it received; a call that
    received none returns none. *)
Definition seenGrows (seen seen' : option (gset string)) : Prop :=
  match seen, seen' with
  | Some s, Some s' => s ⊆ s'
  | None, None => True
  | _, _ => False
  end.

(** What a traversal adds to the trace of the recording callback: with a
    shared seen set [s], identifiers that are pairwise distinct, were not in
    [s] and are in the set afterwards. *)
Definition traceOK (seen seen' : option (gset string)) (new : list string) : Prop :=
  match seen with
  | Some s =>
      NoDup new /\ (forall id, id ∈ new -> id ∉ s) /\ seen' = Some (s ∪ list_to_set new)
  | None => seen' = None
  end.

(** What makes a path parameter, a query parameter and a header ask for
    validation. *)
Definition pathParamAsks (p : ParamData.t) : Prop :=
  ParamData.Validate p <> "" \/ needConversion (ParamData.Type_ p) = true.

Definition queryParamAsks (q : ParamData.t) : Prop :=
  ParamData.Validate q <> "" \/ ParamData.Required q = true
  \/ needConversion (ParamData.Type_ q) = true.

Definition headerAsks (h : HeaderData.t) : Prop :=
  HeaderData.Validate h <> "" \/ HeaderData.Required h = true
  \/ needConversion (HeaderData.Type_ h) = true.

(** The attribute [name] of the object attribute [a], without default
    value, with its required flag. *)
Definition fieldWithoutDefault (a : AttributeExpr) (name : string) (required : bool) : Prop :=
  exists nats f,
    Type_ a = Object nats
    /\ objAttribute nats name = Some f
    /\ DefaultValue f = None
    /\ (required = true <-> exists v, Validation a = Some v /\ name ∈ Required v).

(** The optionality policy of the design document over the generated
    definitions of user type bodies, for a reading [pointer def name] of a
    definition: the field [name] is a pointer in [def]. A field without
    default value is a pointer in a decoding context exactly when it is not
    required, and never in an encoding context. *)
Definition optionalityPolicy `{Env} (pointer : string -> string -> Prop) : Prop :=
  forall c svc e id att viewed pkg sd def name required,
    bodyDef c svc e (attrOf (UserType id)) att viewed pkg sd = Some def ->
    fieldWithoutDefault (utAttribute id) name required ->
    if isDecoding c then pointer def name <-> required = false
    else ~ pointer def name.

(** The lines [printError] writes. *)
Definition printed (err : option string) : list string :=
  match err with Some msg => [msg] | None => [] end.

(** The response definitions the loop of buildResultData builds a response
    from, in order: every definition with a tag and the first one without. *)
Fixpoint keptFrom (seenTagless : bool) (vs : list HTTPResponseExpr) : list HTTPResponseExpr :=
  match vs with
  | [] => []
  | v :: r =>
      if tagless v && seenTagless then keptFrom seenTagless r
      else v :: keptFrom (seenTagless || tagless v) r
  end.

(** [r] is the response some run of [build] returned for the definition [v]. *)
Definition BuiltFrom `{Env} (build : HTTPResponseExpr -> M ResponseData.t)
    (v : HTTPResponseExpr) (r : ResponseData.t) : Prop :=
  exists sd sd', build v sd = Some (r, sd').

(** The invariant of the loop on the definitions [srcs] built so far: either
    no definition without a tag was met, all of them were built and [i]
    counts them, or [notag] is the position of the only one without a tag. *)
Definition loopInv (i notag : Z) (srcs : list HTTPResponseExpr) : Prop :=
  (0 <= i)%Z
  /\ ((notag = (-1)%Z /\ Z.of_nat (length srcs) = i
       /\ Forall (fun v => tagless v = false) srcs)
      \/ ((0 <= notag)%Z
          /\ (exists v, srcs !! Z.to_nat notag = Some v /\ tagless v = true)
          /\ forall j w, srcs !! j = Some w -> tagless w = true -> j = Z.to_nat notag)).

(* --------------------------------------------------------------------- *)
(* 15. NeedServerResponse, appendUnique and the schemes of an endpoint   *)
(* --------------------------------------------------------------------- *)

(** NeedServerResponse returns true if server response has a body or a
    header. The method reads the field Result of the endpoint data only,
    which is its argument here, [None] standing for [nil]. *)
Definition NeedServerResponse (result : option ResultData.t) : bool :=
  match result with
  | None => false
  | Some res =>
      (fix loop (rs : list ResponseData.t) : bool :=
         match rs with
         | [] => false
         | r :: rest =>
             if bool_decide (is_Some (ResponseData.ServerBody r)) then true
             else if bool_decide (0 < length (ResponseData.Headers r)) then true
             else loop rest
         end) (ResultData.Responses res)
  end.

Section Schemes.
(** The fields Name and In of [service.SchemeData], declared in another
    package and not part of the record of schemes above. *)
Variable SchemeName : SchemeData -> string.
Variable SchemeIn : SchemeData -> string.

(** The loop of appendUnique: is there a scheme of that name already. *)
Fixpoint schemeFound (s : list SchemeData) (d : SchemeData) : bool :=
  match s with
  | [] => false
  | se :: r => if String.eqb (SchemeName se) (SchemeName d) then true else schemeFound r d
  end.

Definition appendUnique (s : list SchemeData) (d : SchemeData) : list SchemeData :=
  if schemeFound s d then s else (s ++ [d])%list.

(** The schemes of an endpoint by location, as analyze sorts the schemes of
    the requirements of the method: a scheme of type Basic becomes the
    basic scheme, any other one joins the query, header or body schemes
    according to its field In. *)
Record EndpointSchemes : Type := MkEndpointSchemes {
  hsch : list SchemeData;
  bosch : list SchemeData;
  qsch : list SchemeData;
  basch : option SchemeData
}.

Definition addScheme (acc : EndpointSchemes) (s : SchemeData) : EndpointSchemes :=
  if String.eqb (SchemeType s) "Basic"
  then MkEndpointSchemes (hsch acc) (bosch acc) (qsch acc) (Some s)
  else if String.eqb (SchemeIn s) "query"
  then MkEndpointSchemes (hsch acc) (bosch acc) (appendUnique (qsch acc) s) (basch acc)
  else if String.eqb (SchemeIn s) "header"
  then MkEndpointSchemes (appendUnique (hsch acc) s) (bosch acc) (qsch acc) (basch acc)
  else MkEndpointSchemes (hsch acc) (appendUnique (bosch acc) s) (qsch acc) (basch acc).

Definition endpointSchemes (reqs : list RequirementData) : EndpointSchemes :=
  fold_left (fun acc req => fold_left addScheme (Schemes req) acc) reqs
    (MkEndpointSchemes [] [] [] None).

(** The name of the request encoder: set when the request has a client
    body, headers, query parameters or a basic scheme. *)
Definition requestEncoderOf (ep : MethodData) (payload : PayloadData.t)
    (basch : option SchemeData) : string :=
  let request := PayloadData.Request payload in
  if bool_decide (is_Some (RequestData.ClientBody request))
     || bool_decide (0 < length (RequestData.Headers request))
     || bool_decide (0 < length (RequestData.QueryParams request))
     || bool_decide (is_Some basch)
  then "Encode" ++ MVarName ep ++ "Request"
  else "".

End Schemes.

(* --------------------------------------------------------------------- *)
(* 16. The routes of an endpoint and their path constructors             *)
(* --------------------------------------------------------------------- *)

(** A route of an endpoint: its HTTP method and its full paths
    ([r.FullPaths ()]). *)
Record RouteExpr : Type := MkRoute {
  RMethod : string;
  FullPaths : list string
}.

Module RouteData.
Record t : Type := Make {
  Verb : string;
  Path : string;
  PathInit : InitData.t
}.
End RouteData.

(** The name of the path constructor of the route of index [i] of an
    endpoint: the first one has no suffix, the others are numbered from 2
    with [strconv.Itoa (i + 1)]. *)
Definition pathInitName (ep : MethodData) (svc : ServiceInfo) (i : Z) : string :=
  let suffix := if (i >? 0)%Z then formatInt (i + 1) else "" in
  MVarName ep ++ StructName svc ++ "Path" ++ suffix.

Section Routes.
Context `{Env}.
(** [httpdesign.ExtractRouteWildcards], the replacement of the wildcards of
    a path by [/%v] with [httpdesign.WildcardRegex], [strings.ToUpper], and
    the text the template engine writes for a path constructor. *)
Variable ExtractRouteWildcards : string -> list string.
Variable wildcardFormat : string -> string.
Variable ToUpper : string -> string.
Variable renderPathInit : PathPlan -> string.

(** The body of the loop of analyze over the full paths of a route: the
    route data of the path [rpath], [i] being the number of paths seen
    before. A failure of the template is a panic. *)
Definition buildRoute (svc : ServiceInfo) (e : EndpointExpr) (verb : string)
    (i : Z) (rpath : string) : M RouteData.t :=
  let ep := Method e in
  let params := ExtractRouteWildcards rpath in
  let pathParamsObj := AsObject (Type_ (MAttribute (PathParams e))) in
  let name := pathInitName ep svc i in
  initArgs <- pathInitArgs e params ;;
  let pf := wildcardFormat rpath in
  plan <- must (pathInitT initArgs (default [] pathParamsObj) pf) ;;
  let code := renderPathInit plan in
  ret {| RouteData.Verb := ToUpper verb;
         RouteData.Path := rpath;
         RouteData.PathInit :=
           {| InitData.Name := name;
              InitData.Description :=
                name ++ " returns the URL path to the " ++ SName svc ++ " service "
                  ++ MName ep ++ " HTTP endpoint. ";
              InitData.ServerArgs := initArgs;
              InitData.ClientArgs := initArgs;
              InitData.CLIArgs := [];
              InitData.ReturnTypeName := "string";
              InitData.ReturnTypeRef := "string";
              InitData.ReturnTypeAttribute := "";
              InitData.ReturnIsStruct := false;
              InitData.ReturnIsPrimitivePointer := false;
              InitData.ServerCode := code;
              InitData.ClientCode := code |} |}.

(** The inner loop, over the full paths of one route; it returns the
    counter with the routes. *)
Fixpoint buildRoutePaths (svc : ServiceInfo) (e : EndpointExpr) (verb : string)
    (i : Z) (paths : list string) : M (Z * list RouteData.t) :=
  match paths with
  | [] => ret (i, [])
  | rpath :: rest =>
      rd <- buildRoute svc e verb i rpath ;;
      r <- buildRoutePaths svc e verb (i + 1)%Z rest ;;
      ret (r.1, rd :: r.2)
  end.

(** The outer loop, over the routes of the endpoint. *)
Fixpoint buildRoutesFrom (svc : ServiceInfo) (e : EndpointExpr) (i : Z)
    (routes : list RouteExpr) : M (list RouteData.t) :=
  match routes with
  | [] => ret []
  | r :: rest =>
      ps <- buildRoutePaths svc e (RMethod r) i (FullPaths r) ;;
      rs <- buildRoutesFrom svc e ps.1 rest ;;
      ret (ps.2 ++ rs)%list
  end.

Definition buildRoutes (svc : ServiceInfo) (e : EndpointExpr) (routes : list RouteExpr)
  : M (list RouteData.t) :=
  buildRoutesFrom svc e 0 routes.

(** The arguments of the request constructor: the arguments of the path
    constructor of the first route that stand for a field of the payload.
    An endpoint without route makes analyze panic here. *)
Definition requestInitArgs (routes : list RouteData.t) : M (list InitArgData.t) :=
  r0 <- must (head routes) ;;
  ret (filter (fun ca => InitArgData.FieldName ca <> "")
         (InitData.ClientArgs (RouteData.PathInit r0))).

End Routes.

(** The routes of the endpoint list. *)
Definition listRoutes : list RouteExpr :=
  [MkRoute "GET" ["/widgets/{id}"]; MkRoute "GET" ["/tags/{tags}"]].

(** The wildcards of the two paths, and the paths with their wildcards
    replaced by the verb, as analyze computes them from the paths. *)
Definition listWildcards (rpath : string) : list string :=
  if String.eqb rpath "/widgets/{id}" then ["id"]
  else if String.eqb rpath "/tags/{tags}" then ["tags"]
  else [].

Definition listFormat (rpath : string) : string :=
  if String.eqb rpath "/widgets/{id}" then "/widgets/%v"
  else if String.eqb rpath "/tags/{tags}" then "/tags/%v"
  else rpath.

(* --------------------------------------------------------------------- *)
(* 17. buildErrorsData                                                   *)
(* --------------------------------------------------------------------- *)

(** An error of a method ([design.ErrorExpr]) and its HTTP mapping
    ([httpdesign.ErrorExpr]): the name of the mapping, the error and the
    response. *)
Record ErrorExpr : Type := MkError {
  ErrName : string;
  ErrAttribute : AttributeExpr
}.

Record HTTPErrorExpr : Type := MkHTTPError {
  HEName : string;
  HEError : ErrorExpr;
  HEResponse : HTTPResponseExpr
}.

Module ErrorData.
Record t : Type := Make {
  Name : string;
  Ref : string;
  Response : ResponseData.t
}.
End ErrorData.

Module ErrorGroupData.
Record t : Type := Make {
  StatusCode : string;
  Errors : list ErrorData.t
}.
End ErrorGroupData.

(** [sort.Strings]: insertion sort by the lexicographic order of bytes. *)
Fixpoint insertString (k : string) (l : list string) : list string :=
  match l with
  | [] => [k]
  | x :: r => if String.leb k x then k :: x :: r else x :: insertString k r
  end.

Fixpoint sortStrings (l : list string) : list string :=
  match l with
  | [] => []
  | x :: r => insertString x (sortStrings r)
  end.

(** The loop that looks for the group of the status code of [e] and appends
    [e] to it: [None] when there is no such group. *)
Fixpoint addToGroup (vals : list ErrorGroupData.t) (e : ErrorData.t)
  : option (list ErrorGroupData.t) :=
  match vals with
  | [] => None
  | eg :: r =>
      if String.eqb (ErrorGroupData.StatusCode eg)
           (ResponseData.StatusCode (ErrorData.Response e))
      then Some (ErrorGroupData.Make (ErrorGroupData.StatusCode eg)
                   (ErrorGroupData.Errors eg ++ [e]) :: r)
      else cons eg <$> addToGroup r e
  end.

Definition groupError (vals : list ErrorGroupData.t) (e : ErrorData.t)
  : list ErrorGroupData.t :=
  match addToGroup vals e with
  | Some vals' => vals'
  | None =>
      (vals ++ [ErrorGroupData.Make (ResponseData.StatusCode (ErrorData.Response e)) [e]])%list
  end.

(** The errors by type reference, grouped by status code in the order of
    the sorted references. *)
Definition groupErrors (data : gmap string (list ErrorData.t)) : list ErrorGroupData.t :=
  let keys := sortStrings (map fst (map_to_list data)) in
  fold_left (fun vals k => fold_left groupError (default [] (data !! k)) vals) keys [].

(** [data[ref] = append (data[ref], d)]. *)
Definition appendError (data : gmap string (list ErrorData.t)) (ref : string)
    (d : ErrorData.t) : gmap string (list ErrorData.t) :=
  <[ref := (default [] (data !! ref) ++ [d])%list]> data.

Section Errors.
Context `{Env}.

(** The transformation the constructor of an error needs, if any, as for
    the payload: from the response body to the error type or to its origin
    attribute, or from the first query parameter to an array or map error
    type. [None] is a panic. *)
Definition errorTransform (e : EndpointExpr) (v : HTTPErrorExpr)
  : option (option (DataType * DataType * string * string)) :=
  let body := Type_ (RBody (HEResponse v)) in
  let herr := Type_ (ErrAttribute (HEError v)) in
  if negb (isEmpty body) then
    os ← originSource (RBody (HEResponse v)) herr;
    Some (Some (body, os.1, "body", default "" os.2))
  else if IsArray herr || IsMap herr then
    params ← AsObject (Type_ (MAttribute (QueryParams e)));
    match params with
    | p0 :: _ => Some (Some (Type_ (Attribute p0), herr, Goify (Name p0) false, ""))
    | [] => Some None
    end
  else Some None.

(** The constructor of an error, built when the error type is or makes use
    of user types. *)
Definition buildErrorInit (svc : ServiceInfo) (e : EndpointExpr) (v : HTTPErrorExpr)
  : M (option InitData.t) :=
  let body := Type_ (RBody (HEResponse v)) in
  let eatt := ErrAttribute (HEError v) in
  if needInit (Type_ eatt) then
    let ep := Method e in
    let name := "New" ++ Goify (MName ep) true ++ Goify (ErrName (HEError v)) true in
    let desc :=
      name ++ " builds a " ++ SName svc ++ " service " ++ MethodName e ++ " endpoint "
        ++ ErrName (HEError v) ++ " error." in
    sd <- get ;;
    let isObject := if isEmpty body then false else IsObject body in
    let bodyArgs :=
      if isEmpty body then []
      else [ {| InitArgData.Name := "body";
                InitArgData.Description := "";
                InitArgData.Ref := if IsObject body then "&body" else "body";
                InitArgData.FieldName := "";
                InitArgData.TypeName := "";
                InitArgData.TypeRef := GoTypeRef (Scope sd) (attrOf body);
                InitArgData.Pointer := false;
                InitArgData.Required := false;
                InitArgData.DefaultValue := None;
                InitArgData.Validate := "";
                InitArgData.Example := "" |} ] in
    headers <- extractHeaders (RHeaders (HEResponse v)) eatt false ;;
    let args :=
      (bodyArgs ++
       map (fun h =>
              {| InitArgData.Name := HeaderData.VarName h;
                 InitArgData.Description := "";
                 InitArgData.Ref := HeaderData.VarName h;
                 InitArgData.FieldName := HeaderData.FieldName h;
                 InitArgData.TypeName := "";
                 InitArgData.TypeRef := HeaderData.TypeRef h;
                 InitArgData.Pointer := false;
                 InitArgData.Required := false;
                 InitArgData.DefaultValue := None;
                 InitArgData.Validate := HeaderData.Validate h;
                 InitArgData.Example := HeaderData.Example h |}) headers)%list in
    sd <- get ;;
    let scope := Scope sd in
    t <- must (errorTransform e v) ;;
    co <- match t with
          | Some (source, target, sourceVar, origin) =>
              let '(code, helpers, err) :=
                GoTypeTransform source target sourceVar "v" "" (PkgName svc) true scope in
              run keepHelpers false helpers err ;;
              run printError err ;;
              ret (code, origin)
          | None => ret ("", "")
          end ;;
    sd <- get ;;
    let scope := Scope sd in
    ret (Some {| InitData.Name := name;
                 InitData.Description := desc;
                 InitData.ServerArgs := [];
                 InitData.ClientArgs := args;
                 InitData.CLIArgs := [];
                 InitData.ReturnTypeName := GoFullTypeName scope eatt (PkgName svc);
                 InitData.ReturnTypeRef := GoFullTypeRef scope eatt (PkgName svc);
                 InitData.ReturnIsStruct := isObject;
                 InitData.ReturnTypeAttribute := Goify co.2 true;
                 InitData.ReturnIsPrimitivePointer := false;
                 InitData.ServerCode := "";
                 InitData.ClientCode := co.1 |})
  else ret None.

Definition withDescription (td : TypeData.t) (desc : string) : TypeData.t :=
  TypeData.Make (TypeData.Name td) (TypeData.VarName td) desc (TypeData.Init td)
    (TypeData.Def td) (TypeData.Ref td) (TypeData.ValidateDef td) (TypeData.ValidateRef td)
    (TypeData.Example td).

(** The description of the body types of an error response. *)
Definition errorBodyDescription (svc : ServiceInfo) (e : EndpointExpr) (v : HTTPErrorExpr)
    (td : TypeData.t) : string :=
  TypeData.VarName td ++ " is the type of the " ++ Quote (SName svc) ++ " service "
    ++ Quote (MethodName e) ++ " endpoint HTTP response body for the " ++ Quote (HEName v)
    ++ " error.".

(** The response data of an error. When the client body type is not nil the
    description of both body types is set: a nil server body type there is
    a panic. *)
Definition buildErrorResponse (svc : ServiceInfo) (e : EndpointExpr) (v : HTTPErrorExpr)
    (init : option InitData.t) : M ResponseData.t :=
  let att := ErrAttribute (HEError v) in
  serverBodyData <- buildBodyType svc e (RBody (HEResponse v)) att false true false (PkgName svc) ;;
  clientBodyData <- buildBodyType svc e (RBody (HEResponse v)) att false false false (PkgName svc) ;;
  bodies <-
    match clientBodyData with
    | Some c =>
        sd <- get ;;
        run setTypeNames ({[TypeData.Name c]} ∪ ServerTypeNames sd)
                         ({[TypeData.Name c]} ∪ ClientTypeNames sd) ;;
        s <- must serverBodyData ;;
        ret (Some (withDescription s (errorBodyDescription svc e v s)),
             Some (withDescription c (errorBodyDescription svc e v c)))
    | None => ret (serverBodyData, None)
    end ;;
  headers <- extractHeaders (RHeaders (HEResponse v)) att false ;;
  ret {| ResponseData.StatusCode := statusCodeToHTTPConst (RStatusCode (HEResponse v));
         ResponseData.Description := "";
         ResponseData.Headers := headers;
         ResponseData.ErrorHeader := HEName v;
         ResponseData.ServerBody := bodies.1;
         ResponseData.ClientBody := bodies.2;
         ResponseData.ResultInit := init;
         ResponseData.TagName := "";
         ResponseData.TagValue := "";
         ResponseData.TagRequired := false;
         ResponseData.MustValidate := false;
         ResponseData.ResultAttr := "";
         ResponseData.ViewedResult := false |}.

(** The body of the loop of buildErrorsData over the errors of the
    endpoint: the error data and the type reference it is filed under. *)
Definition buildErrorData (svc : ServiceInfo) (e : EndpointExpr) (v : HTTPErrorExpr)
  : M ErrorData.t :=
  init <- buildErrorInit svc e v ;;
  responseData <- buildErrorResponse svc e v init ;;
  sd <- get ;;
  let ref := GoFullTypeRef (Scope sd) (ErrAttribute (HEError v)) (PkgName svc) in
  ret (ErrorData.Make (HEName v) ref responseData).

(** buildErrorsData on the errors [errs] of the endpoint. *)
Definition buildErrorsData (svc : ServiceInfo) (e : EndpointExpr) (errs : list HTTPErrorExpr)
  : M (list ErrorGroupData.t) :=
  ds <- mapM (buildErrorData svc e) errs ;;
  let data := fold_left (fun data d => appendError data (ErrorData.Ref d) d) ds ∅ in
  ret (groupErrors data).

End Errors.

(* --------------------------------------------------------------------- *)
(* 18. The user types of the bodies                                      *)
(* --------------------------------------------------------------------- *)

Section BodyAttributeTypes.
Context `{Env}.

Definition appendServerBodyAttributeType (d : TypeData.t) (sd : ServiceData) : ServiceData :=
  MkServiceData (Scope sd) (ServerTypeNames sd) (ClientTypeNames sd)
    (ServerBodyAttributeTypes sd ++ [d]) (ClientBodyAttributeTypes sd)
    (ServerTransformHelpers sd) (ClientTransformHelpers sd) (Stdout sd).

Definition appendClientBodyAttributeType (d : TypeData.t) (sd : ServiceData) : ServiceData :=
  MkServiceData (Scope sd) (ServerTypeNames sd) (ClientTypeNames sd)
    (ServerBodyAttributeTypes sd) (ClientBodyAttributeTypes sd ++ [d])
    (ServerTransformHelpers sd) (ClientTransformHelpers sd) (Stdout sd).

(** The callbacks analyze hands to collectUserTypes: the type data of the
    user type for the server, then for the client, each appended unless
    nil. For a request body the client type is generated without pointers,
    for a response or error body with pointers. *)
Definition bodyTypeCallback (req : bool) (id : string) (sd : ServiceData) : ServiceData :=
  let sd :=
    match attributeTypeData id req true true sd with
    | Some (Some d, sd') => appendServerBodyAttributeType d sd'
    | Some (None, sd') => sd'
    | None => sd
    end in
  match attributeTypeData id req (negb req) false sd with
  | Some (Some d, sd') => appendClientBodyAttributeType d sd'
  | Some (None, sd') => sd'
  | None => sd
  end.

(** One call of analyze to collectUserTypes, without seen map, with the
    fuel that suffices for the type. *)
Definition collectBody (req : bool) (dt : DataType) (sd : ServiceData) : option ServiceData :=
  snd <$> collectUserTypes (collectFuel Types dt) Types dt (bodyTypeCallback req) None sd.

Fixpoint collectBodies (req : bool) (dts : list DataType) (sd : ServiceData)
  : option ServiceData :=
  match dts with
  | [] => Some sd
  | dt :: r => sd' ← collectBody req dt sd; collectBodies req r sd'
  end.

(** The last loop of analyze on one endpoint: the user types of the request
    body, of the response bodies and of the bodies of the error
    responses. The responses are skipped for a nil result of the method,
    which cannot be met here: buildResultData read the metadata of the
    result of every endpoint before this loop starts. *)
Definition collectEndpointBodies (ea : EndpointExpr * list HTTPErrorExpr) (sd : ServiceData)
  : option ServiceData :=
  let '(a, errs) := ea in
  sd ← collectBody true (Type_ (Body a)) sd;
  sd ← collectBodies false (map (fun v => Type_ (RBody v)) (Responses a)) sd;
  collectBodies false (map (fun v => Type_ (RBody (HEResponse v))) errs) sd.

Fixpoint collectAllBodies (eps : list (EndpointExpr * list HTTPErrorExpr)) (sd : ServiceData)
  : option ServiceData :=
  match eps with
  | [] => Some sd
  | ea :: r => sd' ← collectEndpointBodies ea sd; collectAllBodies r sd'
  end.

End BodyAttributeTypes.

(** The body attribute types [new] were appended to [old] on a side whose
    seen names went from [seen] to [seen']: their names are pairwise
    distinct, were not seen before and are the names added. *)
Definition appendedTypes (old old' : list TypeData.t) (seen seen' : gset string) : Prop :=
  exists new,
    old' = (old ++ new)%list
    /\ NoDup (TypeData.Name <$> new)
    /\ (forall n, n ∈ (TypeData.Name <$> new) -> n ∉ seen)
    /\ seen' = seen ∪ list_to_set (TypeData.Name <$> new).

(** What the last loop of analyze changes in the service data. *)
Definition bodyTypesExtended `{Env} (sd sd' : ServiceData) : Prop :=
  appendedTypes (ServerBodyAttributeTypes sd) (ServerBodyAttributeTypes sd')
    (ServerTypeNames sd) (ServerTypeNames sd')
  /\ appendedTypes (ClientBodyAttributeTypes sd) (ClientBodyAttributeTypes sd')
       (ClientTypeNames sd) (ClientTypeNames sd')
  /\ Scope sd' = Scope sd
  /\ ServerTransformHelpers sd' = ServerTransformHelpers sd
  /\ ClientTransformHelpers sd' = ClientTransformHelpers sd
  /\ Stdout sd' = Stdout sd.

(* --------------------------------------------------------------------- *)
(* 19. The DSL of methods and payloads (package dsl)                     *)
(* --------------------------------------------------------------------- *)

(** A DSL function run by [eval.Execute (fn, att)]: from the attribute it is
    executed on to the attribute it leaves and the errors it reports. *)
Definition DSLFunc : Type := AttributeExpr -> AttributeExpr * list string.

(** An argument of type [interface{}] of the DSL: a function, a data type
    (user types and Empty included), a string, or anything else. *)
Inductive DSLValue : Type :=
| DFunc (fn : DSLFunc)
| DType (dt : DataType)
| DString (s : string)
| DOther.

(** [design.MethodExpr] and [design.ServiceExpr] as the DSL fills them; the
    function of a method is kept as the value given. The pointer of a
    method to its service is left out. *)
Record MethodExpr (Fn : Type) : Type := MkMethodExpr {
  MEName : string;
  MEPayload : option AttributeExpr;
  MEDSLFunc : Fn
}.
Arguments MkMethodExpr {Fn}.
Arguments MEName {Fn}.
Arguments MEPayload {Fn}.
Arguments MEDSLFunc {Fn}.

Record ServiceExpr (Fn : Type) : Type := MkServiceExpr {
  SEName : string;
  Methods : list (MethodExpr Fn)
}.
Arguments MkServiceExpr {Fn}.
Arguments SEName {Fn}.
Arguments Methods {Fn}.

(** The expression being evaluated ([eval.Current ()]). *)
Inductive Expression (Fn : Type) : Type :=
| ExprMethod (m : MethodExpr Fn)
| ExprService (s : ServiceExpr Fn)
| ExprOther.
Arguments ExprMethod {Fn}.
Arguments ExprService {Fn}.
Arguments ExprOther {Fn}.

(** The state of the evaluation: the current expression and the errors
    reported so far. *)
Record EvalState (Fn : Type) : Type := MkEvalState {
  Current : Expression Fn;
  Errors : list string
}.
Arguments MkEvalState {Fn}.
Arguments Current {Fn}.
Arguments Errors {Fn}.

Definition setType (a : AttributeExpr) (t : DataType) : AttributeExpr :=
  MkAttribute t (Description a) (Validation a) (DefaultValue a) (Metadata a).

Definition setDescription (a : AttributeExpr) (d : string) : AttributeExpr :=
  MkAttribute (Type_ a) d (Validation a) (DefaultValue a) (Metadata a).

(** The case [design.UserType] of a type switch: user types, Empty among
    them. *)
Definition isUserType (dt : DataType) : bool :=
  match dt with Empty | UserType _ => true | _ => false end.

Definition isEmptyObject (dt : DataType) : bool :=
  match dt with Object [] => true | _ => false end.

Section DSL.
(** [design.Dup] and the error [eval.IncompatibleDSL] reports. *)
Variable Dup : DataType -> DataType.
Variable incompatibleDSL : string.
Variable Fn : Type.

(** The part of methodDSL past the type switch: the function and the
    description taken from the arguments, the function executed, and an
    object left without attribute replaced by Empty. *)
Definition methodDSLArgs (suffix : string) (fn : option DSLFunc) (att : AttributeExpr)
    (args : list DSLValue) : option AttributeExpr * list string :=
  let '(fn, errs) :=
    match last args with
    | Some (DFunc f) =>
        (Some f,
         match fn with
         | Some _ =>
             ["invalid arguments in " ++ suffix
              ++ " call, must be (type), (func), (type, func), (type, desc) or (type, desc, func)"]
         | None => []
         end)
    | _ => (fn, [])
    end in
  let att :=
    match head args with
    | Some (DString d) => setDescription att d
    | _ => att
    end in
  match fn with
  | Some f =>
      let '(att, ferrs) := f att in
      let att := if isEmptyObject (Type_ att) then setType att Empty else att in
      (Some att, (errs ++ ferrs)%list)
  | None => (Some att, errs)
  end.

(** methodDSL: the attribute of a payload or result, [None] for nil, and the
    errors reported. *)
Definition methodDSL (suffix : string) (p : DSLValue) (args : list DSLValue)
  : option AttributeExpr * list string :=
  match p with
  | DFunc fn => methodDSLArgs suffix (Some fn) (attrOf (Object [])) args
  | DType dt =>
      if isUserType dt then
        match args with
        | [] =>
            (* Do not duplicate type if it is not customized *)
            (Some (attrOf dt), [])
        | _ => methodDSLArgs suffix None (attrOf (Dup dt)) args
        end
      else methodDSLArgs suffix None (attrOf dt) args
  | _ =>
      (None, ["invalid " ++ suffix ++ " argument, must be a type or a function"])
  end.

(** Payload defines the data type of a method input. *)
Definition Payload_ (val : DSLValue) (args : list DSLValue) (st : EvalState Fn) : EvalState Fn :=
  let errs := if bool_decide (2 < length args) then ["too many arguments"] else [] in
  match Current st with
  | ExprMethod e =>
      let '(att, merrs) := methodDSL "Payload" val args in
      MkEvalState (ExprMethod (MkMethodExpr (MEName e) att (MEDSLFunc e)))
        (Errors st ++ errs ++ merrs)
  | _ => MkEvalState (Current st) (Errors st ++ errs ++ [incompatibleDSL])
  end.

(** Method defines a single service method. *)
Definition Method_ (name : string) (fn : Fn) (st : EvalState Fn) : EvalState Fn :=
  match Current st with
  | ExprService s =>
      MkEvalState
        (ExprService (MkServiceExpr (SEName s) (Methods s ++ [MkMethodExpr name None fn])))
        (Errors st)
  | _ => MkEvalState (Current st) (Errors st ++ [incompatibleDSL])
  end.

End DSL.

(* --------------------------------------------------------------------- *)
(* 20. Invariants of the routes, the errors and the body types           *)
(* --------------------------------------------------------------------- *)

(** [r] is the route data of the path [rpath] of a route of method [verb],
    [i] paths having been seen before: its verb and path, the name of its
    path constructor, and the arguments of the constructor, one for each
    wildcard of the path, all required, the same for server and client. *)
Definition RouteOf `{Env} (ExtractRouteWildcards : string -> list string)
    (ToUpper : string -> string) (svc : ServiceInfo) (e : EndpointExpr)
    (i : Z) (verb rpath : string) (r : RouteData.t) : Prop :=
  let init := RouteData.PathInit r in
  RouteData.Verb r = ToUpper verb
  /\ RouteData.Path r = rpath
  /\ InitData.Name init = pathInitName (Method e) svc i
  /\ InitData.ServerArgs init = InitData.ClientArgs init
  /\ InitArgData.FieldName <$> InitData.ClientArgs init
     = (fun arg => Goify arg true) <$> ExtractRouteWildcards rpath
  /\ Forall (fun a => InitArgData.Required a = true) (InitData.ClientArgs init)
  /\ InitData.ReturnTypeRef init = "string".

(** The paths of the routes of an endpoint with the method of their
    route, in the order analyze goes through them. *)
Definition routePaths (routes : list RouteExpr) : list (string * string) :=
  concat (map (fun r => map (fun rpath => (RMethod r, rpath)) (FullPaths r)) routes).


(** The status code an error is grouped by, and what every group of
    errors satisfies: it holds an error, and its errors have its status
    code. *)
Definition errorCode (d : ErrorData.t) : string :=
  ResponseData.StatusCode (ErrorData.Response d).

Definition groupOK (g : ErrorGroupData.t) : Prop :=
  ErrorGroupData.Errors g <> []
  /\ Forall (fun d => errorCode d = ErrorGroupData.StatusCode g) (ErrorGroupData.Errors g).

(** The errors of the groups, group by group. *)
Definition groupedErrors (vals : list ErrorGroupData.t) : list ErrorData.t :=
  concat (ErrorGroupData.Errors <$> vals).



(* --------------------------------------------------------------------- *)
(* 21. analyze: the endpoints of a service                               *)
(* --------------------------------------------------------------------- *)

(** An HTTP endpoint of the design with its routes and its errors. *)
Record HTTPEndpointExpr : Type := MkHTTPEndpoint {
  HEndpoint : EndpointExpr;
  HRoutes : list RouteExpr;
  HErrors : list HTTPErrorExpr
}.

(** The data of an endpoint, as far as analyze computes it from the
    design: the fields that only format the name of the method, the
    multipart data and the stream data are left out. *)
Module EndpointData.
Record t : Type := Make {
  Method : MethodData;
  Payload : PayloadData.t;
  Result : ResultData.t;
  Errors : list ErrorGroupData.t;
  HeaderSchemes : list SchemeData;
  BodySchemes : list SchemeData;
  QuerySchemes : list SchemeData;
  BasicScheme : option SchemeData;
  Routes : list RouteData.t;
  RequestInitArgs : list InitArgData.t;
  RequestEncoder : string
}.
End EndpointData.

Section Analyze.
Context `{Env}.
Variable SchemeName : SchemeData -> string.
Variable SchemeIn : SchemeData -> string.
Variable ExtractRouteWildcards : string -> list string.
Variable wildcardFormat : string -> string.
Variable ToUpper : string -> string.
Variable renderPathInit : PathPlan -> string.

(** The body of the first loop of analyze over the endpoints: the routes,
    the payload, the schemes, the request encoder and constructor, then the
    result and the errors, in the order of the source. *)
Definition analyzeEndpoint (svc : ServiceInfo) (a : HTTPEndpointExpr) : M EndpointData.t :=
  let e := HEndpoint a in
  let ep := Method e in
  routes <- buildRoutes ExtractRouteWildcards wildcardFormat ToUpper renderPathInit
              svc e (HRoutes a) ;;
  payload <- buildPayloadData svc e ;;
  let schemes := endpointSchemes SchemeName SchemeIn (Requirements ep) in
  let requestEncoder := requestEncoderOf ep payload (basch schemes) in
  args <- requestInitArgs routes ;;
  result <- buildResultData svc e ;;
  errors <- buildErrorsData svc e (HErrors a) ;;
  ret {| EndpointData.Method := ep;
         EndpointData.Payload := payload;
         EndpointData.Result := result;
         EndpointData.Errors := errors;
         EndpointData.HeaderSchemes := hsch schemes;
         EndpointData.BodySchemes := bosch schemes;
         EndpointData.QuerySchemes := qsch schemes;
         EndpointData.BasicScheme := basch schemes;
         EndpointData.Routes := routes;
         EndpointData.RequestInitArgs := args;
         EndpointData.RequestEncoder := requestEncoder |}.

(** analyze on the endpoints of a service: the data of each endpoint, then
    the user types of all bodies. The websocket scheme and the file
    servers, computed before the endpoints without reading or writing the
    service data, are left out. *)
Definition analyze (svc : ServiceInfo) (eps : list HTTPEndpointExpr)
  : M (list EndpointData.t) :=
  ads <- mapM (analyzeEndpoint svc) eps ;;
  sd <- get ;;
  sd' <- must (collectAllBodies (map (fun a => (HEndpoint a, HErrors a)) eps) sd) ;;
  run put sd' ;;
  ret ads.

End Analyze.

(** Endpoint returns the service method transport data for the endpoint
    with the given name, nil if there isn't one. *)
Fixpoint Endpoint (endpoints : list EndpointData.t) (name : string) : option EndpointData.t :=
  match endpoints with
  | [] => None
  | e :: r => if String.eqb (MName (EndpointData.Method e)) name then Some e else Endpoint r name
  end.

Section ServicesData.
(** The HTTP services of the design with [httpdesign.Root.Service], and
    analyze as a function of the service, [None] when it panics. *)
Variable HTTPService : Type.
Variable Data : Type.
Variable rootService : string -> option HTTPService.
Variable analyzeService : HTTPService -> option Data.

(** Get retrieves the transport data for the service with the given name
    computing it if needed. It returns nil if there is no service with the
    given name. The map is returned with the result; [None] is a panic. *)
Definition Get (d : gmap string Data) (name : string)
  : option (option Data * gmap string Data) :=
  match d !! name with
  | Some data => Some (Some data, d)
  | None =>
      match rootService name with
      | None => Some (None, d)
      | Some service =>
          data ← analyzeService service;
          let d := <[name := data]> d in
          Some (d !! name, d)
      end
  end.

End ServicesData.

(** The body types of a response and of an endpoint. *)
Definition responseBodyTypes (r : ResponseData.t) : list TypeData.t :=
  (option_list (ResponseData.ServerBody r) ++ option_list (ResponseData.ClientBody r))%list.

Definition endpointBodyTypes (ad : EndpointData.t) : list TypeData.t :=
  let rq := PayloadData.Request (EndpointData.Payload ad) in
  (option_list (RequestData.ServerBody rq) ++ option_list (RequestData.ClientBody rq)
   ++ concat (responseBodyTypes <$> ResultData.Responses (EndpointData.Result ad))
   ++ concat ((responseBodyTypes ∘ ErrorData.Response)
                <$> groupedErrors (EndpointData.Errors ad)))%list.

(** What the builders do to the service data: the type names seen only
    grow and the body attribute types are left alone. *)
Definition builderStep `{Env} (sd sd' : ServiceData) : Prop :=
  ServerTypeNames sd ⊆ ServerTypeNames sd'
  /\ ClientTypeNames sd ⊆ ClientTypeNames sd'
  /\ ServerBodyAttributeTypes sd' = ServerBodyAttributeTypes sd
  /\ ClientBodyAttributeTypes sd' = ClientBodyAttributeTypes sd.

Definition Frames `{Env} {A : Type} (m : M A) : Prop :=
  forall sd a sd', m sd = Some (a, sd') -> builderStep sd sd'.

(** The name of a type is among the type names seen on both sides. *)
Definition registered `{Env} (sd : ServiceData) (td : TypeData.t) : Prop :=
  TypeData.Name td ∈ ServerTypeNames sd /\ TypeData.Name td ∈ ClientTypeNames sd.

(** A computation that returns values whose body types, read off by
    [bodies], are registered when it returns. *)
Definition Registers `{Env} {A : Type} (bodies : A -> list TypeData.t) (m : M A) : Prop :=
  forall sd a sd', m sd = Some (a, sd') -> Forall (registered sd') (bodies a).

(* ===================================================================== *)
(* Properties                                                            *)
(* ===================================================================== *)

(* --------------------------------------------------------------------- *)
(* Type trees                                                            *)
(* --------------------------------------------------------------------- *)

Lemma isEmpty_true dt : isEmpty dt = true <-> dt = Empty.
Proof. destruct dt; simpl; split; congruence. Qed.

Lemma isEmpty_false dt : isEmpty dt = false <-> dt <> Empty.
Proof. destruct dt; simpl; split; congruence. Qed.

Lemma height_Object nats : height (Object nats) = S (fieldsHeight nats).
Proof. reflexivity. Qed.

Lemma fieldsHeight_cons n r :
  fieldsHeight (n :: r) = Nat.max (height (Type_ (Attribute n))) (fieldsHeight r).
Proof. reflexivity. Qed.

Lemma fieldsHeight_elem n nats :
  n ∈ nats -> height (Type_ (Attribute n)) <= fieldsHeight nats.
Proof.
  induction 1 as [n r|n m r _ IH]; rewrite fieldsHeight_cons; lia.
Qed.

(** Induction over type trees that reaches the fields of objects. *)
Lemma DataType_tree_ind (P : DataType -> Prop) :
  P Empty ->
  (forall k, P (Primitive k)) ->
  (forall e, P (Type_ e) -> P (Array e)) ->
  (forall k e, P (Type_ k) -> P (Type_ e) -> P (Map k e)) ->
  (forall nats, Forall (fun n => P (Type_ (Attribute n))) nats -> P (Object nats)) ->
  (forall id, P (UserType id)) ->
  forall dt, P dt.
Proof.
  intros HE HP HA HM HO HU dt.
  assert (Hall : forall n dt, height dt < n -> P dt).
  { clear dt. induction n as [|n IH]; intros dt Hlt; [lia|].
    destruct dt as [|k|e|k e|nats|id]; auto.
    - apply HA, IH. simpl in Hlt. lia.
    - apply HM; apply IH; simpl in Hlt; lia.
    - apply HO. rewrite height_Object in Hlt.
      apply Forall_forall. intros x Hx. apply IH.
      pose proof (fieldsHeight_elem x nats Hx). lia. }
  apply (Hall (S (height dt))). lia.
Qed.

(* --------------------------------------------------------------------- *)
(* needInit                                                              *)
(* --------------------------------------------------------------------- *)

Lemma needInit_Object nats :
  needInit (Object nats) = existsb (fun n => needInit (Type_ (Attribute n))) nats.
Proof.
  simpl. induction nats as [|n r IH]; [reflexivity|].
  simpl. rewrite IH. destruct (needInit (Type_ (Attribute n))); reflexivity.
Qed.

Lemma needInit_uses dt : needInit dt = true <-> UsesUserType dt.
Proof.
  induction dt as [|k|e IH|k e IHk IHe|nats IH|id] using DataType_tree_ind.
  - split; [discriminate | inversion 1].
  - split; [discriminate | inversion 1].
  - simpl. rewrite IH. split; [apply uses_array | inversion 1; assumption].
  - simpl. rewrite orb_true_iff, IHk, IHe. split.
    + intros [Hk|He]; [apply uses_map_key | apply uses_map_elem]; assumption.
    + inversion 1; auto.
  - rewrite needInit_Object, existsb_exists. split.
    + intros [n [Hin Hn]]. apply list_elem_of_In in Hin.
      rewrite Forall_forall in IH. apply (uses_object nats n Hin), IH; assumption.
    + inversion 1 as [| | | |nats' n Hin Hn]; subst.
      exists n. split; [apply list_elem_of_In; assumption|].
      rewrite Forall_forall in IH. apply IH; assumption.
  - split; [intros _; apply uses_user | reflexivity].
Qed.

(** C3. needInit returns true exactly when the type is not Empty and a user
    type occurs in its tree: false for Empty and for every primitive, the
    answer of the element for an array, of the key or the element for a
    map, of some field for an object, and true for every user type. *)
Theorem needInit_iff_user_type :
  forall dt : DataType,
    (needInit dt = true <-> dt <> Empty /\ UsesUserType dt)
    /\ needInit Empty = false
    /\ (forall k, needInit (Primitive k) = false)
    /\ (forall e, needInit (Array e) = needInit (Type_ e))
    /\ (forall k e, needInit (Map k e) = needInit (Type_ k) || needInit (Type_ e))
    /\ (forall nats,
          needInit (Object nats) = existsb (fun n => needInit (Type_ (Attribute n))) nats)
    /\ (forall id, needInit (UserType id) = true).
Proof.
  intros dt. split.
  { split.
    - intros Hn. split; [intros He; subst dt; discriminate|].
      apply needInit_uses. assumption.
    - intros [_ Hu]. apply needInit_uses. assumption. }
  split; [reflexivity|].
  split; [intros; reflexivity|].
  split; [intros; reflexivity|].
  split; [intros; reflexivity|].
  split; [apply needInit_Object | intros; reflexivity].
Qed.

(* --------------------------------------------------------------------- *)
(* needConversion                                                        *)
(* --------------------------------------------------------------------- *)

Lemma needConversion_false dt : needConversion dt = false <-> StringLike dt.
Proof.
  induction dt as [|k|e IH|k e IHk IHe|nats IH|id] using DataType_tree_ind.
  - split; [intros _; constructor | reflexivity].
  - destruct k; simpl; split; try discriminate; try (inversion 1; fail);
      try reflexivity; intros _; constructor.
  - simpl. rewrite IH. split; [apply sl_array | inversion 1; assumption].
  - simpl. rewrite orb_false_iff, IHk, IHe. split.
    + intros [Hk He]. apply sl_map; assumption.
    + inversion 1; auto.
  - split; [discriminate | inversion 1].
  - split; [discriminate | inversion 1].
Qed.

(** C4. needConversion returns false exactly for Empty, for the string,
    bytes and any primitives, for arrays whose element needs no conversion
    and for maps whose key and element need none; it returns true for every
    other primitive, for objects and for user types. *)
Theorem needConversion_false_iff_string_like :
  forall dt : DataType,
    (needConversion dt = false <-> StringLike dt)
    /\ (needConversion dt = true <-> ~ StringLike dt)
    /\ (forall k, needConversion (Primitive k) = false
                  <-> k = StringKind \/ k = BytesKind \/ k = AnyKind)
    /\ (forall nats, needConversion (Object nats) = true)
    /\ (forall id, needConversion (UserType id) = true).
Proof.
  intros dt. split; [apply needConversion_false|].
  split; [|split; [|split; reflexivity]].
  - rewrite <- needConversion_false. destruct (needConversion dt); split; congruence.
  - intros k. destruct k; simpl; split; try discriminate; try reflexivity; auto;
      intros [Hk|[Hk|Hk]]; discriminate.
Qed.

(* --------------------------------------------------------------------- *)
(* collectUserTypes                                                      *)
(* --------------------------------------------------------------------- *)

Lemma sum_list_fmap_le {A : Type} (f g : A -> nat) (l : list A) :
  (forall x, x ∈ l -> g x <= f x) -> sum_list (g <$> l) <= sum_list (f <$> l).
Proof.
  induction l as [|y l IH]; intros Hle; csimpl; [lia|].
  pose proof (Hle y ltac:(left)) as Hy.
  assert (Hl : sum_list (g <$> l) <= sum_list (f <$> l)).
  { apply IH. intros x Hx. apply Hle. right. assumption. }
  lia.
Qed.

Lemma sum_list_fmap_gap {A : Type} (f g : A -> nat) (l : list A) (x : A) (k : nat) :
  x ∈ l -> g x + k <= f x -> (forall y, y ∈ l -> g y <= f y) ->
  sum_list (g <$> l) + k <= sum_list (f <$> l).
Proof.
  intros Hx Hk Hle. induction l as [|y l IH]; [inversion Hx|].
  csimpl. apply elem_of_cons in Hx as [->|Hx].
  - assert (Hl : sum_list (g <$> l) <= sum_list (f <$> l)).
    { apply sum_list_fmap_le. intros z Hz. apply Hle. right. assumption. }
    lia.
  - pose proof (Hle y ltac:(left)) as Hy.
    assert (Hl : sum_list (g <$> l) + k <= sum_list (f <$> l)).
    { apply IH; [assumption|]. intros z Hz. apply Hle. right. assumption. }
    lia.
Qed.

Lemma pending_mono (reg : gmap string AttributeExpr) (s s' : gset string) :
  s ⊆ s' -> pending reg s' <= pending reg s.
Proof.
  intros Hsub. unfold pending. apply sum_list_fmap_le.
  intros [id a] _. simpl. repeat case_decide; try lia. set_solver.
Qed.

Lemma pending_insert (reg : gmap string AttributeExpr) (s : gset string) id a :
  reg !! id = Some a -> id ∉ s ->
  pending reg ({[id]} ∪ s) + S (height (Type_ a)) <= pending reg s.
Proof.
  intros Hreg Hid. unfold pending.
  apply (sum_list_fmap_gap _ _ _ (id, a)).
  - apply elem_of_map_to_list. assumption.
  - simpl. repeat case_decide; try lia; set_solver.
  - intros [id' a'] _. simpl. repeat case_decide; try lia. set_solver.
Qed.

Lemma seenGrows_refl seen : seenGrows seen seen.
Proof. destruct seen; simpl; set_solver. Qed.

Lemma seenGrows_trans a b c : seenGrows a b -> seenGrows b c -> seenGrows a c.
Proof. destruct a, b, c; simpl; try tauto. set_solver. Qed.

Lemma seenGrows_pending reg seen seen' :
  seenGrows seen seen' -> pending reg (default ∅ seen') <= pending reg (default ∅ seen).
Proof.
  destruct seen, seen'; simpl; try tauto; intros Hs.
  - apply pending_mono. assumption.
  - lia.
Qed.

Lemma collectUserTypes_Object {St : Type} n reg nats (cb : string -> St -> St) seen st :
  collectUserTypes (S n) reg (Object nats) cb seen st = collectFields n reg cb nats seen st.
Proof. reflexivity. Qed.

Lemma collectUserTypes_UserType_fresh {St : Type} n reg id (cb : string -> St -> St) s st :
  id ∉ s ->
  collectUserTypes (S n) reg (UserType id) cb (Some s) st
  = collectUserTypes n reg (attributeTypeOf reg id) cb (Some ({[id]} ∪ s)) (cb id st).
Proof.
  intros Hid. simpl. case_decide; [contradiction|].
  destruct (collectUserTypes n reg (attributeTypeOf reg id) cb (Some ({[id]} ∪ s)) (cb id st))
    as [[s' st']|]; reflexivity.
Qed.

Lemma height_attributeTypeOf reg id s :
  id ∉ s ->
  height (attributeTypeOf reg id) + pending reg ({[id]} ∪ s) <= pending reg s.
Proof.
  intros Hid. unfold attributeTypeOf. destruct (reg !! id) as [a|] eqn:Hreg.
  - pose proof (pending_insert reg s id a Hreg Hid). lia.
  - simpl. apply pending_mono. set_solver.
Qed.

(** With fuel beyond the height of the type and the cost of the user types
    not yet seen, the traversal returns. *)
Lemma collectUserTypes_total {St : Type} (reg : gmap string AttributeExpr)
    (cb : string -> St -> St) :
  forall n dt seen st,
    height dt + pending reg (default ∅ seen) < n ->
    exists seen' st',
      collectUserTypes n reg dt cb seen st = Some (seen', st') /\ seenGrows seen seen'.
Proof.
  induction n as [|n IH]; intros dt seen st Hlt; [lia|].
  destruct dt as [|k|e|k e|nats|id].
  - exists seen, st. split; [reflexivity | apply seenGrows_refl].
  - exists seen, st. split; [reflexivity | apply seenGrows_refl].
  - simpl. apply IH. simpl in Hlt. lia.
  - simpl in Hlt. simpl.
    destruct (IH (Type_ k) seen st ltac:(lia)) as (s1 & st1 & -> & Hg1).
    pose proof (seenGrows_pending reg _ _ Hg1).
    destruct (IH (Type_ e) s1 st1 ltac:(lia)) as (s2 & st2 & -> & Hg2).
    exists s2, st2. split; [reflexivity | eapply seenGrows_trans; eassumption].
  - rewrite collectUserTypes_Object. rewrite height_Object in Hlt.
    assert (Hf : fieldsHeight nats + pending reg (default ∅ seen) < n) by lia.
    clear Hlt. revert seen st Hf.
    induction nats as [|x r IHr]; intros seen st Hf.
    + exists seen, st. split; [reflexivity | apply seenGrows_refl].
    + rewrite fieldsHeight_cons in Hf. simpl.
      destruct (IH (Type_ (Attribute x)) seen st ltac:(lia)) as (s1 & st1 & -> & Hg1).
      pose proof (seenGrows_pending reg _ _ Hg1).
      destruct (IHr s1 st1 ltac:(lia)) as (s2 & st2 & Hr & Hg2).
      exists s2, st2. split; [exact Hr | eapply seenGrows_trans; eassumption].
  - simpl in Hlt. simpl. case_decide as Hin.
    + exists seen, st. split; [reflexivity | apply seenGrows_refl].
    + pose proof (height_attributeTypeOf reg id _ Hin) as Hh.
      destruct (IH (attributeTypeOf reg id) (Some ({[id]} ∪ default ∅ seen)) (cb id st))
        as (s1 & st1 & -> & Hg1); [simpl; lia|].
      destruct seen as [s|]; simpl in *.
      * exists s1, st1. split; [reflexivity|]. destruct s1; simpl in *; [set_solver|tauto].
      * exists None, st1. split; [reflexivity | exact I].
Qed.

Lemma traceOK_nil seen : traceOK seen seen [].
Proof.
  destruct seen as [s|]; simpl; [|reflexivity].
  split; [constructor|]. split; [intros id Hid; inversion Hid|].
  f_equal. set_solver.
Qed.

Lemma traceOK_app seen s1 s2 new1 new2 :
  traceOK seen s1 new1 -> traceOK s1 s2 new2 -> traceOK seen s2 (new1 ++ new2).
Proof.
  destruct seen as [s|]; simpl.
  - intros (Hn1 & Hd1 & ->) (Hn2 & Hd2 & ->). split; [|split].
    + apply NoDup_app. split; [assumption|]. split; [|assumption].
      intros x Hx1 Hx2. apply (Hd2 x Hx2). set_solver.
    + intros id Hid. apply elem_of_app in Hid as [Hid|Hid]; [auto|].
      pose proof (Hd2 id Hid). set_solver.
    + f_equal. rewrite list_to_set_app_L. set_solver.
  - intros -> H2. exact H2.
Qed.

Lemma collectUserTypes_trace (reg : gmap string AttributeExpr) :
  forall n dt seen tr seen' tr',
    collectUserTypes n reg dt record seen tr = Some (seen', tr') ->
    exists new,
      tr' = (tr ++ new)%list /\ traceOK seen seen' new
      /\ (forall id, dt = UserType id -> NoDup new).
Proof.
  induction n as [|n IH]; intros dt seen tr seen' tr' Hc; [discriminate|].
  destruct dt as [|k|e|k e|nats|id].
  - simpl in Hc. injection Hc as <- <-. exists []. rewrite app_nil_r.
    split; [reflexivity|]. split; [apply traceOK_nil | discriminate].
  - simpl in Hc. injection Hc as <- <-. exists []. rewrite app_nil_r.
    split; [reflexivity|]. split; [apply traceOK_nil | discriminate].
  - simpl in Hc. destruct (IH _ _ _ _ _ Hc) as (new & -> & Hok & _).
    exists new. split; [reflexivity|]. split; [assumption | discriminate].
  - simpl in Hc.
    destruct (collectUserTypes n reg (Type_ k) record seen tr) as [[s1 t1]|] eqn:Hk;
      [|discriminate].
    destruct (IH _ _ _ _ _ Hk) as (new1 & -> & Hok1 & _).
    destruct (IH _ _ _ _ _ Hc) as (new2 & -> & Hok2 & _).
    exists (new1 ++ new2)%list. rewrite app_assoc.
    split; [reflexivity|]. split; [eapply traceOK_app; eassumption | discriminate].
  - rewrite collectUserTypes_Object in Hc.
    assert (Hl : exists new, tr' = (tr ++ new)%list /\ traceOK seen seen' new).
    { revert seen tr Hc. induction nats as [|x r IHr]; intros seen tr Hc; simpl in Hc.
      - injection Hc as <- <-. exists []. rewrite app_nil_r.
        split; [reflexivity | apply traceOK_nil].
      - destruct (collectUserTypes n reg (Type_ (Attribute x)) record seen tr)
          as [[s1 t1]|] eqn:Hx; [|discriminate].
        destruct (IH _ _ _ _ _ Hx) as (new1 & -> & Hok1 & _).
        destruct (IHr _ _ Hc) as (new2 & -> & Hok2).
        exists (new1 ++ new2)%list. rewrite app_assoc.
        split; [reflexivity | eapply traceOK_app; eassumption]. }
    destruct Hl as (new & Hnew & Hok). exists new.
    split; [assumption|]. split; [assumption | discriminate].
  - simpl in Hc. case_decide as Hin.
    + injection Hc as <- <-. exists []. rewrite app_nil_r.
      split; [reflexivity|]. split; [apply traceOK_nil | intros; constructor].
    + destruct (collectUserTypes n reg (attributeTypeOf reg id) record
                  (Some ({[id]} ∪ default ∅ seen)) (record id tr)) as [[s1 t1]|] eqn:Hr;
        [|discriminate].
      injection Hc as <- <-.
      destruct (IH _ _ _ _ _ Hr) as (new & -> & (Hn & Hd & ->) & _).
      assert (Hfresh : id ∉ new) by (intros Hid; apply (Hd id Hid); set_solver).
      exists (id :: new). unfold record. rewrite <- app_assoc. simpl.
      split; [reflexivity|]. split; [|intros; constructor; assumption].
      destruct seen as [s|]; simpl in *; [|reflexivity].
      split; [constructor; assumption|]. split.
      * intros x Hx. apply elem_of_cons in Hx as [->|Hx]; [assumption|].
        pose proof (Hd x Hx). set_solver.
      * f_equal. set_solver.
Qed.

(** C9. collectUserTypes returns on every type over every finite registry
    of user types, self-referential ones included, whatever the callback:
    fuel beyond [collectFuel] always suffices. A user type not yet seen is
    added to the seen set before its attribute is traversed, so that along
    a traversal sharing one seen set the callback is called on pairwise
    distinct identifiers, none of which was in the set, and all of which are
    in the set afterwards; a traversal that starts at a user type calls the
    callback at most once per identifier. *)
Theorem collectUserTypes_terminates :
  forall (reg : gmap string AttributeExpr) (dt : DataType)
         (seen : option (gset string)) (tr : list string) (k : nat),
    (forall (St : Type) (cb : string -> St -> St) (st : St),
        is_Some (collectUserTypes (collectFuel reg dt + k) reg dt cb seen st))
    /\ (exists seen' new,
          collectUserTypes (collectFuel reg dt + k) reg dt record seen tr
          = Some (seen', (tr ++ new)%list)
          /\ traceOK seen seen' new
          /\ (forall id, dt = UserType id -> NoDup new))
    /\ (forall (St : Type) (cb : string -> St -> St) (st : St) n id s,
          id ∉ s ->
          collectUserTypes (S n) reg (UserType id) cb (Some s) st
          = collectUserTypes n reg (attributeTypeOf reg id) cb (Some ({[id]} ∪ s)) (cb id st)).
Proof.
  intros reg dt seen tr k.
  assert (Hfuel : height dt + pending reg (default ∅ seen) < collectFuel reg dt + k).
  { unfold collectFuel.
    assert (pending reg (default ∅ seen) <= pending reg ∅)
      by (apply pending_mono; set_solver).
    lia. }
  split; [|split].
  - intros St cb st.
    destruct (collectUserTypes_total reg cb _ dt seen st Hfuel) as (s' & st' & -> & _).
    eexists. reflexivity.
  - destruct (collectUserTypes_total reg record _ dt seen tr Hfuel) as (s' & tr' & Hc & _).
    destruct (collectUserTypes_trace reg _ _ _ _ _ _ Hc) as (new & -> & Hok & Hu).
    exists s', new. split; [assumption|]. split; assumption.
  - intros St cb st n id s Hid. apply collectUserTypes_UserType_fresh. assumption.
Qed.

(* --------------------------------------------------------------------- *)
(* Computations of the builders                                          *)
(* --------------------------------------------------------------------- *)

Section MonadFacts.
Context `{Env}.

Lemma bind_Some {A B : Type} (m : M A) (k : A -> M B) sd r :
  bind m k sd = Some r <-> exists a sd', m sd = Some (a, sd') /\ k a sd' = Some r.
Proof.
  unfold bind. destruct (m sd) as [[a sd']|]; split.
  - intros Hk. exists a, sd'. split; [reflexivity | assumption].
  - intros (a' & sd'' & Heq & Hk). injection Heq as -> ->. assumption.
  - discriminate.
  - intros (a' & sd'' & Heq & _). discriminate.
Qed.

Lemma bind_None {A B : Type} (m : M A) (k : A -> M B) sd :
  bind m k sd = None <->
  m sd = None \/ exists a sd', m sd = Some (a, sd') /\ k a sd' = None.
Proof.
  unfold bind. destruct (m sd) as [[a sd']|]; split.
  - intros Hk. right. exists a, sd'. split; [reflexivity | assumption].
  - intros [Hn|(a' & sd'' & Heq & Hk)]; [discriminate|].
    injection Heq as -> ->. assumption.
  - intros _. left. reflexivity.
  - reflexivity.
Qed.

Lemma must_Some {A : Type} (o : option A) sd a sd' :
  must o sd = Some (a, sd') <-> o = Some a /\ sd' = sd.
Proof.
  destruct o as [x|]; simpl; unfold ret, panic; split.
  - intros Heq. injection Heq as -> ->. split; reflexivity.
  - intros [Heq ->]. injection Heq as ->. reflexivity.
  - discriminate.
  - intros [Heq _]. discriminate.
Qed.

Lemma mapM_length {A B : Type} (f : A -> M B) (l : list A) sd bs sd' :
  mapM f l sd = Some (bs, sd') -> length bs = length l.
Proof.
  revert sd bs sd'. induction l as [|a l IH]; intros sd bs sd' Hm; simpl in Hm.
  - unfold ret in Hm. injection Hm as <- <-. reflexivity.
  - apply bind_Some in Hm as (b & sd1 & _ & Hm).
    apply bind_Some in Hm as (bs' & sd2 & Hl & Hm).
    unfold ret in Hm. injection Hm as <- <-. simpl. f_equal. eapply IH. eassumption.
Qed.

(** Every element of the result of a loop satisfies what each run of its
    body guarantees. *)
Lemma mapM_Forall {A B : Type} (f : A -> M B) (P : B -> Prop) (l : list A) sd bs sd' :
  (forall a s b s', f a s = Some (b, s') -> P b) ->
  mapM f l sd = Some (bs, sd') -> Forall P bs.
Proof.
  intros Hf. revert sd bs sd'.
  induction l as [|a l IH]; intros sd bs sd' Hm; simpl in Hm.
  - unfold ret in Hm. injection Hm as <- <-. constructor.
  - apply bind_Some in Hm as (b & sd1 & Hb & Hm).
    apply bind_Some in Hm as (bs' & sd2 & Hl & Hm).
    unfold ret in Hm. injection Hm as <- <-.
    constructor; [eapply Hf; eassumption | eapply IH; eassumption].
Qed.

(** A loop whose body never panics never panics. *)
Lemma mapM_total {A B : Type} (f : A -> M B) (l : list A) :
  (forall a s, is_Some (f a s)) -> forall sd, is_Some (mapM f l sd).
Proof.
  intros Hf. induction l as [|a l IH]; intros sd; simpl.
  - eexists. reflexivity.
  - unfold bind. destruct (Hf a sd) as [[b s1] ->].
    destruct (IH s1) as [[bs s2] ->]. eexists. reflexivity.
Qed.

Lemma unique_Some name sd : is_Some (unique name sd).
Proof.
  unfold unique. destruct (Unique (Scope sd) name) as [n sc]. eexists. reflexivity.
Qed.

End MonadFacts.

Ltac bind_inv H :=
  repeat match type of H with
  | bind _ _ _ = Some _ =>
      let a := fresh "a" in let s := fresh "sd" in let Ha := fresh "Hstep" in
      apply bind_Some in H as (a & s & Ha & H)
  end.

(* --------------------------------------------------------------------- *)
(* The validation flag of requests and responses                         *)
(* --------------------------------------------------------------------- *)

Lemma eqb_empty_false s : negb (String.eqb s "") = true <-> s <> "".
Proof.
  rewrite negb_true_iff. destruct (String.eqb_spec s ""); split; congruence.
Qed.

Lemma pathParamsNeedValidation_Exists l :
  pathParamsNeedValidation l = true <-> Exists pathParamAsks l.
Proof.
  induction l as [|p r IH]; simpl.
  - split; [discriminate | inversion 1].
  - rewrite Exists_cons, <- IH. unfold pathParamAsks.
    rewrite <- eqb_empty_false.
    destruct (negb (String.eqb (ParamData.Validate p) "")),
      (needConversion (ParamData.Type_ p)); simpl; intuition congruence.
Qed.

Lemma queryParamsNeedValidation_Exists l :
  queryParamsNeedValidation l = true <-> Exists queryParamAsks l.
Proof.
  induction l as [|q r IH]; simpl.
  - split; [discriminate | inversion 1].
  - rewrite Exists_cons, <- IH. unfold queryParamAsks.
    rewrite <- eqb_empty_false.
    destruct (negb (String.eqb (ParamData.Validate q) "")), (ParamData.Required q),
      (needConversion (ParamData.Type_ q)); simpl; intuition congruence.
Qed.

Lemma headersNeedValidation_Exists l :
  headersNeedValidation l = true <-> Exists headerAsks l.
Proof.
  induction l as [|h r IH]; simpl.
  - split; [discriminate | inversion 1].
  - rewrite Exists_cons, <- IH. unfold headerAsks.
    rewrite <- eqb_empty_false.
    destruct (negb (String.eqb (HeaderData.Validate h) "")), (HeaderData.Required h),
      (needConversion (HeaderData.Type_ h)); simpl; intuition congruence.
Qed.

Lemma requestMustValidate_iff ps qs hs :
  requestMustValidate ps qs hs = true
  <-> Exists pathParamAsks ps \/ Exists queryParamAsks qs \/ Exists headerAsks hs.
Proof.
  unfold requestMustValidate.
  rewrite <- pathParamsNeedValidation_Exists, <- queryParamsNeedValidation_Exists,
    <- headersNeedValidation_Exists.
  destruct (pathParamsNeedValidation ps), (queryParamsNeedValidation qs),
    (headersNeedValidation hs); simpl; intuition congruence.
Qed.

Section ValidationFlag.
Context `{Env}.

Lemma buildRequestData_MustValidate svc e sd rq mq sd' :
  buildRequestData svc e sd = Some ((rq, mq), sd') ->
  RequestData.MustValidate rq
  = requestMustValidate (RequestData.PathParams rq) (RequestData.QueryParams rq)
      (RequestData.Headers rq).
Proof.
  intros Hb. unfold buildRequestData in Hb. bind_inv Hb.
  unfold ret in Hb. injection Hb as <- <- <-. reflexivity.
Qed.

Lemma buildResponseData_MustValidate svc e result pkg viewed v sd r sd' :
  buildResponseData svc e result pkg viewed v sd = Some (r, sd') ->
  ResponseData.MustValidate r = headersNeedValidation (ResponseData.Headers r).
Proof.
  intros Hb. unfold buildResponseData in Hb. bind_inv Hb.
  unfold ret in Hb. injection Hb as <- <-. reflexivity.
Qed.

End ValidationFlag.

(** C5. The request data of an endpoint has MustValidate set whenever a
    path parameter has validation code or needs conversion from a string,
    or a query parameter or a header has validation code, is required or
    needs conversion. When no parameter and no header asks so, and the
    request has no body or a body without validation code, MustValidate is
    unset: the required flag of a path parameter does not set it. What the
    flag is when the body alone has validation code is not stated here. *)
Theorem must_validate_when_param_or_header_asks :
  forall (E : Env) (svc : ServiceInfo) (e : EndpointExpr) (sd : ServiceData),
    match buildRequestData svc e sd with
    | Some ((rq, _), _) =>
        let asked :=
          Exists pathParamAsks (RequestData.PathParams rq)
          \/ Exists queryParamAsks (RequestData.QueryParams rq)
          \/ Exists headerAsks (RequestData.Headers rq) in
        (asked -> RequestData.MustValidate rq = true)
        /\ (~ asked ->
            (forall td, RequestData.ServerBody rq = Some td -> TypeData.ValidateRef td = "") ->
            RequestData.MustValidate rq = false)
    | None => True
    end.
Proof.
  intros E svc e sd.
  destruct (buildRequestData svc e sd) as [[[rq mq] sd']|] eqn:Hb; [|exact I].
  intros asked.
  pose proof (requestMustValidate_iff (RequestData.PathParams rq)
                (RequestData.QueryParams rq) (RequestData.Headers rq)) as Hiff.
  rewrite <- (buildRequestData_MustValidate _ _ _ _ _ _ Hb) in Hiff. fold asked in Hiff.
  split.
  - apply Hiff.
  - intros Hno _. destruct (RequestData.MustValidate rq); [|reflexivity].
    exfalso. apply Hno, Hiff. reflexivity.
Qed.

(** A response has MustValidate set exactly when one of its headers has
    validation code, is required or needs conversion. *)
Lemma response_must_validate_iff_header_asks :
  forall (E : Env) (svc : ServiceInfo) (e : EndpointExpr) (sd : ServiceData)
         result pkg viewed v,
    match buildResponseData svc e result pkg viewed v sd with
    | Some (r, _) =>
        ResponseData.MustValidate r = true <-> Exists headerAsks (ResponseData.Headers r)
    | None => True
    end.
Proof.
  intros E svc e sd result pkg viewed v.
  destruct (buildResponseData svc e result pkg viewed v sd) as [[r sd']|] eqn:Hb;
    [|exact I].
  rewrite (buildResponseData_MustValidate _ _ _ _ _ _ _ _ _ Hb).
  apply headersNeedValidation_Exists.
Qed.

(** C5, as stated, fails: the request data of the endpoint get, whose only
    decoded field is the required string path parameter id, the request
    having neither body nor query parameter nor header, has MustValidate
    unset. *)
Lemma required_path_param_not_validated :
  ParamData.Required idParam = true
  /\ match @buildRequestData (plainEnv widgetTypes noTransformError) widgetsService
             getEndpoint (emptyServiceData (plainEnv widgetTypes noTransformError) []) with
     | Some ((rq, _), _) =>
         RequestData.PathParams rq = [idParam]
         /\ RequestData.QueryParams rq = []
         /\ RequestData.Headers rq = []
         /\ RequestData.ServerBody rq = None
         /\ RequestData.MustValidate rq = false
     | None => False
     end.
Proof.
  split; [reflexivity|]. vm_compute. repeat split; reflexivity.
Qed.

(* --------------------------------------------------------------------- *)
(* Path parameters                                                       *)
(* --------------------------------------------------------------------- *)

Section PathParameters.
Context `{Env}.

Lemma extractPathParams_total a serviceType sd :
  is_Some (extractPathParams a serviceType sd).
Proof.
  unfold extractPathParams. apply mapM_total.
  intros [[[name elem] required] c] s. unfold bind.
  destruct (unique_Some (Goify name false) s) as [[varn s1] ->].
  eexists. reflexivity.
Qed.

Lemma extractPathParams_Pointer a serviceType sd ps sd' :
  extractPathParams a serviceType sd = Some (ps, sd') ->
  Forall (fun p => ParamData.Pointer p = false) ps.
Proof.
  unfold extractPathParams. apply mapM_Forall.
  intros [[[name elem] required] c] s b s' Hf. bind_inv Hf.
  unfold ret in Hf. injection Hf as <- <-. reflexivity.
Qed.

Lemma pathInitArgs_Required e params sd args sd' :
  pathInitArgs e params sd = Some (args, sd') ->
  Forall (fun a => InitArgData.Required a = true) args.
Proof.
  unfold pathInitArgs. apply mapM_Forall.
  intros arg s b s' Hf. bind_inv Hf.
  unfold ret in Hf. injection Hf as <- <-. reflexivity.
Qed.

End PathParameters.

(** C6. Every path parameter extractPathParams returns, one per mapped
    attribute, has Pointer unset, and every argument of a path constructor,
    one per wildcard of the route, has Required set, whatever the required
    flag of the attribute. *)
Theorem path_params_never_optional :
  forall (E : Env) (a : MappedAttributeExpr) (serviceType : AttributeExpr)
         (e : EndpointExpr) (params : list string) (sd : ServiceData),
    (exists ps sd',
        extractPathParams a serviceType sd = Some (ps, sd')
        /\ length ps = length (WalkMappedAttr a)
        /\ Forall (fun p => ParamData.Pointer p = false) ps)
    /\ match pathInitArgs e params sd with
       | Some (args, _) =>
           length args = length params
           /\ Forall (fun a => InitArgData.Required a = true) args
       | None => True
       end.
Proof.
  intros E a serviceType e params sd. split.
  - destruct (extractPathParams_total a serviceType sd) as [[ps sd'] Hx].
    exists ps, sd'. split; [assumption|]. split.
    + eapply mapM_length. exact Hx.
    + eapply extractPathParams_Pointer. exact Hx.
  - destruct (pathInitArgs e params sd) as [[args sd']|] eqn:Hp; [|exact I]. split.
    + eapply mapM_length. exact Hp.
    + eapply pathInitArgs_Required. exact Hp.
Qed.

(** On the endpoint find the attribute note is optional and would be held
    through a pointer in the payload; its path parameter has Pointer unset
    and the argument of the path constructor has Required set. *)
Lemma optional_attribute_in_path :
  let E := plainEnv widgetTypes noTransformError in
  @IsRequired E findPayload "note" = false
  /\ @IsPrimitivePointer E findPayload "note" true = true
  /\ (fst <$> @extractPathParams E (PathParams findEndpoint) findPayload
                (emptyServiceData E []))
     ≫= (fun ps => Some (map (fun p => (ParamData.Required p, ParamData.Pointer p)) ps))
     = Some [(false, false)]
  /\ (fst <$> @pathInitArgs E findEndpoint ["note"] (emptyServiceData E []))
     ≫= (fun args => Some (map InitArgData.Required args))
     = Some [true].
Proof. vm_compute. repeat split. Qed.

(* --------------------------------------------------------------------- *)
(* The body types                                                        *)
(* --------------------------------------------------------------------- *)

Ltac body_cases body att :=
  repeat match goal with
  | |- context [isEmpty (Type_ att)] => destruct (isEmpty (Type_ att)); simpl
  | |- context [originSource body (Type_ att)] =>
      destruct (originSource body (Type_ att)) as [[? ?]|]; simpl
  | |- context [GoTypeTransform ?a ?b ?c ?d ?e ?f ?g ?h] =>
      destruct (GoTypeTransform a b c d e f g h) as [[? ?] [?|]]; simpl
  end.

Section BodyTypeFacts.
Context `{Env}.

Lemma buildBodyType_result svc e body att req svr viewed pkg sd :
  match buildBodyType svc e body att req svr viewed pkg sd with
  | Some (r, _) => r = None <-> Type_ body = Empty
  | None => Type_ body <> Empty /\ originSource body (Type_ att) = None
  end.
Proof.
  unfold buildBodyType. destruct (isEmpty (Type_ body)) eqn:Hemp.
  - unfold ret. apply isEmpty_true in Hemp. tauto.
  - apply isEmpty_false in Hemp.
    generalize (needInit (Type_ body)). intros ni.
    destruct (Type_ body) eqn:Hty; [congruence| | | | |];
      destruct svr, req, viewed, ni; simpl; unfold bind, get, ret; simpl;
      body_cases body att;
      try (split; [discriminate | congruence]); try (split; [congruence | reflexivity]).
Qed.

Lemma buildBodyType_Def svc e id d v dv md att req svr viewed pkg sd :
  match buildBodyType svc e (MkAttribute (UserType id) d v dv md) att req svr viewed pkg sd with
  | Some (Some td, _) =>
      TypeData.Def td
      = goTypeDef (Scope sd) (utAttribute id) (negb (negb svr && req)) (negb svr && req)
  | Some (None, _) => False
  | None => originSource (MkAttribute (UserType id) d v dv md) (Type_ att) = None
  end.
Proof.
  unfold buildBodyType. simpl.
  destruct svr, req, viewed; simpl; unfold bind, get, ret; simpl;
    body_cases (MkAttribute (UserType id) d v dv md) att; reflexivity.
Qed.

Lemma attributeTypeData_Def id req ptr server sd :
  match attributeTypeData id req ptr server sd with
  | Some (Some td, _) =>
      TypeData.Def td
      = goTypeDef (Scope sd) (utAttribute id) ptr
          ((negb req && server) || (req && negb server))
  | Some (None, _) =>
      UserTypeName id ∈ (if server then ServerTypeNames sd else ClientTypeNames sd)
  | None => False
  end.
Proof.
  unfold attributeTypeData, bind, get. simpl. case_decide as Hseen.
  - unfold ret. assumption.
  - destruct server; reflexivity.
Qed.

End BodyTypeFacts.

(** C8. buildBodyType returns nil exactly when the type of the body is
    Empty. On any other body it returns a TypeData; the one call that does
    not return is the panic of a body whose origin attribute cannot be
    found in the type it is built from. *)
Theorem buildBodyType_nil_iff_Empty :
  forall (E : Env) (svc : ServiceInfo) (e : EndpointExpr) (body att : AttributeExpr)
         (req svr viewed : bool) (pkg : string) (sd : ServiceData),
    match buildBodyType svc e body att req svr viewed pkg sd with
    | Some (r, _) => r = None <-> Type_ body = Empty
    | None => Type_ body <> Empty /\ originSource body (Type_ att) = None
    end.
Proof. intros. apply buildBodyType_result. Qed.

Lemma widget_note_optional : fieldWithoutDefault widgetAttribute "note" false.
Proof.
  eexists _, _. split; [reflexivity|]. split; [reflexivity|]. split; [reflexivity|].
  split; [discriminate|]. intros (v & Hv & Hin). injection Hv as <-.
  simpl in Hin. apply elem_of_cons in Hin as [Hin|Hin]; [discriminate | inversion Hin].
Qed.

(** The policy of C1 cannot hold of the code, whatever goTypeDef generates
    and however pointers are read off a definition: the body type of the
    server request, a decoding context, and the one of the server response,
    an encoding context, are generated by the same call, so the optional
    field note of Widget cannot be a pointer in the first and not in the
    second. *)
Lemma optionality_policy_fails :
  ~ exists (E : Env) (scope : @NameScope E) (pointer : string -> string -> Prop),
      @Types E !! "Widget" = Some widgetAttribute /\ @optionalityPolicy E pointer.
Proof.
  intros (E & scope & pointer & Hreg & Hpol).
  pose (sd := emptyServiceData E scope).
  pose (def := goTypeDef scope widgetAttribute true false).
  assert (Hut : utAttribute "Widget" = widgetAttribute).
  { unfold utAttribute. rewrite Hreg. reflexivity. }
  assert (Hfield : fieldWithoutDefault (utAttribute "Widget") "note" false).
  { rewrite Hut. apply widget_note_optional. }
  assert (Hdec : bodyDef ServerRequest widgetsService showEndpoint
                   (attrOf (UserType "Widget")) (attrOf Empty) false "" sd = Some def).
  { unfold bodyDef, bodyTypeOf, buildBodyType, bind, get, ret. simpl.
    rewrite Hut. reflexivity. }
  assert (Henc : bodyDef ServerResponse widgetsService showEndpoint
                   (attrOf (UserType "Widget")) (attrOf Empty) false "" sd = Some def).
  { unfold bodyDef, bodyTypeOf, buildBodyType, bind, get, ret. simpl.
    rewrite Hut. reflexivity. }
  pose proof (Hpol _ _ _ _ _ _ _ _ _ _ _ Hdec Hfield) as Hp. simpl in Hp.
  pose proof (Hpol _ _ _ _ _ _ _ _ _ _ _ Henc Hfield) as Hn. simpl in Hn.
  apply Hn, Hp. reflexivity.
Qed.

(** Under the plain implementation of goTypeDef, the definitions of the
    body Widget per context: pointers for both fields, the required name
    included, in the two decoding contexts and for the server response; a
    pointer for the optional note alone in the client request. *)
Lemma widget_body_definitions :
  let E := plainEnv widgetTypes noTransformError in
  let def c :=
    @bodyDef E c widgetsService showEndpoint (attrOf (UserType "Widget")) (attrOf Empty)
      false "widgets" (emptyServiceData E []) in
  def ServerRequest = Some "struct { name *string; note *string; }"
  /\ def ClientResponse = Some "struct { name *string; note *string; }"
  /\ def ServerResponse = Some "struct { name *string; note *string; }"
  /\ def ClientRequest = Some "struct { name string; note *string; }".
Proof. vm_compute. repeat split. Qed.

(** C1. The body type buildBodyType generates for the server response of a
    user type is defined by the very call that defines the one of the
    server request and of the client response: goTypeDef with pointers
    requested and default values ignored. The client request alone is
    defined with pointers not requested and default values considered,
    whereas attributeTypeData considers default values for a user type of
    the server response. *)
Theorem server_response_body_defined_as_decoded :
  forall (E : Env) (svc : ServiceInfo) (e : EndpointExpr) (id : string)
         (att : AttributeExpr) (viewed : bool) (pkg : string) (sd : ServiceData),
    let def c := bodyDef c svc e (attrOf (UserType id)) att viewed pkg sd in
    def ServerResponse = Some (goTypeDef (Scope sd) (utAttribute id) true false)
    /\ def ServerRequest = Some (goTypeDef (Scope sd) (utAttribute id) true false)
    /\ def ClientResponse = Some (goTypeDef (Scope sd) (utAttribute id) true false)
    /\ def ClientRequest = Some (goTypeDef (Scope sd) (utAttribute id) false true)
    /\ (forall ptr,
          match attributeTypeData id false ptr true sd with
          | Some (Some td, _) =>
              TypeData.Def td = goTypeDef (Scope sd) (utAttribute id) ptr true
          | Some (None, _) => UserTypeName id ∈ ServerTypeNames sd
          | None => False
          end).
Proof.
  intros E svc e id att viewed pkg sd def.
  assert (Hdef : forall c,
             def c = Some (goTypeDef (Scope sd) (utAttribute id)
                             (negb (negb (isServer c) && isRequest c))
                             (negb (isServer c) && isRequest c))).
  { intros c. unfold def, bodyDef, bodyTypeOf.
    pose proof (buildBodyType_Def svc e id "" None None [] att (isRequest c) (isServer c)
                  viewed pkg sd) as Hd.
    change (MkAttribute (UserType id) "" None None []) with (attrOf (UserType id)) in Hd.
    destruct (buildBodyType svc e (attrOf (UserType id)) att (isRequest c) (isServer c)
                viewed pkg sd) as [[[td|] sd']|].
    - rewrite Hd. reflexivity.
    - destruct Hd.
    - discriminate Hd. }
  split; [exact (Hdef ServerResponse)|]. split; [exact (Hdef ServerRequest)|].
  split; [exact (Hdef ClientResponse)|]. split; [exact (Hdef ClientRequest)|].
  intros ptr. exact (attributeTypeData_Def id false ptr true sd).
Qed.

(* --------------------------------------------------------------------- *)
(* Errors of GoTypeTransform                                             *)
(* --------------------------------------------------------------------- *)

Section TransformErrors.
Context `{Env}.

Lemma keepHelpers_Stdout server helpers err sd :
exists sd', keepHelpers server helpers err sd = Some (tt, sd')
            /\ Stdout sd' = Stdout sd /\ Scope sd' = Scope sd.
Proof.
unfold keepHelpers. destruct err; [eexists; split; [reflexivity|]; split; reflexivity|].
unfold bind, get. destruct server; eexists; (split; [reflexivity|]); split; reflexivity.
Qed.

Lemma printError_Stdout err sd :
exists sd', printError err sd = Some (tt, sd')
            /\ Stdout sd' = (Stdout sd ++ printed err)%list.
Proof.
destruct err; simpl.
- eexists. split; [reflexivity|]. reflexivity.
- eexists. split; [reflexivity|]. simpl. rewrite app_nil_r. reflexivity.
Qed.

Lemma buildBodyType_error svc e body att req svr viewed pkg sd srcType o code helpers err :
(svr && negb req || negb svr && req) && negb (isEmpty (Type_ att)) && needInit (Type_ body) = true ->
originSource body (Type_ att) = Some (srcType, o) ->
GoTypeTransform srcType (Type_ body)
  (match o with
   | Some origin => (if req then "p" else "res") ++ "." ++ Goify origin true
   | None => if req then "p" else "res"
   end) "body" pkg "" false (Scope sd) = (code, helpers, err) ->
exists td init sd',
  buildBodyType svc e body att req svr viewed pkg sd = Some (Some td, sd')
  /\ TypeData.Init td = Some init
  /\ (if svr then InitData.ServerCode init else InitData.ClientCode init) = code
  /\ Stdout sd' = (Stdout sd ++ printed err)%list.
Proof.
intros Hcond Hsrc Hgtt.
assert (Hemp : isEmpty (Type_ body) = false).
{ destruct (Type_ body); try reflexivity.
  rewrite !andb_true_iff in Hcond. destruct Hcond as [_ Hn]. discriminate. }
unfold buildBodyType. rewrite Hemp, Hcond.
unfold bind at 1, get at 1.
destruct (Type_ body) eqn:Hty; destruct req, svr; try discriminate Hcond;
  destruct viewed; simpl; unfold bind, get, ret, must; simpl;
  rewrite Hsrc; simpl; rewrite Hgtt; destruct err; simpl;
  eexists _, _, _; (split; [reflexivity|]); (split; [reflexivity|]);
  (split; [reflexivity|]); simpl; rewrite ?app_nil_r; reflexivity.
Qed.

Lemma payloadInitCode_error svc e sd source target sourceVar origin sc sh serr cc ch cerr :
payloadTransform e = Some (Some (source, target, sourceVar, origin)) ->
GoTypeTransform source target sourceVar "v" "" (PkgName svc) true (Scope sd) = (sc, sh, serr) ->
GoTypeTransform source target sourceVar "v" "" (PkgName svc) false (Scope sd) = (cc, ch, cerr) ->
exists sd',
  payloadInitCode svc e sd = Some ((sc, cc, origin), sd')
  /\ Stdout sd' = (Stdout sd ++ printed cerr)%list.
Proof.
intros Hpt Hs Hc. unfold payloadInitCode, bind, get, must. rewrite Hpt. simpl.
rewrite Hs.
destruct (keepHelpers_Stdout true sh serr sd) as (sd1 & -> & Ho1 & _).
rewrite Hc.
destruct (keepHelpers_Stdout false ch cerr sd1) as (sd2 & -> & Ho2 & _).
destruct (printError_Stdout cerr sd2) as (sd3 & -> & Ho3).
exists sd3. split; [reflexivity|]. rewrite Ho3, Ho2, Ho1. reflexivity.
Qed.

Lemma responseInitCode_error svc resp e result pkg sd source target sourceVar tpkg unmarshal
  code helpers err :
responseTransform svc resp e result pkg
= Some (Some (source, target, sourceVar, tpkg, unmarshal)) ->
GoTypeTransform source target sourceVar "v" "" tpkg unmarshal (Scope sd)
= (code, helpers, err) ->
exists sd',
  responseInitCode svc resp e result pkg sd = Some (code, sd')
  /\ Stdout sd' = (Stdout sd ++ printed err)%list.
Proof.
intros Hrt Hg. unfold responseInitCode, bind, get, must. rewrite Hrt. simpl.
rewrite Hg.
destruct (keepHelpers_Stdout false helpers err sd) as (sd1 & -> & Ho1 & _).
destruct (printError_Stdout err sd1) as (sd2 & -> & Ho2).
exists sd2. split; [reflexivity|]. rewrite Ho2, Ho1. reflexivity.
Qed.
End TransformErrors.

(** With a GoTypeTransform that fails for the server code only, building
    the payload data of the endpoint show prints nothing, the error of the
    first call being overwritten by the result of the second; the builder
    returns the payload data with its constructor all the same. *)
Lemma server_transform_error_not_printed :
  let E := plainEnv widgetTypes unmarshalTransformError in
  @payloadTransform E showEndpoint
  = Some (Some (UserType "Widget", UserType "Widget", "body", "widget"))
  /\ @GoTypeTransform E (UserType "Widget") (UserType "Widget") "body" "v" "" "widgets" true []
     = ("", [], Some "cannot transform body to payload")
  /\ match @buildPayloadData E widgetsService showEndpoint (emptyServiceData E []) with
     | Some (pd, sd') =>
         Stdout sd' = [] /\ is_Some (RequestData.PayloadInit (PayloadData.Request pd))
     | None => False
     end.
Proof.
  vm_compute. split; [reflexivity|]. split; [reflexivity|].
  split; [reflexivity | eexists; reflexivity].
Qed.



(** Whatever GoTypeTransform returns, the builders go on and return their
    data. buildBodyType prints the error of its call and returns the body
    type with its constructor, and the code of the result constructor
    prints the error of its call; the code of the payload constructor
    returns the code of both calls and prints the error of the second. *)
Lemma transform_errors_of_the_builders :
  forall (E : Env) (svc : ServiceInfo) (e : EndpointExpr) (sd : ServiceData),
    (forall body att req svr viewed pkg srcType o code helpers err,
        (svr && negb req || negb svr && req) && negb (isEmpty (Type_ att))
          && needInit (Type_ body) = true ->
        originSource body (Type_ att) = Some (srcType, o) ->
        GoTypeTransform srcType (Type_ body)
          (match o with
           | Some origin => (if req then "p" else "res") ++ "." ++ Goify origin true
           | None => if req then "p" else "res"
           end) "body" pkg "" false (Scope sd) = (code, helpers, err) ->
        exists td init sd',
          buildBodyType svc e body att req svr viewed pkg sd = Some (Some td, sd')
          /\ TypeData.Init td = Some init
          /\ (if svr then InitData.ServerCode init else InitData.ClientCode init) = code
          /\ Stdout sd' = (Stdout sd ++ printed err)%list)
    /\ (forall source target sourceVar origin sc sh serr cc ch cerr,
          payloadTransform e = Some (Some (source, target, sourceVar, origin)) ->
          GoTypeTransform source target sourceVar "v" "" (PkgName svc) true (Scope sd)
          = (sc, sh, serr) ->
          GoTypeTransform source target sourceVar "v" "" (PkgName svc) false (Scope sd)
          = (cc, ch, cerr) ->
          exists sd',
            payloadInitCode svc e sd = Some ((sc, cc, origin), sd')
            /\ Stdout sd' = (Stdout sd ++ printed cerr)%list)
    /\ (forall resp result pkg source target sourceVar tpkg unmarshal code helpers err,
          responseTransform svc resp e result pkg
          = Some (Some (source, target, sourceVar, tpkg, unmarshal)) ->
          GoTypeTransform source target sourceVar "v" "" tpkg unmarshal (Scope sd)
          = (code, helpers, err) ->
          exists sd',
            responseInitCode svc resp e result pkg sd = Some (code, sd')
            /\ Stdout sd' = (Stdout sd ++ printed err)%list).
Proof.
  intros E svc e sd. split; [|split].
  - intros. eapply buildBodyType_error; eassumption.
  - intros. eapply payloadInitCode_error; eassumption.
  - intros. eapply responseInitCode_error; eassumption.
Qed.

(** The three builders on the endpoint show when every call to
    GoTypeTransform fails: each prints the error once and returns. *)
Lemma show_transform_errors_printed :
  let E := plainEnv widgetTypes everyTransformError in
  let sd := emptyServiceData E [] in
  (exists td init sd',
      @buildBodyType E widgetsService showEndpoint showBody showPayload true false false
        "widgets" sd = Some (Some td, sd')
      /\ TypeData.Init td = Some init
      /\ InitData.ClientCode init = ""
      /\ @Stdout E sd' = ["cannot transform"])
  /\ (exists sd',
        @payloadInitCode E widgetsService showEndpoint sd = Some (("", "", "widget"), sd')
        /\ @Stdout E sd' = ["cannot transform"])
  /\ (exists sd',
        @responseInitCode E widgetsService (okResponse ("", "")) showEndpoint
          (attrOf (UserType "Widget")) "widgets" sd = Some ("", sd')
        /\ @Stdout E sd' = ["cannot transform"]).
Proof.
  intros E sd.
  destruct (transform_errors_of_the_builders E widgetsService showEndpoint sd)
    as (Hbody & Hpayload & Hresult).
  split; [|split].
  - apply (Hbody showBody showPayload true false false "widgets"
             (UserType "Widget") (Some "widget") "" [] (Some "cannot transform"));
      reflexivity.
  - apply (Hpayload (UserType "Widget") (UserType "Widget") "body" "widget"
             "" [] (Some "cannot transform") "" [] (Some "cannot transform"));
      reflexivity.
  - apply (Hresult (okResponse ("", "")) (attrOf (UserType "Widget")) "widgets"
             (UserType "Widget") (UserType "Widget") "body" "widgets" true
             "" [] (Some "cannot transform"));
      reflexivity.
Defined.

(* --------------------------------------------------------------------- *)
(* Path constructors                                                     *)
(* --------------------------------------------------------------------- *)

Section PathInitFacts.
Context `{Env}.

Lemma pathArg_array PathParams i arg nat el :
  PathParams !! i = Some nat -> Type_ (Attribute nat) = Array el ->
  pathArg PathParams i arg
  = Some (ArgJoin (InitArgData.Name arg) (slice_conversion (TypeNameOf (Type_ el)))).
Proof. intros Hi Ht. unfold pathArg. rewrite Hi, Ht. reflexivity. Qed.

Lemma pathArg_primitive PathParams i arg nat k :
  PathParams !! i = Some nat -> Type_ (Attribute nat) = Primitive k ->
  pathArg PathParams i arg = Some (ArgVar (InitArgData.Name arg)).
Proof.
  intros Hi Ht. unfold pathArg. rewrite Hi, Ht. destruct k; reflexivity.
Qed.

Lemma pathArgs_length PathParams Args :
  forall i pas, pathArgs PathParams i Args = Some pas -> length pas = length Args.
Proof.
  induction Args as [|arg r IH]; intros i pas Hp; simpl in Hp.
  - injection Hp as <-. reflexivity.
  - destruct (pathArg PathParams i arg); [|discriminate].
    destruct (pathArgs PathParams (S i) r) eqn:Hr; [|discriminate].
    injection Hp as <-. simpl. f_equal. eapply IH. eassumption.
Qed.

(** The argument at position [j] of the call is the one rendered for the
    argument and the path parameter at that position. *)
Lemma pathArgs_lookup PathParams Args :
  forall i pas j arg,
    pathArgs PathParams i Args = Some pas -> Args !! j = Some arg ->
    pas !! j = pathArg PathParams (i + j) arg.
Proof.
  induction Args as [|a r IH]; intros i pas j arg Hp Hj; simpl in Hp; [discriminate|].
  destruct (pathArg PathParams i a) eqn:Ha; [|discriminate].
  destruct (pathArgs PathParams (S i) r) eqn:Hr; [|discriminate].
  injection Hp as <-. destruct j as [|j]; simpl in *.
  - injection Hj as <-. rewrite Nat.add_0_r. symmetry. assumption.
  - rewrite (IH _ _ _ _ Hr Hj). f_equal. lia.
Qed.

End PathInitFacts.

Lemma convertAll_lookup FormatFloat c l ss :
  convertAll FormatFloat c l = Some ss ->
  length ss = length l
  /\ forall j v, l !! j = Some v -> Some <$> ss !! j = Some (convert FormatFloat c v).
Proof.
  revert ss. induction l as [|v r IH]; intros ss Hc; simpl in Hc.
  - injection Hc as <-. split; [reflexivity | discriminate].
  - destruct (convert FormatFloat c v) eqn:Hv; [|discriminate].
    destruct (convertAll FormatFloat c r) eqn:Hr; [|discriminate].
    injection Hc as <-. destruct (IH _ eq_refl) as [Hlen Hl]. split; [simpl; lia|].
    intros [|j] w Hj; simpl in *.
    + injection Hj as <-. rewrite Hv. reflexivity.
    + apply Hl. assumption.
Qed.

(** The table of conversions by element type, and what each conversion
    returns on a value of the type it is rendered for. *)
Lemma slice_conversion_table FormatFloat :
  (forall k,
      slice_conversion (kindName k)
      = match k with
        | StringKind => QueryEscape
        | IntKind | Int32Kind => FormatIntOfInt64
        | Int64Kind => FormatInt
        | UIntKind | UInt32Kind => FormatUintOfUint64
        | UInt64Kind => FormatUint
        | Float32Kind => FormatFloat32
        | Float64Kind => FormatFloat64
        | BooleanKind => FormatBool
        | BytesKind => QueryEscapeOfString
        | AnyKind => QueryEscapeSprintf
        end)
  /\ (forall s z n b f v,
        convert FormatFloat QueryEscape (VString s) = Some (queryEscape s)
        /\ convert FormatFloat QueryEscapeOfString (VBytes s) = Some (queryEscape s)
        /\ convert FormatFloat FormatIntOfInt64 (VInt z) = Some (formatInt z)
        /\ convert FormatFloat FormatInt (VInt z) = Some (formatInt z)
        /\ convert FormatFloat FormatUintOfUint64 (VUint n) = Some (formatUint n)
        /\ convert FormatFloat FormatUint (VUint n) = Some (formatUint n)
        /\ convert FormatFloat FormatFloat32 (VFloat32 f)
           = Some (FormatFloat f "f"%char (-1)%Z 32%Z)
        /\ convert FormatFloat FormatFloat64 (VFloat64 f)
           = Some (FormatFloat f "f"%char (-1)%Z 64%Z)
        /\ convert FormatFloat FormatBool (VBool b) = Some (if b then "true" else "false")
        /\ convert FormatFloat QueryEscapeSprintf v
           = Some (queryEscape (formatV FormatFloat v))).
Proof.
  split; [intros k; destruct k; reflexivity|].
  intros. repeat (split; [reflexivity|]). reflexivity.
Qed.

(** The arguments of the call rendered by the template are read by
    position: the argument at index [j] is rendered from the type of the
    path attribute at index [j] of the endpoint, whatever its name. *)
Lemma pathInitT_by_position `{Env} a Args PathParams PathFormat :
  match pathInitT (a :: Args) PathParams PathFormat with
  | Some (ReturnSprintf pf pas) =>
      pf = PathFormat
      /\ length pas = length (a :: Args)
      /\ (forall j arg, (a :: Args) !! j = Some arg -> pas !! j = pathArg PathParams j arg)
  | Some (ReturnLiteral _) => False
  | None => True
  end.
Proof.
  unfold pathInitT.
  destruct (pathArgs PathParams 0 (a :: Args)) as [pas|] eqn:Hp; simpl; [|exact I].
  split; [reflexivity|]. split; [exact (pathArgs_length _ _ _ _ Hp)|].
  intros j arg Hj. exact (pathArgs_lookup _ _ _ _ _ _ Hp Hj).
Qed.

(** C7. Where the parameters of a route are the path parameters of the
    endpoint in their order, the constructor does what is described:
    without parameter it returns the template, on /widgets/%v and the
    integer 42 it returns /widgets/42, and on /tags/%v and the array of
    strings a, b it returns /tags/a, b. The endpoint list has the path
    parameters id, an integer, and tags, an array of strings, and the
    routes /widgets/{id} and /tags/{tags}. For its second route the
    template is run on the argument tags and the path parameters id, tags
    and reads the type of tags at index 0, where id is: the constructor
    analyze renders passes the array as it is, and returns /tags/[a b] on
    the array of strings a, b. *)
Theorem array_parameter_of_second_route_not_joined :
  forall (E : Env) (FormatFloat : spec_float -> ascii -> Z -> Z -> string),
    let idAtt := MkNamed "id" (attrOf (Primitive IntKind)) in
    let tagsAtt := MkNamed "tags" (attrOf (Array (attrOf (Primitive StringKind)))) in
    let ab := VArray [VString "a"; VString "b"] in
    (forall PathParams PathFormat vals,
        pathInitT [] PathParams PathFormat = Some (ReturnLiteral PathFormat)
        /\ runPath FormatFloat (ReturnLiteral PathFormat) vals = Some PathFormat)
    /\ (pathInitT [pathArgument "id"] [idAtt] "/widgets/%v"
        = Some (ReturnSprintf "/widgets/%v" [ArgVar "id"])
        /\ runPath FormatFloat (ReturnSprintf "/widgets/%v" [ArgVar "id"]) [VInt 42]
           = Some "/widgets/42")
    /\ (pathInitT [pathArgument "tags"] [tagsAtt] "/tags/%v"
        = Some (ReturnSprintf "/tags/%v" [ArgJoin "tags" QueryEscape])
        /\ runPath FormatFloat (ReturnSprintf "/tags/%v" [ArgJoin "tags" QueryEscape]) [ab]
           = Some "/tags/a, b")
    /\ (pathInitT [pathArgument "tags"] [idAtt; tagsAtt] "/tags/%v"
        = Some (ReturnSprintf "/tags/%v" [ArgVar "tags"])
        /\ runPath FormatFloat (ReturnSprintf "/tags/%v" [ArgVar "tags"]) [ab]
           = Some "/tags/[a b]")
    /\ (forall (ToUpper : string -> string) (renderPathInit : PathPlan -> string),
          let P := plainEnv ∅ noTransformError in
          match @buildRoutes P listWildcards listFormat ToUpper renderPathInit
                  widgetsService listEndpoint listRoutes (emptyServiceData P []) with
          | Some (rs, _) =>
              map (fun r => InitData.ClientCode (RouteData.PathInit r)) rs
              = [renderPathInit (ReturnSprintf "/widgets/%v" [ArgVar "id"]);
                 renderPathInit (ReturnSprintf "/tags/%v" [ArgVar "tags"])]
          | None => False
          end).
Proof.
  intros E FormatFloat idAtt tagsAtt ab.
  split; [intros; split; reflexivity|].
  split; [split; reflexivity|].
  split; [split; reflexivity|].
  split; [split; reflexivity|].
  intros ToUpper renderPathInit P. vm_compute. reflexivity.
Qed.

(* --------------------------------------------------------------------- *)
(* The responses of a result                                             *)
(* --------------------------------------------------------------------- *)

Section ResultFacts.
Context `{Env}.

Lemma responsesLoop_spec (build : HTTPResponseExpr -> M ResponseData.t) :
forall vs i notag responses sd notag' responses' sd' srcs,
  responsesLoop build i vs notag responses sd = Some ((notag', responses'), sd') ->
  Forall2 (BuiltFrom build) srcs responses ->
  loopInv i notag srcs ->
  Forall2 (BuiltFrom build) (srcs ++ keptFrom (notag >? -1)%Z vs) responses'
  /\ loopInv (i + Z.of_nat (length vs)) notag' (srcs ++ keptFrom (notag >? -1)%Z vs).
Proof.
induction vs as [|v r IH]; intros i notag responses sd notag' responses' sd' srcs Hl Hb Hinv.
- simpl in Hl. unfold ret in Hl. injection Hl as <- <- <-. simpl.
  rewrite app_nil_r, Z.add_0_r. split; assumption.
- simpl in Hl. simpl keptFrom.
  destruct (tagless v && (notag >? -1)%Z) eqn:Hskip.
  + apply andb_true_iff in Hskip as [Htag Hgt]. rewrite Hgt in *.
    destruct (IH _ _ _ _ _ _ _ _ Hl Hb) as [Hf Hi].
    { destruct Hinv as [Hi0 Hinv]. split; [lia|].
      destruct Hinv as [(Hn & _)|Hinv]; [|right; exact Hinv].
      apply Z.gtb_lt in Hgt. lia. }
    rewrite Hgt in Hf, Hi.
    split; [assumption|].
    replace (i + Z.of_nat (length (v :: r)))%Z with (i + 1 + Z.of_nat (length r))%Z
      by (simpl length; lia).
    assumption.
  + apply bind_Some in Hl as (rd & sd1 & Hbuild & Hl).
    assert (Hgt : ((if tagless v then i else notag) >? -1)%Z
                  = ((notag >? -1)%Z || tagless v)).
    { destruct Hinv as [Hi0 _]. destruct (tagless v); [|rewrite orb_false_r; reflexivity].
      rewrite orb_true_r. apply Z.gtb_lt. lia. }
    destruct (IH _ _ _ _ _ _ _ (srcs ++ [v])%list Hl) as [Hf Hi].
    { apply Forall2_app; [assumption|]. constructor; [|constructor].
      exists sd, sd1. assumption. }
    { destruct Hinv as [Hi0 Hinv]. split; [lia|].
      destruct (tagless v) eqn:Htag.
      - right. simpl in Hskip.
        destruct Hinv as [(Hn & Hlen & Hall)|(Hn & _)];
          [|destruct (Z.gtb_spec notag (-1)); [discriminate | lia]].
        split; [lia|]. split.
        + exists v. split; [|assumption].
          rewrite lookup_app_r by lia.
          replace (Z.to_nat i - length srcs) with 0 by lia. reflexivity.
        + intros j w Hj Hw. destruct (decide (j < length srcs)) as [Hlt|Hge].
          * rewrite lookup_app_l in Hj by assumption.
            rewrite Forall_forall in Hall.
            apply list_elem_of_lookup_2 in Hj. rewrite (Hall _ Hj) in Hw. discriminate.
          * apply lookup_lt_Some in Hj. rewrite length_app in Hj. simpl in Hj. lia.
      - destruct Hinv as [(Hn & Hlen & Hall)|(Hn & (w & Hw & Hwt) & Huniq)].
        + left. split; [assumption|]. split; [rewrite length_app; simpl; lia|].
          apply Forall_app. split; [assumption|]. constructor; [assumption|constructor].
        + right. split; [assumption|]. split.
          * exists w. split; [|assumption]. apply lookup_app_l_Some. assumption.
          * intros j x Hj Hx. destruct (decide (j < length srcs)) as [Hlt|Hge].
            -- rewrite lookup_app_l in Hj by assumption. eapply Huniq; eassumption.
            -- rewrite lookup_app_r in Hj by lia.
               destruct (j - length srcs) as [|k]; simpl in Hj; [|discriminate].
               injection Hj as <-. congruence. }
    rewrite Hgt in Hf, Hi. rewrite <- app_assoc in Hf, Hi. simpl in Hf, Hi.
    split; [assumption|].
    replace (i + Z.of_nat (length (v :: r)))%Z with (i + 1 + Z.of_nat (length r))%Z
      by (simpl length; lia).
    assumption.
Qed.

Lemma taglessLast_length {A : Type} notag (l : list A) :
length (taglessLast notag l) = length l.
Proof.
unfold taglessLast. destruct ((notag >=? 0)%Z && _); [|reflexivity].
destruct (l !! Z.to_nat notag); [|reflexivity].
destruct (l !! Z.to_nat (Z.of_nat (length l) - 1)); [|reflexivity].
rewrite !length_insert. reflexivity.
Qed.

Lemma taglessLast_Forall2 {A B : Type} (R : A -> B -> Prop) notag l k :
Forall2 R l k -> Forall2 R (taglessLast notag l) (taglessLast notag k).
Proof.
intros Hf. unfold taglessLast. rewrite <- (Forall2_length _ _ _ Hf).
destruct ((notag >=? 0)%Z && _); [|assumption].
destruct (l !! Z.to_nat notag) as [a|] eqn:Ha.
- destruct (Forall2_lookup_l _ _ _ _ _ Hf Ha) as (a' & -> & Hra).
  destruct (l !! Z.to_nat (Z.of_nat (length l) - 1)) as [b|] eqn:Hb.
  + destruct (Forall2_lookup_l _ _ _ _ _ Hf Hb) as (b' & -> & Hrb).
    apply Forall2_insert; [|assumption]. apply Forall2_insert; assumption.
  + destruct (k !! Z.to_nat (Z.of_nat (length l) - 1)) as [b'|] eqn:Hb'; [|assumption].
    destruct (Forall2_lookup_r _ _ _ _ _ Hf Hb') as (b & Hb2 & _). congruence.
- destruct (k !! Z.to_nat notag) as [a'|] eqn:Ha'; [|assumption].
  destruct (Forall2_lookup_r _ _ _ _ _ Hf Ha') as (a & Ha2 & _). congruence.
Qed.

(** After the exchange the definition without a tag, if there is one, is the
  last one. *)
Lemma taglessLast_position i notag (srcs : list HTTPResponseExpr) :
loopInv i notag srcs ->
forall j w, taglessLast notag srcs !! j = Some w -> tagless w = true ->
            S j = length (taglessLast notag srcs).
Proof.
intros [_ Hinv] j w Hj Hw. rewrite taglessLast_length.
destruct Hinv as [(Hn & _ & Hall)|(Hn & (v & Hv & Hvt) & Huniq)].
- exfalso. unfold taglessLast in Hj.
  replace (notag >=? 0)%Z with false in Hj
    by (destruct (Z.geb_spec notag 0); [lia | reflexivity]).
  simpl in Hj. rewrite Forall_forall in Hall.
  apply list_elem_of_lookup_2 in Hj. rewrite (Hall _ Hj) in Hw. discriminate.
- pose proof (lookup_lt_Some _ _ _ Hv) as Hlt.
  unfold taglessLast in Hj.
  replace (notag >=? 0)%Z with true in Hj by (symmetry; apply Z.geb_le; lia).
  simpl in Hj.
  destruct (notag <? Z.of_nat (length srcs) - 1)%Z eqn:Hcmp.
  + apply Z.ltb_lt in Hcmp. rewrite Hv in Hj.
    destruct (srcs !! Z.to_nat (Z.of_nat (length srcs) - 1)) as [b|] eqn:Hb.
    * assert (Hbt : tagless b = false).
      { destruct (tagless b) eqn:Hbt; [|reflexivity].
        pose proof (Huniq _ _ Hb Hbt). lia. }
      destruct (decide (j = Z.to_nat notag)) as [->|Hne1].
      { rewrite list_lookup_insert_eq in Hj by (rewrite length_insert; lia).
        injection Hj as <-. congruence. }
      rewrite list_lookup_insert_ne in Hj by congruence.
      destruct (decide (j = Z.to_nat (Z.of_nat (length srcs) - 1))) as [->|Hne2]; [lia|].
      rewrite list_lookup_insert_ne in Hj by congruence.
      pose proof (Huniq _ _ Hj Hw). contradiction.
    * apply lookup_ge_None in Hb. lia.
  + apply Z.ltb_ge in Hcmp. pose proof (Huniq _ _ Hj Hw). lia.
Qed.

Lemma buildResultData_responses svc e sd rd sd' :
buildResultData svc e sd = Some (rd, sd') ->
exists result pkg viewed notag,
  let vs := taglessLast notag (keptFrom false (Responses e)) in
  Forall2 (BuiltFrom (buildResponseData svc e result pkg viewed)) vs
    (ResultData.Responses rd)
  /\ forall j w, vs !! j = Some w -> tagless w = true -> S j = length vs.
Proof.
intros Hb. unfold buildResultData in Hb.
apply bind_Some in Hb as (view & sd1 & _ & Hb).
apply bind_Some in Hb as (sd2 & sd3 & _ & Hb).
destruct (negb (isEmpty (Type_ (Result e)))).
all: apply bind_Some in Hb as ([[result pkg] viewed] & sd4 & _ & Hb).
all: apply bind_Some in Hb as ([notag responses] & sd5 & Hloop & Hb).
all: unfold ret in Hb; injection Hb as <- <-; simpl.
all: destruct (responsesLoop_spec _ _ _ _ _ _ _ _ _ [] Hloop) as [Hf Hinv];
  [constructor | split; [lia|]; left; split; [reflexivity|]; split; [reflexivity|constructor] |].
all: simpl in Hf, Hinv; exists result, pkg, viewed, notag; split;
  [apply taglessLast_Forall2; assumption | eapply taglessLast_position; eassumption].
Qed.
End ResultFacts.


(** C10. The responses buildResultData returns are built, one each, from
    the response definitions of the endpoint that have a tag and from the
    first one that has none, the later ones without a tag being skipped; a
    response built from a definition without a tag is the last of the list,
    so there is at most one. *)
Theorem tagless_response_unique_and_last :
  forall (E : Env) (svc : ServiceInfo) (e : EndpointExpr) (sd : ServiceData),
    match buildResultData svc e sd with
    | Some (rd, _) =>
        exists result pkg viewed notag,
          let vs := taglessLast notag (keptFrom false (Responses e)) in
          Forall2 (BuiltFrom (buildResponseData svc e result pkg viewed)) vs
            (ResultData.Responses rd)
          /\ (forall j w, vs !! j = Some w -> tagless w = true -> S j = length vs)
          /\ (forall j1 j2 w1 w2,
                vs !! j1 = Some w1 -> vs !! j2 = Some w2 ->
                tagless w1 = true -> tagless w2 = true -> j1 = j2)
    | None => True
    end.
Proof.
  intros E svc e sd.
  destruct (buildResultData svc e sd) as [[rd sd']|] eqn:Hb; [|exact I].
  destruct (buildResultData_responses _ _ _ _ _ Hb)
    as (result & pkg & viewed & notag & Hf & Hlast).
  exists result, pkg, viewed, notag. simpl. split; [assumption|]. split; [assumption|].
  intros j1 j2 w1 w2 H1 H2 Ht1 Ht2.
  pose proof (Hlast _ _ H1 Ht1). pose proof (Hlast _ _ H2 Ht2). lia.
Qed.

(** The endpoint show declares a response without a tag, one with the tag
    name and another without a tag: two responses are built, the one
    without a tag last. *)
Lemma show_responses_tagless_last :
  let E := plainEnv widgetTypes noTransformError in
  keptFrom false (Responses showEndpoint) = [okResponse ("", ""); okResponse ("name", "a")]
  /\ (ResultData.Responses <$>
        (fst <$> @buildResultData E widgetsService showEndpoint (emptyServiceData E [])))
       ≫= (fun rs => Some (map ResponseData.TagName rs))
     = Some ["name"; ""].
Proof. vm_compute. split; reflexivity. Qed.

(* --------------------------------------------------------------------- *)
(* The schemes of an endpoint                                            *)
(* --------------------------------------------------------------------- *)

Section SchemeFacts.
Variable SchemeName : SchemeData -> string.


Lemma schemeFound_iff s d :
  schemeFound SchemeName s d = true <-> SchemeName d ∈ (SchemeName <$> s).
Proof.
  induction s as [|se r IH]; csimpl.
  - split; [discriminate | inversion 1].
  - rewrite elem_of_cons, <- IH.
    destruct (String.eqb_spec (SchemeName se) (SchemeName d)) as [Heq|Hne].
    + split; [intros _; left; congruence | reflexivity].
    + split; [intros Hf; right; assumption | intros [Heq|Hf]; [congruence | assumption]].
Qed.

Lemma appendUnique_names s d :
  forall n, n ∈ (SchemeName <$> appendUnique SchemeName s d)
            <-> n ∈ (SchemeName <$> s) \/ n = SchemeName d.
Proof.
  intros n. unfold appendUnique.
  destruct (schemeFound SchemeName s d) eqn:Hf.
  - apply schemeFound_iff in Hf. split; [tauto|]. intros [Hn| ->]; assumption.
  - rewrite fmap_app, elem_of_app. simpl. rewrite elem_of_cons.
    split; intros [Hn|Hn]; auto.
    + destruct Hn as [Hn|Hn]; [auto | inversion Hn].
Qed.

Lemma appendUnique_NoDup s d :
  NoDup (SchemeName <$> s) -> NoDup (SchemeName <$> appendUnique SchemeName s d).
Proof.
  intros Hnd. unfold appendUnique.
  destruct (schemeFound SchemeName s d) eqn:Hf; [assumption|].
  rewrite fmap_app. apply NoDup_app. split; [assumption|]. split.
  - intros n Hn Hd. simpl in Hd. apply elem_of_cons in Hd as [->|Hd]; [|inversion Hd].
    apply schemeFound_iff in Hn. congruence.
  - simpl. apply NoDup_singleton.
Qed.

Lemma appendUnique_elem s d x :
  x ∈ appendUnique SchemeName s d -> x ∈ s \/ x = d.
Proof.
  unfold appendUnique. destruct (schemeFound SchemeName s d); [auto|].
  rewrite elem_of_app, elem_of_cons. intros [Hx|[Hx|Hx]]; auto. inversion Hx.
Qed.

Lemma appendUnique_keeps s d x : x ∈ s -> x ∈ appendUnique SchemeName s d.
Proof.
  unfold appendUnique. destruct (schemeFound SchemeName s d); [auto|].
  intros Hx. apply elem_of_app. auto.
Qed.

(** X1. appendUnique adds a scheme at the end unless one of the same name is
    there: the list it returns extends the one it received, holds a scheme
    of that name, and is not changed by appending the scheme again. It
    returns the list it received exactly when the name was there, and the
    number of schemes of that name only grows from none to one. *)
Theorem appendUnique_once :
  forall (s : list SchemeData) (d : SchemeData),
    (exists tail, appendUnique SchemeName s d = (s ++ tail)%list /\ (tail = [] \/ tail = [d]))
    /\ SchemeName d ∈ (SchemeName <$> appendUnique SchemeName s d)
    /\ appendUnique SchemeName (appendUnique SchemeName s d) d = appendUnique SchemeName s d
    /\ (SchemeName d ∈ (SchemeName <$> s) <-> appendUnique SchemeName s d = s)
    /\ length (filter (fun x => SchemeName x = SchemeName d) (appendUnique SchemeName s d))
       = Nat.max 1 (length (filter (fun x => SchemeName x = SchemeName d) s)).
Proof.
  intros s d.
  assert (Hname : SchemeName d ∈ (SchemeName <$> appendUnique SchemeName s d)).
  { apply appendUnique_names. right. reflexivity. }
  split; [|split; [assumption|split; [|split]]].
  - unfold appendUnique. destruct (schemeFound SchemeName s d).
    + exists []. rewrite app_nil_r. auto.
    + exists [d]. auto.
  - apply schemeFound_iff in Hname.
    unfold appendUnique at 1. rewrite Hname. reflexivity.
  - rewrite <- schemeFound_iff. unfold appendUnique.
    destruct (schemeFound SchemeName s d); split; try reflexivity; try discriminate.
    intros Heq. apply (f_equal length) in Heq. rewrite length_app in Heq. simpl in Heq. lia.
  - unfold appendUnique. destruct (schemeFound SchemeName s d) eqn:Hf.
    + apply schemeFound_iff in Hf. apply list_elem_of_fmap in Hf as (x & Hx & Hin).
      assert (Hpos : 0 < length (filter (fun x => SchemeName x = SchemeName d) s)).
      { destruct (filter (fun x => SchemeName x = SchemeName d) s) eqn:Hfl; [|simpl; lia].
        exfalso. assert (Hxin : x ∈ filter (fun x => SchemeName x = SchemeName d) s).
        { apply list_elem_of_filter. split; [congruence | assumption]. }
        rewrite Hfl in Hxin. inversion Hxin. }
      lia.
    + rewrite filter_app, length_app.
      assert (Hz : filter (fun x => SchemeName x = SchemeName d) s = []).
      { destruct (filter (fun x => SchemeName x = SchemeName d) s) as [|y l] eqn:Hfl;
          [reflexivity|].
        exfalso. assert (Hy : y ∈ filter (fun x => SchemeName x = SchemeName d) s)
          by (rewrite Hfl; left).
        apply list_elem_of_filter in Hy as [Hy Hin].
        assert (Hn : schemeFound SchemeName s d = true).
        { apply schemeFound_iff. rewrite <- Hy. apply list_elem_of_fmap_2. assumption. }
        congruence. }
      rewrite Hz. simpl. rewrite filter_cons_True by reflexivity. reflexivity.
Qed.

End SchemeFacts.

Section EndpointSchemeFacts.
Variable SchemeName : SchemeData -> string.
Variable SchemeIn : SchemeData -> string.

Lemma endpointSchemes_fold reqs :
  endpointSchemes SchemeName SchemeIn reqs
  = fold_left (addScheme SchemeName SchemeIn) (concat (map Schemes reqs))
      (MkEndpointSchemes [] [] [] None).
Proof.
  unfold endpointSchemes. generalize (MkEndpointSchemes [] [] [] None).
  induction reqs as [|r rs IH]; intros acc; simpl; [reflexivity|].
  rewrite fold_left_app. apply IH.
Qed.

Lemma schemes_by_location (all : list SchemeData) :
  let r := fold_left (addScheme SchemeName SchemeIn) all (MkEndpointSchemes [] [] [] None) in
  (NoDup (SchemeName <$> hsch r) /\ NoDup (SchemeName <$> qsch r)
   /\ NoDup (SchemeName <$> bosch r))
  /\ (forall x, x ∈ hsch r ->
        x ∈ all /\ SchemeType x <> "Basic" /\ SchemeIn x = "header")
  /\ (forall x, x ∈ qsch r ->
        x ∈ all /\ SchemeType x <> "Basic" /\ SchemeIn x = "query")
  /\ (forall x, x ∈ bosch r ->
        x ∈ all /\ SchemeType x <> "Basic" /\ SchemeIn x <> "query"
        /\ SchemeIn x <> "header")
  /\ (forall x, x ∈ all -> SchemeType x <> "Basic" ->
        SchemeName x ∈ (SchemeName <$>
          (if String.eqb (SchemeIn x) "query" then qsch r
           else if String.eqb (SchemeIn x) "header" then hsch r else bosch r)))
  /\ basch r = last (filter (fun x => SchemeType x = "Basic") all).
Proof.
  induction all as [|x all IH] using rev_ind.
  - simpl. split; [repeat split; constructor|].
    split; [intros x Hx; inversion Hx|]. split; [intros x Hx; inversion Hx|].
    split; [intros x Hx; inversion Hx|]. split; [intros x Hx; inversion Hx | reflexivity].
  - rewrite fold_left_app. simpl.
    set (acc := fold_left (addScheme SchemeName SchemeIn) all (MkEndpointSchemes [] [] [] None))
      in *.
    simpl in IH. destruct IH as ((Hnh & Hnq & Hnb) & Hh & Hq & Hb & Hall & Hbasic).
    unfold addScheme.
    destruct (String.eqb_spec (SchemeType x) "Basic") as [Hty|Hty]; simpl.
    { split; [auto|]. split; [|split; [|split; [|split]]].
      - intros y Hy. destruct (Hh y Hy) as (? & ? & ?). rewrite elem_of_app. auto.
      - intros y Hy. destruct (Hq y Hy) as (? & ? & ?). rewrite elem_of_app. auto.
      - intros y Hy. destruct (Hb y Hy) as (? & ? & ? & ?). rewrite elem_of_app. auto.
      - intros y Hy Hny. apply elem_of_app in Hy as [Hy|Hy]; [auto|].
        apply elem_of_cons in Hy as [->|Hy]; [contradiction | inversion Hy].
      - rewrite filter_app, filter_cons_True, filter_nil by assumption.
        symmetry. apply last_snoc. }
    assert (Hlast : last (filter (fun y => SchemeType y = "Basic") (all ++ [x])%list)
                    = last (filter (fun y => SchemeType y = "Basic") all)).
    { rewrite filter_app, filter_cons_False, filter_nil by assumption.
      rewrite app_nil_r. reflexivity. }
    assert (Hold : forall y, y ∈ all -> y ∈ (all ++ [x])%list)
      by (intros y Hy; apply elem_of_app; left; assumption).
    assert (Hnew : x ∈ (all ++ [x])%list)
      by (apply elem_of_app; right; left).
    assert (Hkh : forall y, y ∈ hsch acc ->
              y ∈ (all ++ [x])%list /\ SchemeType y <> "Basic" /\ SchemeIn y = "header")
      by (intros y Hy; destruct (Hh y Hy) as (? & ? & ?); auto).
    assert (Hkq : forall y, y ∈ qsch acc ->
              y ∈ (all ++ [x])%list /\ SchemeType y <> "Basic" /\ SchemeIn y = "query")
      by (intros y Hy; destruct (Hq y Hy) as (? & ? & ?); auto).
    assert (Hkb : forall y, y ∈ bosch acc ->
              y ∈ (all ++ [x])%list /\ SchemeType y <> "Basic" /\ SchemeIn y <> "query"
              /\ SchemeIn y <> "header")
      by (intros y Hy; destruct (Hb y Hy) as (? & ? & ? & ?); auto).
    destruct (String.eqb_spec (SchemeIn x) "query") as [Hin|Hin];
      [|destruct (String.eqb_spec (SchemeIn x) "header") as [Hin2|Hin2]];
      cbn [hsch qsch bosch basch].
    + split; [repeat split; try assumption; apply appendUnique_NoDup; assumption|].
      split; [assumption|]. split; [|split; [assumption|split; [|congruence]]].
      * intros y Hy. apply appendUnique_elem in Hy as [Hy| ->]; auto.
      * intros y Hy Hny. apply elem_of_app in Hy as [Hy|Hy].
        -- specialize (Hall y Hy Hny). destruct (String.eqb (SchemeIn y) "query");
             [apply appendUnique_names; left; assumption | assumption].
        -- apply elem_of_cons in Hy as [->|Hy]; [|inversion Hy].
           rewrite Hin. simpl. apply appendUnique_names. right. reflexivity.
    + split; [repeat split; try assumption; apply appendUnique_NoDup; assumption|].
      split; [|split; [assumption|split; [assumption|split; [|congruence]]]].
      * intros y Hy. apply appendUnique_elem in Hy as [Hy| ->]; auto.
      * intros y Hy Hny. apply elem_of_app in Hy as [Hy|Hy].
        -- specialize (Hall y Hy Hny). destruct (String.eqb (SchemeIn y) "query");
             [assumption|]. destruct (String.eqb (SchemeIn y) "header");
             [apply appendUnique_names; left; assumption | assumption].
        -- apply elem_of_cons in Hy as [->|Hy]; [|inversion Hy].
           destruct (String.eqb_spec (SchemeIn x) "query"); [contradiction|].
           rewrite Hin2. simpl. apply appendUnique_names. right. reflexivity.
    + split; [repeat split; try assumption; apply appendUnique_NoDup; assumption|].
      split; [assumption|]. split; [assumption|]. split; [|split; [|congruence]].
      * intros y Hy. apply appendUnique_elem in Hy as [Hy| ->]; auto.
      * intros y Hy Hny. apply elem_of_app in Hy as [Hy|Hy].
        -- specialize (Hall y Hy Hny). destruct (String.eqb (SchemeIn y) "query");
             [assumption|]. destruct (String.eqb (SchemeIn y) "header");
             [assumption | apply appendUnique_names; left; assumption].
        -- apply elem_of_cons in Hy as [->|Hy]; [|inversion Hy].
           destruct (String.eqb_spec (SchemeIn x) "query"); [contradiction|].
           destruct (String.eqb_spec (SchemeIn x) "header"); [contradiction|].
           apply appendUnique_names. right. reflexivity.
Qed.

(** X2. The schemes of the requirements of a method are sorted by location:
    every scheme that is not of type Basic has its name in exactly the
    list of its location, query, header, or body for any other location;
    each list holds schemes of its location only, under pairwise distinct
    names; the basic scheme is the last scheme of type Basic met. *)
Theorem endpointSchemes_by_location :
  forall (reqs : list RequirementData),
    let all := concat (map Schemes reqs) in
    let r := endpointSchemes SchemeName SchemeIn reqs in
    (NoDup (SchemeName <$> hsch r) /\ NoDup (SchemeName <$> qsch r)
     /\ NoDup (SchemeName <$> bosch r))
    /\ (forall x, x ∈ hsch r ->
          x ∈ all /\ SchemeType x <> "Basic" /\ SchemeIn x = "header")
    /\ (forall x, x ∈ qsch r ->
          x ∈ all /\ SchemeType x <> "Basic" /\ SchemeIn x = "query")
    /\ (forall x, x ∈ bosch r ->
          x ∈ all /\ SchemeType x <> "Basic" /\ SchemeIn x <> "query"
          /\ SchemeIn x <> "header")
    /\ (forall x, x ∈ all -> SchemeType x <> "Basic" ->
          SchemeName x ∈ (SchemeName <$>
            (if String.eqb (SchemeIn x) "query" then qsch r
             else if String.eqb (SchemeIn x) "header" then hsch r else bosch r)))
    /\ basch r = last (filter (fun x => SchemeType x = "Basic") all).
Proof.
  intros reqs. simpl. rewrite endpointSchemes_fold. apply schemes_by_location.
Qed.

End EndpointSchemeFacts.

(* --------------------------------------------------------------------- *)
(* NeedServerResponse                                                    *)
(* --------------------------------------------------------------------- *)

Lemma NeedServerResponse_Exists (rd : ResultData.t) :
  NeedServerResponse (Some rd) = true
  <-> Exists (fun r => ResponseData.ServerBody r <> None \/ ResponseData.Headers r <> [])
        (ResultData.Responses rd).
Proof.
  unfold NeedServerResponse. induction (ResultData.Responses rd) as [|r rs IH].
  - split; [discriminate | inversion 1].
  - rewrite Exists_cons, <- IH. clear IH.
    case_bool_decide as Hs; [split; [|reflexivity]|].
    { intros _. left. left. destruct Hs as [b ->]. discriminate. }
    case_bool_decide as Hh; [split; [|reflexivity]|].
    { intros _. left. right. intros Hnil. rewrite Hnil in Hh. simpl in Hh. lia. }
    split; [right; assumption|]. intros [[Hb|Hb]|Hr]; [| |assumption].
    + exfalso. apply Hs. destruct (ResponseData.ServerBody r); [eexists; reflexivity|congruence].
    + exfalso. apply Hh. destruct (ResponseData.Headers r); [congruence | simpl; lia].
Qed.

Lemma exchange_elem {A : Type} (l : list A) i j a b x :
  l !! i = Some a -> l !! j = Some b ->
  x ∈ <[i := b]> (<[j := a]> l) <-> x ∈ l.
Proof.
  intros Hi Hj.
  pose proof (lookup_lt_Some _ _ _ Hi) as Hli. pose proof (lookup_lt_Some _ _ _ Hj) as Hlj.
  rewrite !list_elem_of_lookup. split; intros [k Hk].
  - destruct (decide (k = i)) as [->|Hki].
    + rewrite list_lookup_insert_eq in Hk by (rewrite length_insert; lia).
      injection Hk as <-. eauto.
    + rewrite list_lookup_insert_ne in Hk by congruence.
      destruct (decide (k = j)) as [->|Hkj].
      * rewrite list_lookup_insert_eq in Hk by lia. injection Hk as <-. eauto.
      * rewrite list_lookup_insert_ne in Hk by congruence. eauto.
  - destruct (decide (k = i)) as [->|Hki].
    + assert (x = a) as -> by congruence.
      destruct (decide (i = j)) as [->|Hij].
      * exists j. rewrite list_lookup_insert_eq by (rewrite length_insert; lia). congruence.
      * exists j. rewrite list_lookup_insert_ne by congruence.
        rewrite list_lookup_insert_eq by lia. reflexivity.
    + destruct (decide (k = j)) as [->|Hkj].
      * assert (x = b) as -> by congruence.
        exists i. rewrite list_lookup_insert_eq by (rewrite length_insert; lia). reflexivity.
      * exists k. rewrite !list_lookup_insert_ne by congruence. assumption.
Qed.

Lemma taglessLast_elem {A : Type} notag (l : list A) x :
  x ∈ taglessLast notag l <-> x ∈ l.
Proof.
  unfold taglessLast. destruct ((notag >=? 0)%Z && _); [|reflexivity].
  destruct (l !! Z.to_nat notag) as [a|] eqn:Ha; [|reflexivity].
  destruct (l !! Z.to_nat (Z.of_nat (length l) - 1)) as [b|] eqn:Hb; [|reflexivity].
  apply exchange_elem; assumption.
Qed.

Lemma Forall2_Exists {A B : Type} (R : A -> B -> Prop) (P : A -> Prop) (Q : B -> Prop) l k :
  Forall2 R l k -> (forall a b, R a b -> (P a <-> Q b)) -> (Exists P l <-> Exists Q k).
Proof.
  intros Hf HR. induction Hf as [|a b l k Hab Hf IH]; [split; inversion 1|].
  rewrite !Exists_cons, IH, (HR _ _ Hab). reflexivity.
Qed.

Section ResponseFacts.
Context `{Env}.

(** The server body and the headers of a response that was built. *)
Lemma buildResponseData_body_headers svc e result pkg viewed v r :
  BuiltFrom (buildResponseData svc e result pkg viewed) v r ->
  (ResponseData.ServerBody r = None <-> Type_ (RBody v) = Empty)
  /\ exists obj, AsObject (Type_ (MAttribute (RHeaders v))) = Some obj
                 /\ length (ResponseData.Headers r) = length obj.
Proof.
  intros (sd & sd' & Hb). unfold buildResponseData in Hb.
  apply bind_Some in Hb as (origin & sd1 & _ & Hb).
  apply bind_Some in Hb as (init & sd2 & _ & Hb).
  apply bind_Some in Hb as (headersData & sd3 & Hh & Hb).
  apply bind_Some in Hb as (serverBodyData & sd4 & Hs & Hb).
  apply bind_Some in Hb as (clientBodyData & sd5 & _ & Hb).
  apply bind_Some in Hb as (u & sd6 & _ & Hb).
  unfold ret in Hb. injection Hb as <- <-. simpl. split.
  - pose proof (buildBodyType_result svc e (RBody v) result false true viewed pkg sd3) as Hr.
    rewrite Hs in Hr. exact Hr.
  - unfold extractHeaders in Hh.
    apply bind_Some in Hh as (obj & sd7 & Ho & Hh).
    apply must_Some in Ho as [Ho ->]. exists obj. split; [assumption|].
    eapply mapM_length. eassumption.
Qed.

End ResponseFacts.

(** X3. The server response of an endpoint is needed exactly when one of the
    response definitions buildResultData builds a response from, those with
    a tag and the first one without, has a body that is not Empty or
    declares a header. *)
Theorem NeedServerResponse_iff_body_or_header :
  forall (E : Env) (svc : ServiceInfo) (e : EndpointExpr) (sd : ServiceData),
    NeedServerResponse None = false
    /\ match buildResultData svc e sd with
       | Some (rd, _) =>
           NeedServerResponse (Some rd) = true
           <-> exists v, v ∈ keptFrom false (Responses e)
                 /\ (Type_ (RBody v) <> Empty
                     \/ exists obj, AsObject (Type_ (MAttribute (RHeaders v))) = Some obj
                                    /\ obj <> [])
       | None => True
       end.
Proof.
  intros E svc e sd. split; [reflexivity|].
  destruct (buildResultData svc e sd) as [[rd sd']|] eqn:Hb; [|exact I].
  destruct (buildResultData_responses _ _ _ _ _ Hb)
    as (result & pkg & viewed & notag & Hf & _). simpl in Hf.
  rewrite NeedServerResponse_Exists.
  rewrite <- (Forall2_Exists _
    (fun v => Type_ (RBody v) <> Empty
              \/ exists obj, AsObject (Type_ (MAttribute (RHeaders v))) = Some obj /\ obj <> [])
    _ _ _ Hf).
  - rewrite Exists_exists. split; intros (v & Hv & HP); exists v; split; try assumption.
    + apply taglessLast_elem in Hv. assumption.
    + apply taglessLast_elem. assumption.
  - intros v r Hvr.
    destruct (buildResponseData_body_headers _ _ _ _ _ _ _ Hvr) as (Hbody & obj & Ho & Hlen).
    rewrite Hbody. split.
    + intros [Hne|(obj' & Ho' & Hne)]; [left; assumption|right].
      assert (obj' = obj) as -> by congruence.
      destruct (ResponseData.Headers r); [|discriminate].
      destruct obj; [congruence | discriminate].
    + intros [Hne|Hne]; [left; assumption|right]. exists obj. split; [assumption|].
      intros ->. apply Hne. destruct (ResponseData.Headers r); [reflexivity | discriminate].
Qed.

(* --------------------------------------------------------------------- *)
(* The routes of an endpoint                                             *)
(* --------------------------------------------------------------------- *)

Lemma to_int_nonnil z :
  Z.to_int z <> Decimal.Pos Decimal.Nil /\ Z.to_int z <> Decimal.Neg Decimal.Nil.
Proof.
  destruct z as [|p|p]; simpl; split; try discriminate; intros Heq; injection Heq as Heq;
    exact (DecimalPos.Unsigned.to_uint_nonnil _ Heq).
Qed.

Lemma formatInt_inj a b : formatInt a = formatInt b -> a = b.
Proof.
  intros Heq. apply DecimalZ.to_int_inj.
  destruct (to_int_nonnil a) as [Ha1 Ha2]. destruct (to_int_nonnil b) as [Hb1 Hb2].
  pose proof (NilZero.isi _ Ha1 Ha2) as Ha. pose proof (NilZero.isi _ Hb1 Hb2) as Hb.
  unfold formatInt in Heq. rewrite Heq in Ha. congruence.
Qed.

Lemma formatInt_nonempty a : formatInt a <> "".
Proof.
  intros Heq. destruct (to_int_nonnil a) as [Ha1 Ha2].
  pose proof (NilZero.isi _ Ha1 Ha2) as Ha. unfold formatInt in Heq. rewrite Heq in Ha.
  discriminate.
Qed.

Lemma append_cancel (p a b : string) : p ++ a = p ++ b -> a = b.
Proof.
  induction p as [|c p IH]; simpl; [auto|]. intros Heq. injection Heq as Heq. auto.
Qed.

(** The names of the path constructors tell the routes apart. *)
Lemma pathInitName_inj ep svc i j :
  (0 <= i)%Z -> (0 <= j)%Z -> pathInitName ep svc i = pathInitName ep svc j -> i = j.
Proof.
  intros Hi Hj Heq. unfold pathInitName in Heq.
  do 3 apply append_cancel in Heq.
  destruct (Z.gtb_spec i 0), (Z.gtb_spec j 0).
  - apply formatInt_inj in Heq. lia.
  - exfalso. exact (formatInt_nonempty _ Heq).
  - exfalso. symmetry in Heq. exact (formatInt_nonempty _ Heq).
  - lia.
Qed.

Section RouteFacts.
Context `{Env}.
Variable ExtractRouteWildcards : string -> list string.
Variable wildcardFormat : string -> string.
Variable ToUpper : string -> string.
Variable renderPathInit : PathPlan -> string.

Lemma pathInitArgs_fields e params sd args sd' :
  pathInitArgs e params sd = Some (args, sd') ->
  InitArgData.FieldName <$> args = (fun arg => Goify arg true) <$> params
  /\ Forall (fun a => InitArgData.Required a = true) args.
Proof.
  unfold pathInitArgs. revert sd args sd'.
  induction params as [|arg params IH]; intros sd args sd' Hm; simpl in Hm.
  - unfold ret in Hm. injection Hm as <- <-. split; [reflexivity | constructor].
  - apply bind_Some in Hm as (a & sd1 & Ha & Hm).
    apply bind_Some in Hm as (rest & sd2 & Hrest & Hm).
    unfold ret in Hm. injection Hm as <- <-.
    destruct (IH _ _ _ Hrest) as [Hf Hr].
    apply bind_Some in Ha as (obj & sd3 & _ & Ha).
    apply bind_Some in Ha as (name & sd4 & _ & Ha).
    apply bind_Some in Ha as (att & sd5 & _ & Ha).
    apply bind_Some in Ha as (sd6 & sd7 & _ & Ha).
    unfold ret in Ha. injection Ha as <- <-. csimpl. split.
    + f_equal. assumption.
    + constructor; [reflexivity | assumption].
Qed.

Lemma buildRoute_spec svc e verb i rpath sd r sd' :
  buildRoute ExtractRouteWildcards wildcardFormat ToUpper renderPathInit
    svc e verb i rpath sd = Some (r, sd') ->
  RouteOf ExtractRouteWildcards ToUpper svc e i verb rpath r.
Proof.
  intros Hb. unfold buildRoute in Hb.
  apply bind_Some in Hb as (initArgs & sd1 & Hargs & Hb).
  apply bind_Some in Hb as (plan & sd2 & _ & Hb).
  unfold ret in Hb. injection Hb as <- <-.
  destruct (pathInitArgs_fields _ _ _ _ _ Hargs) as [Hf Hr].
  unfold RouteOf. simpl. repeat split; assumption.
Qed.

Lemma buildRoutePaths_spec svc e verb paths :
  forall i sd i' rs sd',
    buildRoutePaths ExtractRouteWildcards wildcardFormat ToUpper renderPathInit
      svc e verb i paths sd = Some ((i', rs), sd') ->
    i' = (i + Z.of_nat (length paths))%Z
    /\ length rs = length paths
    /\ forall j r, rs !! j = Some r ->
         exists rpath, paths !! j = Some rpath
           /\ RouteOf ExtractRouteWildcards ToUpper svc e (i + Z.of_nat j) verb rpath r.
Proof.
  induction paths as [|rpath paths IH]; intros i sd i' rs sd' Hb; simpl in Hb.
  - unfold ret in Hb. injection Hb as <- <- <-. simpl.
    split; [lia|]. split; [reflexivity|]. intros j r Hj. inversion Hj.
  - apply bind_Some in Hb as (rd & sd1 & Hrd & Hb).
    apply bind_Some in Hb as ([i2 rs2] & sd2 & Hrest & Hb).
    unfold ret in Hb. simpl in Hb. injection Hb as <- <- <-.
    destruct (IH _ _ _ _ _ Hrest) as (-> & Hlen & Hrs).
    split; [simpl; lia|]. split; [simpl; congruence|].
    intros [|j] r Hj; simpl in Hj.
    + injection Hj as <-. exists rpath. split; [reflexivity|].
      replace (i + Z.of_nat 0)%Z with i by lia. eapply buildRoute_spec. eassumption.
    + destruct (Hrs _ _ Hj) as (p & Hp & Hr). exists p. split; [assumption|].
      replace (i + Z.of_nat (S j))%Z with (i + 1 + Z.of_nat j)%Z by lia. assumption.
Qed.

Lemma buildRoutesFrom_spec svc e routes :
  forall i sd rs sd',
    buildRoutesFrom ExtractRouteWildcards wildcardFormat ToUpper renderPathInit
      svc e i routes sd = Some (rs, sd') ->
    length rs = length (routePaths routes)
    /\ forall j r, rs !! j = Some r ->
         exists verb rpath, routePaths routes !! j = Some (verb, rpath)
           /\ RouteOf ExtractRouteWildcards ToUpper svc e (i + Z.of_nat j) verb rpath r.
Proof.
  induction routes as [|rt routes IH]; intros i sd rs sd' Hb; simpl in Hb.
  - unfold ret in Hb. injection Hb as <- <-. split; [reflexivity|].
    intros j r Hj. inversion Hj.
  - apply bind_Some in Hb as ([i1 rs1] & sd1 & Hps & Hb).
    apply bind_Some in Hb as (rs2 & sd2 & Hrest & Hb).
    unfold ret in Hb. simpl in Hb. injection Hb as <- <-.
    destruct (buildRoutePaths_spec _ _ _ _ _ _ _ _ _ Hps) as (-> & Hlen1 & Hrs1).
    destruct (IH _ _ _ _ Hrest) as (Hlen2 & Hrs2).
    unfold routePaths in *. simpl.
    split; [rewrite !length_app, length_map, Hlen1, Hlen2; reflexivity|].
    intros j r Hj. destruct (decide (j < length rs1)) as [Hlt|Hge].
    + rewrite lookup_app_l in Hj by assumption.
      destruct (Hrs1 _ _ Hj) as (p & Hp & Hr). exists (RMethod rt), p.
      split; [|assumption].
      rewrite lookup_app_l by (rewrite length_map; lia).
      rewrite list_lookup_fmap, Hp. reflexivity.
    + rewrite lookup_app_r in Hj by lia.
      destruct (Hrs2 _ _ Hj) as (verb & p & Hp & Hr). exists verb, p. split.
      * rewrite lookup_app_r by (rewrite length_map; lia).
        rewrite length_map, <- Hlen1. assumption.
      * replace (i + Z.of_nat j)%Z
          with (i + Z.of_nat (length (FullPaths rt)) + Z.of_nat (j - length rs1))%Z by lia.
        assumption.
Qed.

End RouteFacts.

(** X4. The routes analyze builds for an endpoint are one for each full path
    of each route of the design, in order; each carries the upper-cased
    method of its route, its path, and a path constructor that takes one
    required argument for each wildcard of the path, the same for server and
    client. The constructor of the first path is named after the method and
    the service, the later ones are numbered from 2, so that no two path
    constructors of an endpoint have the same name. *)
Theorem buildRoutes_one_per_path_distinct_names :
  forall (E : Env) (ExtractRouteWildcards : string -> list string)
         (wildcardFormat ToUpper : string -> string) (renderPathInit : PathPlan -> string)
         (svc : ServiceInfo) (e : EndpointExpr) (routes : list RouteExpr) (sd : ServiceData),
    match buildRoutes ExtractRouteWildcards wildcardFormat ToUpper renderPathInit
            svc e routes sd with
    | Some (rs, _) =>
        length rs = length (routePaths routes)
        /\ (forall j r, rs !! j = Some r ->
              exists verb rpath, routePaths routes !! j = Some (verb, rpath)
                /\ RouteOf ExtractRouteWildcards ToUpper svc e (Z.of_nat j) verb rpath r)
        /\ NoDup (map (fun r => InitData.Name (RouteData.PathInit r)) rs)
    | None => True
    end.
Proof.
  intros E X wf up render svc e routes sd.
  destruct (buildRoutes X wf up render svc e routes sd) as [[rs sd']|] eqn:Hb; [|exact I].
  unfold buildRoutes in Hb.
  destruct (buildRoutesFrom_spec _ _ _ _ _ _ _ _ _ _ _ Hb) as [Hlen Hrs].
  split; [assumption|]. split; [exact Hrs|].
  apply NoDup_alt. intros j1 j2 n H1 H2.
  rewrite list_lookup_fmap in H1, H2.
  destruct (rs !! j1) as [r1|] eqn:Hr1; [|discriminate].
  destruct (rs !! j2) as [r2|] eqn:Hr2; [|discriminate].
  simpl in H1, H2.
  destruct (Hrs _ _ Hr1) as (v1 & p1 & _ & _ & _ & Hn1 & _).
  destruct (Hrs _ _ Hr2) as (v2 & p2 & _ & _ & _ & Hn2 & _).
  simpl in Hn1, Hn2. rewrite Z.add_0_l in Hn1, Hn2.
  assert (Heq : pathInitName (Method e) svc (Z.of_nat j1)
                = pathInitName (Method e) svc (Z.of_nat j2)) by congruence.
  apply pathInitName_inj in Heq; lia.
Qed.

Lemma filter_fmap_field {A : Type} (f : A -> string) (l : list A) :
  f <$> filter (fun a => f a <> "") l = filter (fun n => n <> "") (f <$> l).
Proof.
  induction l as [|a l IH]; [reflexivity|]. csimpl.
  rewrite !filter_cons. csimpl. destruct (decide (f a <> "")); csimpl; congruence.
Qed.

Section FirstRoute.
Context `{Env}.
Variable ExtractRouteWildcards : string -> list string.
Variable wildcardFormat : string -> string.
Variable ToUpper : string -> string.
Variable renderPathInit : PathPlan -> string.

(** The arguments of a path constructor are the ones the loop over the
    wildcards of its path computed, on the server and on the client. *)
Lemma buildRoute_args svc e verb i rpath sd r sd' :
  buildRoute ExtractRouteWildcards wildcardFormat ToUpper renderPathInit
    svc e verb i rpath sd = Some (r, sd') ->
  exists sd1,
    pathInitArgs e (ExtractRouteWildcards rpath) sd
    = Some (InitData.ClientArgs (RouteData.PathInit r), sd1).
Proof.
  intros Hb. unfold buildRoute in Hb.
  apply bind_Some in Hb as (initArgs & sd1 & Hargs & Hb).
  apply bind_Some in Hb as (plan & sd2 & _ & Hb).
  unfold ret in Hb. injection Hb as <- <-. simpl. exists sd1. assumption.
Qed.

(** The first route built is the one of the first path of the routes,
    built on the state analyze started the loop with. *)
Lemma buildRoutesFrom_head svc e routes :
  forall i sd r0 rs sd',
    buildRoutesFrom ExtractRouteWildcards wildcardFormat ToUpper renderPathInit
      svc e i routes sd = Some (r0 :: rs, sd') ->
    exists verb rpath rest sd1,
      routePaths routes = (verb, rpath) :: rest
      /\ pathInitArgs e (ExtractRouteWildcards rpath) sd
         = Some (InitData.ClientArgs (RouteData.PathInit r0), sd1).
Proof.
  induction routes as [|rt routes IH]; intros i sd r0 rs sd' Hb; simpl in Hb.
  - unfold ret in Hb. discriminate.
  - apply bind_Some in Hb as ([i1 rs1] & sd1 & Hps & Hb).
    apply bind_Some in Hb as (rs2 & sd2 & Hrest & Hb).
    unfold ret in Hb. simpl in Hb. injection Hb as Hrs <-.
    unfold routePaths. simpl. destruct (FullPaths rt) as [|rpath paths]; simpl in *.
    + unfold ret in Hps. injection Hps as <- <- <-. simpl in Hrs. subst rs2.
      exact (IH _ _ _ _ _ Hrest).
    + apply bind_Some in Hps as (rd & sd3 & Hrd & Hps).
      apply bind_Some in Hps as ([i2 rs3] & sd4 & _ & Hps).
      unfold ret in Hps. simpl in Hps. injection Hps as <- <- <-.
      simpl in Hrs. injection Hrs as <- <-.
      destruct (buildRoute_args _ _ _ _ _ _ _ _ Hrd) as (sd5 & Hargs).
      eexists (RMethod rt), rpath, _, sd5. split; [reflexivity | assumption].
Qed.

End FirstRoute.

(** X5. The request constructor takes its arguments from the path constructor
    of the first path of the endpoint: they are the arguments of that
    constructor themselves, as the loop over the wildcards of the first path
    computed them, without those that have no field name. Their fields are
    the non-empty Go names of the wildcards of the first path, in order.
    analyze panics there when the routes of the endpoint have no path at
    all. *)
Theorem requestInitArgs_first_route :
  forall (E : Env) (ExtractRouteWildcards : string -> list string)
         (wildcardFormat ToUpper : string -> string) (renderPathInit : PathPlan -> string)
         (svc : ServiceInfo) (e : EndpointExpr) (routes : list RouteExpr) (sd : ServiceData),
    match buildRoutes ExtractRouteWildcards wildcardFormat ToUpper renderPathInit
            svc e routes sd with
    | Some (rs, sd') =>
        match requestInitArgs rs sd' with
        | Some (args, sd'') =>
            sd'' = sd'
            /\ exists verb rpath rest r0 rs' sd1,
                 routePaths routes = (verb, rpath) :: rest
                 /\ rs = r0 :: rs'
                 /\ pathInitArgs e (ExtractRouteWildcards rpath) sd
                    = Some (InitData.ClientArgs (RouteData.PathInit r0), sd1)
                 /\ InitData.ServerArgs (RouteData.PathInit r0)
                    = InitData.ClientArgs (RouteData.PathInit r0)
                 /\ args
                    = filter (fun ca => InitArgData.FieldName ca <> "")
                        (InitData.ClientArgs (RouteData.PathInit r0))
                 /\ InitArgData.FieldName <$> args
                    = filter (fun n => n <> "")
                        ((fun arg => Goify arg true) <$> ExtractRouteWildcards rpath)
        | None => routePaths routes = [] /\ rs = []
        end
    | None => True
    end.
Proof.
  intros E X wf up render svc e routes sd.
  destruct (buildRoutes X wf up render svc e routes sd) as [[rs sd']|] eqn:Hb; [|exact I].
  unfold buildRoutes in Hb.
  destruct (buildRoutesFrom_spec _ _ _ _ _ _ _ _ _ _ _ Hb) as [Hlen Hrs].
  unfold requestInitArgs. destruct rs as [|r0 rs]; simpl.
  - split; [|reflexivity]. destruct (routePaths routes); [reflexivity | discriminate].
  - split; [reflexivity|].
    destruct (buildRoutesFrom_head _ _ _ _ _ _ _ _ _ _ _ _ Hb)
      as (verb & rpath & rest & sd1 & Hp & Hargs).
    destruct (Hrs 0%nat r0 eq_refl) as (verb' & rpath' & Hp' & _ & _ & _ & Hsc & Hf & _).
    rewrite Hp in Hp'. simpl in Hp'. injection Hp' as <- <-.
    exists verb, rpath, rest, r0, rs, sd1.
    split; [assumption|]. split; [reflexivity|]. split; [assumption|].
    split; [assumption|]. split; [reflexivity|].
    simpl in Hf. rewrite <- Hf. apply filter_fmap_field.
Qed.

(* --------------------------------------------------------------------- *)
(* The groups of errors                                                  *)
(* --------------------------------------------------------------------- *)

Lemma concat_Permutation {A : Type} (l k : list (list A)) :
  l ≡ₚ k -> concat l ≡ₚ concat k.
Proof.
  induction 1 as [|x l k _ IH|x y l|l k m _ IH1 _ IH2]; simpl.
  - reflexivity.
  - rewrite IH. reflexivity.
  - rewrite !(assoc app). rewrite (comm app y x). reflexivity.
  - etransitivity; eassumption.
Qed.

Lemma insertString_Permutation k l : insertString k l ≡ₚ k :: l.
Proof.
  induction l as [|x r IH]; simpl; [reflexivity|].
  destruct (String.leb k x); [reflexivity|]. rewrite IH. apply Permutation_swap.
Qed.

Lemma sortStrings_Permutation l : sortStrings l ≡ₚ l.
Proof.
  induction l as [|x r IH]; simpl; [reflexivity|].
  rewrite insertString_Permutation, IH. reflexivity.
Qed.

Lemma addToGroup_Some vals e vals' :
  addToGroup vals e = Some vals' ->
  ErrorGroupData.StatusCode <$> vals' = ErrorGroupData.StatusCode <$> vals
  /\ (Forall groupOK vals -> Forall groupOK vals')
  /\ groupedErrors vals' ≡ₚ (groupedErrors vals ++ [e])%list.
Proof.
  revert vals'. induction vals as [|eg r IH]; intros vals' Ha; simpl in Ha; [discriminate|].
  destruct (String.eqb_spec (ErrorGroupData.StatusCode eg)
              (ResponseData.StatusCode (ErrorData.Response e))) as [Heq|Hne].
  - injection Ha as <-. unfold groupedErrors. csimpl. split; [reflexivity|]. split.
    + intros Hf. inversion Hf as [|? ? [Hne Hall] Hr]; subst. constructor; [|assumption].
      split; simpl.
      * destruct (ErrorGroupData.Errors eg); discriminate.
      * apply Forall_app. split; [assumption|]. constructor; [|constructor].
        unfold errorCode. congruence.
    + rewrite <- !(assoc app). apply Permutation_app_head. apply Permutation_app_comm.
  - destruct (addToGroup r e) as [r'|] eqn:Hr; [|discriminate].
    simpl in Ha. injection Ha as <-.
    destruct (IH _ eq_refl) as (Hc & Hok & Hp). unfold groupedErrors in *. csimpl.
    split; [congruence|]. split.
    + intros Hf. inversion Hf; subst. constructor; auto.
    + rewrite Hp. rewrite (assoc app). reflexivity.
Qed.

Lemma addToGroup_None vals e :
  addToGroup vals e = None -> errorCode e ∉ (ErrorGroupData.StatusCode <$> vals).
Proof.
  induction vals as [|eg r IH]; simpl; intros Ha; csimpl; [inversion 1|].
  destruct (String.eqb_spec (ErrorGroupData.StatusCode eg)
              (ResponseData.StatusCode (ErrorData.Response e))) as [Heq|Hne]; [discriminate|].
  destruct (addToGroup r e) eqn:Hr; [discriminate|].
  rewrite elem_of_cons. intros [Hc|Hc]; [|exact (IH eq_refl Hc)].
  apply Hne. symmetry. exact Hc.
Qed.

(** Each step of the grouping keeps the status codes of the groups
    distinct and the groups well formed, and adds the error. *)
Lemma groupError_spec vals e :
  NoDup (ErrorGroupData.StatusCode <$> vals) -> Forall groupOK vals ->
  NoDup (ErrorGroupData.StatusCode <$> groupError vals e)
  /\ Forall groupOK (groupError vals e)
  /\ groupedErrors (groupError vals e) ≡ₚ (groupedErrors vals ++ [e])%list.
Proof.
  intros Hnd Hok. unfold groupError. destruct (addToGroup vals e) as [vals'|] eqn:Ha.
  - destruct (addToGroup_Some _ _ _ Ha) as (Hc & Hok' & Hp).
    rewrite Hc. auto.
  - apply addToGroup_None in Ha. split; [|split].
    + rewrite fmap_app. apply NoDup_app. split; [assumption|]. split.
      * intros c Hc Hc'. csimpl in Hc'. apply elem_of_cons in Hc' as [->|Hc'];
          [contradiction | inversion Hc'].
      * csimpl. apply NoDup_singleton.
    + apply Forall_app. split; [assumption|]. constructor; [|constructor].
      split; simpl; [discriminate|]. constructor; [reflexivity | constructor].
    + unfold groupedErrors. rewrite fmap_app, concat_app. csimpl.
      rewrite ?app_nil_r. reflexivity.
Qed.

Lemma groupErrors_fold es :
  forall vals,
    NoDup (ErrorGroupData.StatusCode <$> vals) -> Forall groupOK vals ->
    NoDup (ErrorGroupData.StatusCode <$> fold_left groupError es vals)
    /\ Forall groupOK (fold_left groupError es vals)
    /\ groupedErrors (fold_left groupError es vals) ≡ₚ (groupedErrors vals ++ es)%list.
Proof.
  induction es as [|e es IH]; intros vals Hnd Hok; simpl.
  - rewrite app_nil_r. auto.
  - destruct (groupError_spec vals e Hnd Hok) as (Hnd1 & Hok1 & Hp1).
    destruct (IH _ Hnd1 Hok1) as (Hnd2 & Hok2 & Hp2).
    split; [assumption|]. split; [assumption|].
    rewrite Hp2, Hp1, <- (assoc app). reflexivity.
Qed.

Lemma groupErrors_keys (data : gmap string (list ErrorData.t)) keys :
  forall vals,
    NoDup (ErrorGroupData.StatusCode <$> vals) -> Forall groupOK vals ->
    let r := fold_left (fun vals k => fold_left groupError (default [] (data !! k)) vals)
               keys vals in
    NoDup (ErrorGroupData.StatusCode <$> r)
    /\ Forall groupOK r
    /\ groupedErrors r
       ≡ₚ (groupedErrors vals ++ concat ((fun k => default [] (data !! k)) <$> keys))%list.
Proof.
  induction keys as [|k keys IH]; intros vals Hnd Hok; simpl.
  - rewrite app_nil_r. auto.
  - destruct (groupErrors_fold (default [] (data !! k)) vals Hnd Hok) as (Hnd1 & Hok1 & Hp1).
    destruct (IH _ Hnd1 Hok1) as (Hnd2 & Hok2 & Hp2).
    split; [assumption|]. split; [assumption|].
    simpl in Hp2. rewrite Hp2, Hp1, <- (assoc app). reflexivity.
Qed.

(** Grouping loses no error and invents none. *)
Lemma groupErrors_spec (data : gmap string (list ErrorData.t)) :
  NoDup (ErrorGroupData.StatusCode <$> groupErrors data)
  /\ Forall groupOK (groupErrors data)
  /\ groupedErrors (groupErrors data) ≡ₚ concat ((map_to_list data).*2).
Proof.
  unfold groupErrors.
  destruct (groupErrors_keys data (sortStrings (map fst (map_to_list data))) [])
    as (Hnd & Hok & Hp); [constructor | constructor |].
  split; [assumption|]. split; [assumption|].
  simpl in Hp. rewrite Hp. unfold groupedErrors. simpl.
  apply concat_Permutation.
  rewrite (sortStrings_Permutation (map fst (map_to_list data))).
  change (map fst (map_to_list data)) with ((map_to_list data).*1).
  rewrite <- list_fmap_compose.
  assert (Heq : ((fun k => default [] (data !! k)) ∘ fst) <$> map_to_list data
                = (map_to_list data).*2); [|rewrite Heq; reflexivity].
  apply Forall_fmap_ext. apply Forall_forall. intros [k v] Hkv.
  apply elem_of_map_to_list in Hkv. simpl. rewrite Hkv. reflexivity.
Qed.

Lemma appendError_Permutation (data : gmap string (list ErrorData.t)) ref d :
  concat ((map_to_list (appendError data ref d)).*2)
  ≡ₚ (concat ((map_to_list data).*2) ++ [d])%list.
Proof.
  unfold appendError. destruct (data !! ref) as [l|] eqn:Hl; simpl.
  - rewrite <- insert_delete_eq.
    rewrite map_to_list_insert by apply lookup_delete_eq.
    rewrite <- (map_to_list_delete data ref l Hl). csimpl.
    rewrite <- !(assoc app). apply Permutation_app_head. apply Permutation_app_comm.
  - rewrite map_to_list_insert by assumption. csimpl. apply Permutation_cons_append.
Qed.

Lemma appendErrors_Permutation ds :
  forall data : gmap string (list ErrorData.t),
    concat ((map_to_list (fold_left (fun data d => appendError data (ErrorData.Ref d) d)
                            ds data)).*2)
    ≡ₚ (concat ((map_to_list data).*2) ++ ds)%list.
Proof.
  induction ds as [|d ds IH]; intros data; simpl.
  - rewrite app_nil_r. reflexivity.
  - rewrite IH, appendError_Permutation, <- (assoc app). reflexivity.
Qed.

Section ErrorFacts.
Context `{Env}.

Lemma mapM_Forall2 {A B : Type} (f : A -> M B) (R : A -> B -> Prop) (l : list A) sd bs sd' :
  (forall a s b s', f a s = Some (b, s') -> R a b) ->
  mapM f l sd = Some (bs, sd') -> Forall2 R l bs.
Proof.
  intros Hf. revert sd bs sd'.
  induction l as [|a l IH]; intros sd bs sd' Hm; simpl in Hm.
  - unfold ret in Hm. injection Hm as <- <-. constructor.
  - apply bind_Some in Hm as (b & sd1 & Hb & Hm).
    apply bind_Some in Hm as (bs' & sd2 & Hl & Hm).
    unfold ret in Hm. injection Hm as <- <-.
    constructor; [eapply Hf; eassumption | eapply IH; eassumption].
Qed.

Lemma buildErrorData_name_code svc e v sd d sd' :
  buildErrorData svc e v sd = Some (d, sd') ->
  (ErrorData.Name d, errorCode d)
  = (HEName v, statusCodeToHTTPConst (RStatusCode (HEResponse v))).
Proof.
  intros Hb. unfold buildErrorData in Hb.
  apply bind_Some in Hb as (init & sd1 & _ & Hb).
  apply bind_Some in Hb as (r & sd2 & Hr & Hb).
  apply bind_Some in Hb as (sd3 & sd4 & _ & Hb).
  unfold ret in Hb. injection Hb as <- <-. unfold errorCode. simpl. f_equal.
  unfold buildErrorResponse in Hr.
  apply bind_Some in Hr as (s & sd5 & _ & Hr).
  apply bind_Some in Hr as (c & sd6 & _ & Hr).
  apply bind_Some in Hr as (bodies & sd7 & _ & Hr).
  apply bind_Some in Hr as (headers & sd8 & _ & Hr).
  unfold ret in Hr. injection Hr as <- <-. reflexivity.
Qed.

End ErrorFacts.

(** X6. The groups buildErrorsData returns have pairwise distinct status
    codes; no group is empty and the errors of a group have its status
    code; and the errors of the groups are the errors of the endpoint, each
    one once, under the name of its HTTP mapping and the constant of the
    status code of its response. *)
Theorem buildErrorsData_groups_by_status :
  forall (E : Env) (svc : ServiceInfo) (e : EndpointExpr) (errs : list HTTPErrorExpr)
         (sd : ServiceData),
    match buildErrorsData svc e errs sd with
    | Some (groups, _) =>
        NoDup (ErrorGroupData.StatusCode <$> groups)
        /\ Forall groupOK groups
        /\ (fun d => (ErrorData.Name d, errorCode d)) <$> groupedErrors groups
           ≡ₚ (fun v => (HEName v, statusCodeToHTTPConst (RStatusCode (HEResponse v))))
                <$> errs
    | None => True
    end.
Proof.
  intros E svc e errs sd.
  destruct (buildErrorsData svc e errs sd) as [[groups sd']|] eqn:Hb; [|exact I].
  unfold buildErrorsData in Hb.
  apply bind_Some in Hb as (ds & sd1 & Hds & Hb).
  unfold ret in Hb. injection Hb as <- <-.
  destruct (groupErrors_spec
              (fold_left (fun data d => appendError data (ErrorData.Ref d) d) ds ∅))
    as (Hnd & Hok & Hp).
  split; [assumption|]. split; [assumption|].
  rewrite Hp, appendErrors_Permutation, map_to_list_empty. simpl.
  assert (Heq : (fun d => (ErrorData.Name d, errorCode d)) <$> ds
                = (fun v => (HEName v, statusCodeToHTTPConst (RStatusCode (HEResponse v))))
                    <$> errs); [|rewrite Heq; reflexivity].
  pose proof (mapM_Forall2 _
    (fun v d => (ErrorData.Name d, errorCode d)
                = (HEName v, statusCodeToHTTPConst (RStatusCode (HEResponse v))))
    _ _ _ _ (buildErrorData_name_code svc e) Hds) as Hf.
  clear -Hf. induction Hf as [|v d errs ds Hvd _ IH]; csimpl; [reflexivity|].
  rewrite Hvd, IH. reflexivity.
Qed.

(** X7. The response data of an error has a server body type exactly when it
    has a client body type, namely when the body of the response is not
    Empty, so that writing the description of both never meets nil; both
    descriptions name the error. A panic comes from the body type or the
    headers only. *)
Theorem buildErrorResponse_bodies_together :
  forall (E : Env) (svc : ServiceInfo) (e : EndpointExpr) (v : HTTPErrorExpr)
         (init : option InitData.t) (sd : ServiceData),
    let body := RBody (HEResponse v) in
    let att := ErrAttribute (HEError v) in
    match buildErrorResponse svc e v init sd with
    | Some (r, _) =>
        (ResponseData.ServerBody r = None <-> Type_ body = Empty)
        /\ (ResponseData.ClientBody r = None <-> Type_ body = Empty)
        /\ (forall td, ResponseData.ServerBody r = Some td
                       \/ ResponseData.ClientBody r = Some td ->
              TypeData.Description td = errorBodyDescription svc e v td)
        /\ ResponseData.ErrorHeader r = HEName v
        /\ ResponseData.ResultInit r = init
    | None =>
        (Type_ body <> Empty /\ originSource body (Type_ att) = None)
        \/ exists sd1, extractHeaders (RHeaders (HEResponse v)) att false sd1 = None
    end.
Proof.
  intros E svc e v init sd body att. unfold buildErrorResponse. fold body att.
  unfold bind at 1.
  pose proof (buildBodyType_result svc e body att false true false (PkgName svc) sd) as H1.
  destruct (buildBodyType svc e body att false true false (PkgName svc) sd)
    as [[s sd1]|]; [|left; exact H1].
  unfold bind at 1.
  pose proof (buildBodyType_result svc e body att false false false (PkgName svc) sd1) as H2.
  destruct (buildBodyType svc e body att false false false (PkgName svc) sd1)
    as [[c sd2]|]; [|left; exact H2].
  destruct c as [c|].
  - destruct s as [s|]; [|exfalso; assert (Hemp : Type_ body = Empty) by (apply H1; reflexivity);
                           apply H2 in Hemp; discriminate].
    unfold bind, get, setTypeNames, modify, must, ret. simpl.
    match goal with |- context [extractHeaders ?a ?b ?c ?d] =>
      destruct (extractHeaders a b c d) as [[headers sd3]|] eqn:Hh end;
      [|right; eexists; eassumption].
    simpl.
    split; [split; [discriminate | intros Hemp; apply H1 in Hemp; discriminate]|].
    split; [split; [discriminate | intros Hemp; apply H2 in Hemp; discriminate]|].
    split; [|split; reflexivity].
    intros td [Htd|Htd]; injection Htd as <-; reflexivity.
  - unfold bind, ret. simpl.
    match goal with |- context [extractHeaders ?a ?b ?c ?d] =>
      destruct (extractHeaders a b c d) as [[headers sd3]|] eqn:Hh end;
      [|right; eexists; eassumption].
    simpl. split; [exact H1|]. split; [exact H2|]. split; [|split; reflexivity].
    assert (Hs : s = None) by (apply H1, H2; reflexivity).
    intros td [Htd|Htd]; congruence.
Qed.

(* --------------------------------------------------------------------- *)
(* The user types of the bodies                                          *)
(* --------------------------------------------------------------------- *)

(** What every call of the callback preserves is preserved by the
    traversal. *)
Lemma collectUserTypes_preserves {St : Type} (R : St -> St -> Prop)
    (reg : gmap string AttributeExpr) (cb : string -> St -> St) :
  (forall st, R st st) -> (forall a b c, R a b -> R b c -> R a c) ->
  (forall id st, R st (cb id st)) ->
  forall n dt seen st seen' st',
    collectUserTypes n reg dt cb seen st = Some (seen', st') -> R st st'.
Proof.
  intros Hrefl Htrans Hcb.
  induction n as [|n IH]; intros dt seen st seen' st' Hc; [discriminate|].
  destruct dt as [|k|e|k e|nats|id].
  - simpl in Hc. injection Hc as <- <-. apply Hrefl.
  - simpl in Hc. injection Hc as <- <-. apply Hrefl.
  - simpl in Hc. eapply IH. eassumption.
  - simpl in Hc.
    destruct (collectUserTypes n reg (Type_ k) cb seen st) as [[s1 t1]|] eqn:Hk;
      [|discriminate].
    eapply Htrans; eapply IH; eassumption.
  - rewrite collectUserTypes_Object in Hc.
    revert seen st Hc. induction nats as [|x r IHr]; intros seen st Hc; simpl in Hc.
    + injection Hc as <- <-. apply Hrefl.
    + destruct (collectUserTypes n reg (Type_ (Attribute x)) cb seen st)
        as [[s1 t1]|] eqn:Hx; [|discriminate].
      eapply Htrans; [eapply IH; eassumption | eapply IHr; eassumption].
  - simpl in Hc. case_decide as Hin.
    + injection Hc as <- <-. apply Hrefl.
    + destruct (collectUserTypes n reg (attributeTypeOf reg id) cb
                  (Some ({[id]} ∪ default ∅ seen)) (cb id st)) as [[s1 t1]|] eqn:Hr;
        [|discriminate].
      injection Hc as <- <-. eapply Htrans; [apply Hcb | eapply IH; eassumption].
Qed.

Lemma appendedTypes_refl old seen : appendedTypes old old seen seen.
Proof.
  exists []. rewrite app_nil_r. split; [reflexivity|]. split; [constructor|].
  split; [intros n Hn; inversion Hn | set_solver].
Qed.

Lemma appendedTypes_trans o1 o2 o3 s1 s2 s3 :
  appendedTypes o1 o2 s1 s2 -> appendedTypes o2 o3 s2 s3 -> appendedTypes o1 o3 s1 s3.
Proof.
  intros (n1 & -> & Hnd1 & Hfresh1 & ->) (n2 & -> & Hnd2 & Hfresh2 & ->).
  exists (n1 ++ n2)%list. rewrite <- (assoc app). split; [reflexivity|].
  rewrite fmap_app. split; [|split].
  - apply NoDup_app. split; [assumption|]. split; [|assumption].
    intros x Hx1 Hx2. apply (Hfresh2 _ Hx2). set_solver.
  - intros x Hx. apply elem_of_app in Hx as [Hx|Hx]; [auto|].
    intros Hs. apply (Hfresh2 _ Hx). set_solver.
  - rewrite list_to_set_app_L. set_solver.
Qed.

Lemma appendedTypes_one old seen d :
  TypeData.Name d ∉ seen ->
  appendedTypes old (old ++ [d])%list seen ({[TypeData.Name d]} ∪ seen).
Proof.
  intros Hn. exists [d]. split; [reflexivity|]. csimpl. split; [apply NoDup_singleton|].
  split; [|set_solver].
  intros n Hin. apply elem_of_cons in Hin as [->|Hin]; [assumption | inversion Hin].
Qed.

Section BodyTypeFacts.
Context `{Env}.

Lemma bodyTypesExtended_refl sd : bodyTypesExtended sd sd.
Proof.
  unfold bodyTypesExtended. split; [apply appendedTypes_refl|].
  split; [apply appendedTypes_refl|]. repeat split; reflexivity.
Qed.

Lemma bodyTypesExtended_trans a b c :
  bodyTypesExtended a b -> bodyTypesExtended b c -> bodyTypesExtended a c.
Proof.
  intros (Hs1 & Hc1 & Ha1 & Hb1 & Hd1 & He1) (Hs2 & Hc2 & Ha2 & Hb2 & Hd2 & He2).
  unfold bodyTypesExtended.
  split; [eapply appendedTypes_trans; eassumption|].
  split; [eapply appendedTypes_trans; eassumption|].
  repeat split; congruence.
Qed.

(** The server half and the client half of the callback. *)
Lemma serverCallback_extends id req ptr sd :
  bodyTypesExtended sd
    (match attributeTypeData id req ptr true sd with
     | Some (Some d, sd') => appendServerBodyAttributeType d sd'
     | Some (None, sd') => sd'
     | None => sd
     end).
Proof.
  unfold attributeTypeData, bind, get. simpl. case_decide as Hin.
  - apply bodyTypesExtended_refl.
  - unfold bodyTypesExtended. simpl.
    split; [apply (appendedTypes_one _ _ (TypeData.Make _ _ _ _ _ _ _ _ _)); exact Hin|].
    split; [apply appendedTypes_refl|]. repeat split; reflexivity.
Qed.

Lemma clientCallback_extends id req ptr sd :
  bodyTypesExtended sd
    (match attributeTypeData id req ptr false sd with
     | Some (Some d, sd') => appendClientBodyAttributeType d sd'
     | Some (None, sd') => sd'
     | None => sd
     end).
Proof.
  unfold attributeTypeData, bind, get. simpl. case_decide as Hin.
  - apply bodyTypesExtended_refl.
  - unfold bodyTypesExtended. simpl.
    split; [apply appendedTypes_refl|].
    split; [apply (appendedTypes_one _ _ (TypeData.Make _ _ _ _ _ _ _ _ _)); exact Hin|].
    repeat split; reflexivity.
Qed.

Lemma bodyTypeCallback_extends req id sd : bodyTypesExtended sd (bodyTypeCallback req id sd).
Proof.
  unfold bodyTypeCallback. eapply bodyTypesExtended_trans.
  - apply (serverCallback_extends id req true sd).
  - apply clientCallback_extends.
Qed.

Lemma collectBody_extends req dt sd :
  exists sd', collectBody req dt sd = Some sd' /\ bodyTypesExtended sd sd'.
Proof.
  unfold collectBody.
  destruct (collectUserTypes_total Types (bodyTypeCallback req) (collectFuel Types dt)
              dt None sd) as (s' & sd' & Hc & _); [unfold collectFuel; simpl; lia|].
  rewrite Hc. exists sd'. split; [reflexivity|].
  eapply (collectUserTypes_preserves bodyTypesExtended); [..|exact Hc].
  - apply bodyTypesExtended_refl.
  - apply bodyTypesExtended_trans.
  - intros id st. apply bodyTypeCallback_extends.
Qed.

Lemma collectBodies_extends req dts :
  forall sd, exists sd', collectBodies req dts sd = Some sd' /\ bodyTypesExtended sd sd'.
Proof.
  induction dts as [|dt dts IH]; intros sd; simpl.
  - exists sd. split; [reflexivity | apply bodyTypesExtended_refl].
  - destruct (collectBody_extends req dt sd) as (sd1 & -> & H1). simpl.
    destruct (IH sd1) as (sd2 & -> & H2). exists sd2.
    split; [reflexivity | eapply bodyTypesExtended_trans; eassumption].
Qed.

Lemma collectEndpointBodies_extends ea sd :
  exists sd', collectEndpointBodies ea sd = Some sd' /\ bodyTypesExtended sd sd'.
Proof.
  destruct ea as [a errs]. unfold collectEndpointBodies.
  destruct (collectBody_extends true (Type_ (Body a)) sd) as (sd1 & -> & H1). simpl.
  destruct (collectBodies_extends false (map (fun v => Type_ (RBody v)) (Responses a)) sd1)
    as (sd2 & -> & H2). simpl.
  destruct (collectBodies_extends false (map (fun v => Type_ (RBody (HEResponse v))) errs) sd2)
    as (sd3 & -> & H3).
  exists sd3. split; [reflexivity|].
  eapply bodyTypesExtended_trans; [|eassumption].
  eapply bodyTypesExtended_trans; eassumption.
Qed.

Lemma collectAllBodies_extends eps :
  forall sd, exists sd', collectAllBodies eps sd = Some sd' /\ bodyTypesExtended sd sd'.
Proof.
  induction eps as [|ea eps IH]; intros sd; simpl.
  - exists sd. split; [reflexivity | apply bodyTypesExtended_refl].
  - destruct (collectEndpointBodies_extends ea sd) as (sd1 & -> & H1). simpl.
    destruct (IH sd1) as (sd2 & -> & H2). exists sd2.
    split; [reflexivity | eapply bodyTypesExtended_trans; eassumption].
Qed.

End BodyTypeFacts.

(** X8. The last loop of analyze, over the bodies of the requests, responses
    and error responses of all endpoints, always returns. It only appends
    to the body attribute types of the server and of the client, and what
    it appends on a side are types of pairwise distinct names, none of them
    a type name already seen on that side; the names seen on the side grow
    by exactly those names. *)
Theorem collectAllBodies_appends_fresh_types :
  forall (E : Env) (eps : list (EndpointExpr * list HTTPErrorExpr)) (sd : ServiceData),
    exists sd', collectAllBodies eps sd = Some sd' /\ bodyTypesExtended sd sd'.
Proof. intros E eps sd. apply collectAllBodies_extends. Qed.

(* --------------------------------------------------------------------- *)
(* The payload data                                                      *)
(* --------------------------------------------------------------------- *)

Section PayloadFacts.
Context `{Env}.

Lemma mapQueryParamOf_spec e sd mq sd' :
  mapQueryParamOf e sd = Some (mq, sd') ->
  (mq = None <-> MapQueryParams e = None)
  /\ forall q, mq = Some q -> MapQueryParams e = Some "" -> ParamData.Name q = "query".
Proof.
  unfold mapQueryParamOf. destruct (MapQueryParams e) as [n|].
  - intros Hm. apply bind_Some in Hm as ([[[fieldName name] required] pAtt] & sd1 & Hx & Hm).
    apply bind_Some in Hm as (sd2 & sd3 & _ & Hm).
    unfold ret in Hm. injection Hm as <- <-. split; [split; discriminate|].
    intros q Hq Hn. injection Hq as <-. injection Hn as ->. simpl in *.
    unfold ret in Hx. injection Hx as <- <- <- <- <-. reflexivity.
  - unfold ret. intros Hm. injection Hm as <- <-. split; [tauto|]. discriminate.
Qed.

Lemma buildRequestData_shape svc e sd rq mq sd' :
  buildRequestData svc e sd = Some ((rq, mq), sd') ->
  (RequestData.ServerBody rq = None <-> Type_ (Body e) = Empty)
  /\ (RequestData.ClientBody rq = None <-> Type_ (Body e) = Empty)
  /\ length (RequestData.PathParams rq) = length (WalkMappedAttr (PathParams e))
  /\ length (RequestData.QueryParams rq)
     = length (WalkMappedAttr (QueryParams e)) + match MapQueryParams e with Some _ => 1 | None => 0 end
  /\ (forall q, mq = Some q -> MapQueryParams e = Some "" -> ParamData.Name q = "query")
  /\ (mq = None <-> MapQueryParams e = None).
Proof.
  intros Hb. unfold buildRequestData in Hb.
  apply bind_Some in Hb as (s & sd1 & Hs & Hb).
  apply bind_Some in Hb as (c & sd2 & Hc & Hb).
  apply bind_Some in Hb as (ps & sd3 & Hps & Hb).
  apply bind_Some in Hb as (qs & sd4 & Hqs & Hb).
  apply bind_Some in Hb as (hs & sd5 & Hhs & Hb).
  apply bind_Some in Hb as (mq' & sd6 & Hmq & Hb).
  apply bind_Some in Hb as (u & sd7 & _ & Hb).
  unfold ret in Hb. injection Hb as <- <- <-. simpl.
  pose proof (buildBodyType_result svc e (Body e) (Payload e) true true false (PkgName svc) sd)
    as H1. rewrite Hs in H1.
  pose proof (buildBodyType_result svc e (Body e) (Payload e) true false false (PkgName svc) sd1)
    as H2. rewrite Hc in H2.
  destruct (mapQueryParamOf_spec _ _ _ _ Hmq) as [Hnone Hname].
  split; [assumption|]. split; [assumption|].
  split; [eapply mapM_length; eassumption|]. split; [|split; assumption].
  apply mapM_length in Hqs. destruct mq' as [q|].
  - destruct (MapQueryParams e); [|exfalso; assert (Some q = None) by tauto; discriminate].
    rewrite length_app, Hqs. reflexivity.
  - replace (MapQueryParams e) with (@None string) by (symmetry; tauto). lia.
Qed.

Lemma requestArgs_names e rq :
  InitArgData.Name <$> requestArgs e rq
  = ((ParamData.VarName <$> RequestData.PathParams rq)
     ++ (ParamData.VarName <$> RequestData.QueryParams rq)
     ++ (HeaderData.VarName <$> RequestData.Headers rq))%list.
Proof.
  unfold requestArgs. rewrite !fmap_app.
  change (@map) with (@fmap list _). rewrite <- !list_fmap_compose. reflexivity.
Qed.

Lemma bodyArgs_names e scope :
  InitArgData.Name <$> (bodyArgs e scope).1
  = (if isEmpty (Type_ (Body e)) then [] else ["body"])
  /\ InitArgData.Name <$> (bodyArgs e scope).2
     = (if isEmpty (Type_ (Body e)) then [] else ["body"]).
Proof.
  unfold bodyArgs. destruct (isEmpty (Type_ (Body e))); [split; reflexivity|].
  destruct (Type_ (Body e)) as [|k|el|k el|nats|id]; try (split; reflexivity).
  destruct (Validation (utAttribute id)); split; reflexivity.
Qed.

Lemma buildPayloadInit_shape svc e rq sd init sd' :
  buildPayloadInit svc e rq sd = Some (init, sd') ->
  (init = None <-> needInit (Type_ (Payload e)) = false)
  /\ forall i, init = Some i ->
       let names :=
         ((if isEmpty (Type_ (Body e)) then [] else ["body"])
          ++ (ParamData.VarName <$> RequestData.PathParams rq)
          ++ (ParamData.VarName <$> RequestData.QueryParams rq)
          ++ (HeaderData.VarName <$> RequestData.Headers rq))%list in
       InitArgData.Name <$> InitData.ServerArgs i = names
       /\ InitArgData.Name <$> InitData.ClientArgs i = names.
Proof.
  unfold buildPayloadInit. destruct (needInit (Type_ (Payload e))).
  - intros Hb. apply bind_Some in Hb as (name & sd1 & _ & Hb).
    apply bind_Some in Hb as (sd2 & sd3 & _ & Hb).
    destruct (bodyArgs_names e (Scope sd2)) as [Hbs Hbc].
    destruct (bodyArgs e (Scope sd2)) as [bodyServer bodyClient]. simpl in Hbs, Hbc.
    apply bind_Some in Hb as (cli & sd4 & _ & Hb).
    apply bind_Some in Hb as ([[serverCode clientCode] origin] & sd5 & _ & Hb).
    apply bind_Some in Hb as (sd6 & sd7 & _ & Hb).
    unfold ret in Hb. injection Hb as <- <-. split; [split; discriminate|].
    intros i Hi. injection Hi as <-. simpl.
    rewrite !fmap_app, requestArgs_names, Hbs, Hbc. split; reflexivity.
  - unfold ret. intros Hb. injection Hb as <- <-. split; [tauto | discriminate].
Qed.

End PayloadFacts.

(** X9. The payload data of an endpoint. The constructor of the payload is
    built exactly when the payload type is or makes use of a user type, and
    then both its server and its client arguments are, in order, the body
    if the request body is not Empty, the path parameters, the query
    parameters and the headers of the request; the decoder then returns no
    single value. The request has a server body type and a client body type
    exactly when the body is not Empty, one path parameter for each mapped
    attribute, and one query parameter for each mapped attribute plus the
    one that maps all of the query string. An Empty payload has no type
    name; without constructor, parameters and headers, the value decoded
    from the whole query string is called query. *)
Theorem buildPayloadData_shape :
  forall (E : Env) (svc : ServiceInfo) (e : EndpointExpr) (sd : ServiceData),
    match buildPayloadData svc e sd with
    | Some (pd, _) =>
        let rq := PayloadData.Request pd in
        let names :=
          ((if isEmpty (Type_ (Body e)) then [] else ["body"])
           ++ (ParamData.VarName <$> RequestData.PathParams rq)
           ++ (ParamData.VarName <$> RequestData.QueryParams rq)
           ++ (HeaderData.VarName <$> RequestData.Headers rq))%list in
        (RequestData.PayloadInit rq = None <-> needInit (Type_ (Payload e)) = false)
        /\ (forall i, RequestData.PayloadInit rq = Some i ->
              InitArgData.Name <$> InitData.ServerArgs i = names
              /\ InitArgData.Name <$> InitData.ClientArgs i = names
              /\ PayloadData.DecoderReturnValue pd = "")
        /\ (RequestData.ServerBody rq = None <-> Type_ (Body e) = Empty)
        /\ (RequestData.ClientBody rq = None <-> Type_ (Body e) = Empty)
        /\ length (RequestData.PathParams rq) = length (WalkMappedAttr (PathParams e))
        /\ length (RequestData.QueryParams rq)
           = length (WalkMappedAttr (QueryParams e)) + match MapQueryParams e with Some _ => 1 | None => 0 end
        /\ (Type_ (Payload e) = Empty ->
              PayloadData.Name pd = "" /\ PayloadData.Ref pd = "")
        /\ (RequestData.PayloadInit rq = None -> MapQueryParams e = Some "" ->
            firstName (AsObject (Type_ (MAttribute (Params e)))) = None ->
            firstName (AsObject (Type_ (MAttribute (Headers e)))) = None ->
            PayloadData.DecoderReturnValue pd = "query")
    | None => True
    end.
Proof.
  intros E svc e sd.
  destruct (buildPayloadData svc e sd) as [[pd sd']|] eqn:Hb; [|exact I].
  unfold buildPayloadData in Hb.
  apply bind_Some in Hb as ([request0 mq] & sd1 & Hrq & Hb).
  apply bind_Some in Hb as (init & sd2 & Hinit & Hb).
  apply bind_Some in Hb as (sd3 & sd4 & _ & Hb).
  destruct (buildRequestData_shape _ _ _ _ _ _ Hrq) as (Hs & Hc & Hp & Hq & Hname & Hmq).
  destruct (buildPayloadInit_shape _ _ _ _ _ _ Hinit) as (Hnone & Hargs).
  assert (Hnm : forall name ref,
             (name, ref) = (if negb (isEmpty (Type_ (Payload e)))
                            then (GoFullTypeName (Scope sd3) (Payload e) (PkgName svc),
                                  GoFullTypeRef (Scope sd3) (Payload e) (PkgName svc))
                            else ("", "")) ->
             Type_ (Payload e) = Empty -> name = "" /\ ref = "").
  { intros name ref Heq Hemp. rewrite Hemp in Heq. simpl in Heq.
    injection Heq as -> ->. split; reflexivity. }
  destruct (if negb (isEmpty (Type_ (Payload e)))
            then (GoFullTypeName (Scope sd3) (Payload e) (PkgName svc),
                  GoFullTypeRef (Scope sd3) (Payload e) (PkgName svc))
            else ("", "")) as [name ref] eqn:Hnr.
  specialize (Hnm name ref eq_refl).
  apply bind_Some in Hb as (rv & sd5 & Hrv & Hb).
  unfold ret in Hb. injection Hb as <- <-. simpl.
  split; [assumption|]. split; [|split; [assumption|split; [assumption|]]].
  { intros i Hi. subst init. destruct (Hargs i eq_refl) as [Ha1 Ha2].
    split; [assumption|]. split; [assumption|].
    unfold ret in Hrv. injection Hrv as <- _. reflexivity. }
  split; [assumption|]. split; [assumption|]. split; [assumption|].
  intros Hi Hm Hfp Hfh. subst init. rewrite Hfp, Hfh, Hm in Hrv.
  apply bind_Some in Hrv as (q & sd6 & Hq' & Hrv).
  apply must_Some in Hq' as [Hq' _]. unfold ret in Hrv. injection Hrv as <- _.
  apply Hname; assumption.
Qed.

(* --------------------------------------------------------------------- *)
(* The DSL of methods and payloads                                       *)
(* --------------------------------------------------------------------- *)

Lemma emptied_not_empty_object (a : AttributeExpr) :
  Type_ (if isEmptyObject (Type_ a) then setType a Empty else a) <> Object [].
Proof.
  destruct (Type_ a) as [|k|el|k el|[|n nats]|id] eqn:Ha; simpl; rewrite ?Ha; discriminate.
Qed.

Section DSLFacts.
Variable Dup : DataType -> DataType.

Lemma methodDSLArgs_Some suffix fn att args :
  exists a errs, methodDSLArgs suffix fn att args = (Some a, errs)
    /\ (is_Some fn \/ (exists f, last args = Some (DFunc f)) -> Type_ a <> Object [])
    /\ (fn = None -> (forall f, last args <> Some (DFunc f)) ->
        errs = [] /\ Type_ a = Type_ att
        /\ Description a = match head args with
                           | Some (DString d) => d
                           | _ => Description att
                           end).
Proof.
  unfold methodDSLArgs.
  set (att0 := match head args with
               | Some (DString d) => setDescription att d
               | _ => att
               end).
  assert (Hty : Type_ att0 = Type_ att)
    by (unfold att0; destruct (head args) as [[| |d|]|]; reflexivity).
  assert (Hd : Description att0 = match head args with
                                  | Some (DString d) => d
                                  | _ => Description att
                                  end)
    by (unfold att0; destruct (head args) as [[| |d|]|]; reflexivity).
  destruct (last args) as [[f| | |]|] eqn:Hlast; [|destruct fn as [f|]..];
    try destruct (f att0) as [a ferrs] eqn:Hf; eexists _, _;
    (split; [reflexivity|]); split;
    try (intros _; apply emptied_not_empty_object);
    try discriminate;
    try (intros [[? ?]|[? ?]]; discriminate);
    try (intros _ Hno; exfalso; exact (Hno f eq_refl));
    try (intros _ _; auto).
Qed.

End DSLFacts.


Lemma methodDSL_None (Dup : DataType -> DataType) suffix p args :
  (methodDSL Dup suffix p args).1 = None <-> p = DOther \/ exists s, p = DString s.
Proof.
  destruct p as [fn|dt|s|]; simpl.
  - destruct (methodDSLArgs_Some suffix (Some fn) (attrOf (Object [])) args)
      as (a & errs & -> & _). simpl.
    split; [discriminate | intros [?|[? ?]]; discriminate].
  - assert (Hsome : exists a errs,
               (if isUserType dt
                then match args with
                     | [] => (Some (attrOf dt), [])
                     | _ :: _ => methodDSLArgs suffix None (attrOf (Dup dt)) args
                     end
                else methodDSLArgs suffix None (attrOf dt) args) = (Some a, errs)).
    { destruct (isUserType dt); [destruct args as [|a0 args]|].
      - eexists _, _. reflexivity.
      - destruct (methodDSLArgs_Some suffix None (attrOf (Dup dt)) (a0 :: args))
          as (a & errs & Heq & _). eauto.
      - destruct (methodDSLArgs_Some suffix None (attrOf dt) args)
          as (a & errs & Heq & _). eauto. }
    destruct Hsome as (a & errs & ->). simpl.
    split; [discriminate | intros [?|[? ?]]; discriminate].
  - split; [intros _; right; eexists; reflexivity | reflexivity].
  - split; [intros _; left; reflexivity | reflexivity].
Qed.

(** X11. Payload only adds to the errors reported, too many arguments first.
    Within a method it sets the payload to what methodDSL returns, also
    after too many arguments were reported, and to nil for a value that is
    neither a type nor a function; the name and the DSL of the method are
    kept. Anywhere else it leaves the expression as it is and reports the
    incompatible DSL last. *)
Theorem Payload_sets_method_payload :
  forall (Dup : DataType -> DataType) (incompatibleDSL : string) (Fn : Type)
         (val : DSLValue) (args : list DSLValue) (st : EvalState Fn),
    let st' := Payload_ Dup incompatibleDSL Fn val args st in
    (exists new, Errors st' = (Errors st ++ new)%list
       /\ (2 < length args -> head new = Some "too many arguments"))
    /\ match Current st with
       | ExprMethod e =>
           exists p, Current st' = ExprMethod (MkMethodExpr (MEName e) p (MEDSLFunc e))
             /\ p = (methodDSL Dup "Payload" val args).1
             /\ (p = None <-> val = DOther \/ exists s, val = DString s)
       | _ => Current st' = Current st /\ last (Errors st') = Some incompatibleDSL
       end.
Proof.
  intros Dup incompatibleDSL Fn val args st. unfold Payload_.
  destruct (Current st) as [e|s|] eqn:Hcur.
  - pose proof (methodDSL_None Dup "Payload" val args) as Hnone.
    destruct (methodDSL Dup "Payload" val args) as [att merrs]. simpl in *. split.
    + eexists. split; [reflexivity|]. intros Hlen.
      rewrite bool_decide_eq_true_2 by assumption. reflexivity.
    + exists att. split; [reflexivity|]. split; [reflexivity | assumption].
  - simpl. split.
    + eexists. split; [reflexivity|]. intros Hlen.
      rewrite bool_decide_eq_true_2 by assumption. reflexivity.
    + split; [reflexivity|]. rewrite !(assoc app). apply last_snoc.
  - simpl. split.
    + eexists. split; [reflexivity|]. intros Hlen.
      rewrite bool_decide_eq_true_2 by assumption. reflexivity.
    + split; [reflexivity|]. rewrite !(assoc app). apply last_snoc.
Qed.

(** X12. Methods are added to the service in the order they are declared,
    without payload and whatever their names, and declaring them reports
    nothing; outside a service every declaration reports the incompatible
    DSL and changes nothing else. *)
Theorem Method_declares_in_order :
  forall (incompatibleDSL : string) (Fn : Type) (decls : list (string * Fn))
         (st : EvalState Fn),
    let st' := fold_left (fun st d => Method_ incompatibleDSL Fn d.1 d.2 st) decls st in
    match Current st with
    | ExprService s =>
        Current st'
        = ExprService (MkServiceExpr (SEName s)
            (Methods s ++ map (fun d => MkMethodExpr d.1 None d.2) decls))
        /\ Errors st' = Errors st
    | _ =>
        Current st' = Current st
        /\ Errors st' = (Errors st ++ replicate (length decls) incompatibleDSL)%list
    end.
Proof.
  intros incompatibleDSL Fn decls. induction decls as [|d decls IH]; intros st; simpl.
  - destruct (Current st) as [e|s|]; rewrite ?app_nil_r; try (split; reflexivity).
    destruct s; split; reflexivity.
  - specialize (IH (Method_ incompatibleDSL Fn d.1 d.2 st)).
    set (st1 := Method_ incompatibleDSL Fn d.1 d.2 st) in *.
    destruct (Current st) as [e|s|] eqn:Hcur.
    + assert (Hst : Current st1 = ExprMethod e
                    /\ Errors st1 = (Errors st ++ [incompatibleDSL])%list)
        by (unfold st1, Method_; rewrite Hcur; split; reflexivity).
      destruct Hst as [Hc He]. rewrite Hc in IH. destruct IH as [IH1 IH2].
      split; [exact IH1|]. rewrite IH2, He, <- (assoc app). reflexivity.
    + assert (Hst : Current st1
                    = ExprService (MkServiceExpr (SEName s)
                        (Methods s ++ [MkMethodExpr d.1 None d.2]))
                    /\ Errors st1 = Errors st)
        by (unfold st1, Method_; rewrite Hcur; split; reflexivity).
      destruct Hst as [Hc He]. rewrite Hc in IH. simpl in IH. destruct IH as [IH1 IH2].
      split; [|congruence]. rewrite IH1, <- (assoc app). reflexivity.
    + assert (Hst : Current st1 = ExprOther
                    /\ Errors st1 = (Errors st ++ [incompatibleDSL])%list)
        by (unfold st1, Method_; rewrite Hcur; split; reflexivity).
      destruct Hst as [Hc He]. rewrite Hc in IH. destruct IH as [IH1 IH2].
      split; [exact IH1|]. rewrite IH2, He, <- (assoc app). reflexivity.
Qed.

(* --------------------------------------------------------------------- *)
(* The request encoder                                                   *)
(* --------------------------------------------------------------------- *)

Lemma last_None {A : Type} (l : list A) : last l = None <-> l = [].
Proof.
  destruct l as [|x l] using rev_ind; [tauto|].
  rewrite last_snoc. split; [discriminate|]. intros Heq.
  apply (f_equal length) in Heq. rewrite length_app in Heq. simpl in Heq. lia.
Qed.

Lemma filter_nil_Forall {A : Type} (P : A -> Prop) `{!forall x, Decision (P x)} (l : list A) :
  filter P l = [] <-> Forall (fun x => ~ P x) l.
Proof.
  induction l as [|x l IH]; [split; [constructor | reflexivity]|].
  rewrite filter_cons, Forall_cons. destruct (decide (P x)); [|tauto].
  split; [discriminate | tauto].
Qed.

Lemma requestEncoderOf_empty (ep : MethodData) (pd : PayloadData.t)
    (b : option SchemeData) :
  requestEncoderOf ep pd b = ""
  <-> RequestData.ClientBody (PayloadData.Request pd) = None
      /\ RequestData.Headers (PayloadData.Request pd) = []
      /\ RequestData.QueryParams (PayloadData.Request pd) = []
      /\ b = None.
Proof.
  unfold requestEncoderOf.
  destruct (RequestData.ClientBody (PayloadData.Request pd)) as [c|].
  { rewrite bool_decide_eq_true_2 by (eexists; reflexivity). simpl.
    split; [discriminate | intros [? _]; discriminate]. }
  rewrite bool_decide_eq_false_2 by (intros [? ?]; discriminate).
  destruct (RequestData.Headers (PayloadData.Request pd)) as [|h hs].
  2: { rewrite bool_decide_eq_true_2 by (simpl; lia). simpl.
       split; [discriminate | intros (_ & ? & _); discriminate]. }
  rewrite bool_decide_eq_false_2 by (simpl; lia).
  destruct (RequestData.QueryParams (PayloadData.Request pd)) as [|q qs].
  2: { rewrite bool_decide_eq_true_2 by (simpl; lia). simpl.
       split; [discriminate | intros (_ & _ & ? & _); discriminate]. }
  rewrite bool_decide_eq_false_2 by (simpl; lia).
  destruct b as [s|].
  { rewrite bool_decide_eq_true_2 by (eexists; reflexivity). simpl.
    split; [discriminate | intros (_ & _ & _ & ?); discriminate]. }
  rewrite bool_decide_eq_false_2 by (intros [? ?]; discriminate). simpl.
  split; [auto | reflexivity].
Qed.

Section RequestEncoderFacts.
Context `{Env}.

Lemma buildRequestData_headers svc e sd rq mq sd' :
  buildRequestData svc e sd = Some ((rq, mq), sd') ->
  exists obj, AsObject (Type_ (MAttribute (Headers e))) = Some obj
              /\ length (RequestData.Headers rq) = length obj.
Proof.
  intros Hb. unfold buildRequestData in Hb.
  apply bind_Some in Hb as (s & sd1 & Hs & Hb).
  apply bind_Some in Hb as (c & sd2 & Hc & Hb).
  apply bind_Some in Hb as (ps & sd3 & Hps & Hb).
  apply bind_Some in Hb as (qs & sd4 & Hqs & Hb).
  apply bind_Some in Hb as (hs & sd5 & Hhs & Hb).
  apply bind_Some in Hb as (mq' & sd6 & Hmq & Hb).
  apply bind_Some in Hb as (u & sd7 & _ & Hb).
  unfold ret in Hb. injection Hb as <- <- <-. simpl.
  unfold extractHeaders in Hhs.
  apply bind_Some in Hhs as (obj & sd8 & Ho & Hhs).
  apply must_Some in Ho as [Ho ->]. exists obj. split; [assumption|].
  eapply mapM_length. eassumption.
Qed.

End RequestEncoderFacts.

(** X13. The request encoder of an endpoint is left unnamed exactly when the
    request has nothing to encode: the body is Empty, no header and no
    query parameter is mapped, the query string is not mapped as a whole,
    and no scheme of the requirements of the method is of type Basic. *)
Theorem requestEncoder_iff_something_to_encode :
  forall (E : Env) (SchemeName SchemeIn : SchemeData -> string)
         (svc : ServiceInfo) (e : EndpointExpr) (sd : ServiceData),
    match buildPayloadData svc e sd with
    | Some (pd, _) =>
        requestEncoderOf (Method e) pd
          (basch (endpointSchemes SchemeName SchemeIn (Requirements (Method e)))) = ""
        <-> Type_ (Body e) = Empty
            /\ AsObject (Type_ (MAttribute (Headers e))) = Some []
            /\ WalkMappedAttr (QueryParams e) = []
            /\ MapQueryParams e = None
            /\ Forall (fun s => SchemeType s <> "Basic")
                 (concat (map Schemes (Requirements (Method e))))
    | None => True
    end.
Proof.
  intros E SchemeName SchemeIn svc e sd.
  destruct (buildPayloadData svc e sd) as [[pd sd']|] eqn:Hb; [|exact I].
  unfold buildPayloadData in Hb.
  apply bind_Some in Hb as ([request0 mq] & sd1 & Hrq & Hb).
  apply bind_Some in Hb as (init & sd2 & Hinit & Hb).
  apply bind_Some in Hb as (sd3 & sd4 & _ & Hb).
  destruct (if negb (isEmpty (Type_ (Payload e)))
            then (GoFullTypeName (Scope sd3) (Payload e) (PkgName svc),
                  GoFullTypeRef (Scope sd3) (Payload e) (PkgName svc))
            else ("", "")) as [name ref].
  apply bind_Some in Hb as (rv & sd5 & Hrv & Hb).
  unfold ret in Hb. injection Hb as <- <-.
  destruct (buildRequestData_shape _ _ _ _ _ _ Hrq) as (_ & Hc & _ & Hq & _ & _).
  destruct (buildRequestData_headers _ _ _ _ _ _ Hrq) as (obj & Ho & Hh).
  destruct (schemes_by_location SchemeName SchemeIn
              (concat (map Schemes (Requirements (Method e)))))
    as (_ & _ & _ & _ & _ & Hbasic).
  rewrite <- endpointSchemes_fold in Hbasic. simpl in Hbasic.
  rewrite requestEncoderOf_empty, Hbasic, last_None. simpl.
  rewrite (filter_nil_Forall (fun s => SchemeType s = "Basic")), Hc.
  assert (Hhs : RequestData.Headers request0 = [] <-> obj = []).
  { destruct (RequestData.Headers request0), obj; simpl in Hh;
      split; intros; try reflexivity; try discriminate; lia. }
  assert (Hqs : RequestData.QueryParams request0 = []
                <-> WalkMappedAttr (QueryParams e) = [] /\ MapQueryParams e = None).
  { destruct (RequestData.QueryParams request0), (WalkMappedAttr (QueryParams e)),
      (MapQueryParams e); simpl in Hq;
      split; try intros [? ?]; intros; try split; try reflexivity; try discriminate; lia. }
  rewrite Hhs, Hqs, Ho. split.
  - intros (H1 & -> & (H3 & H4) & H5). auto.
  - intros (H1 & H2 & H3 & H4 & H5). injection H2 as ->. auto.
Qed.

(* --------------------------------------------------------------------- *)
(* The constructor and the validation of a body type                     *)
(* --------------------------------------------------------------------- *)

(** X14. A body type has a constructor exactly on the side that encodes the
    body, the server for a response and the client for a request, when the
    payload or result is not Empty and the body type is or makes use of a
    user type. The constructor takes one argument on that side and none on
    the other, called p for a request and res for a response, read through
    its projection for a viewed result. Validation code is only defined for
    a user type on the side that decodes, so a body type never has both a
    constructor and validation code, and the argument of the constructor
    never carries any. *)
Theorem buildBodyType_constructor_or_validation :
  forall (E : Env) (svc : ServiceInfo) (e : EndpointExpr) (body att : AttributeExpr)
         (req svr viewed : bool) (pkg : string) (sd : ServiceData),
    match buildBodyType svc e body att req svr viewed pkg sd with
    | Some (Some td, _) =>
        (is_Some (TypeData.Init td)
         <-> svr = negb req /\ Type_ att <> Empty /\ needInit (Type_ body) = true)
        /\ (forall i, TypeData.Init td = Some i ->
              exists a,
                (if svr
                 then InitData.ServerArgs i = [a] /\ InitData.ClientArgs i = []
                      /\ InitData.ClientCode i = ""
                 else InitData.ClientArgs i = [a] /\ InitData.ServerArgs i = []
                      /\ InitData.ServerCode i = "")
                /\ InitArgData.Name a = (if req then "p" else "res")
                /\ InitArgData.Ref a
                   = (if viewed then InitArgData.Name a ++ ".Projected"
                      else InitArgData.Name a)
                /\ InitArgData.Validate a = ""
                /\ TypeData.ValidateDef td = "")
        /\ (TypeData.ValidateDef td <> "" ->
              svr = req /\ (svr = false -> viewed = false)
              /\ (exists id, Type_ body = UserType id)
              /\ TypeData.ValidateRef td = "err = body.Validate()")
    | _ => True
    end.
Proof.
  intros E svc e body att req svr viewed pkg sd.
  unfold buildBodyType. destruct (isEmpty (Type_ body)) eqn:Hemp; [exact I|].
  destruct (isEmpty (Type_ att)) eqn:Hatt.
  all: [> apply isEmpty_true in Hatt | apply isEmpty_false in Hatt].
  all: destruct (needInit (Type_ body)) eqn:Hni.
  all: destruct (Type_ body) as [|k|el|k el|nats|id] eqn:Hty; [discriminate| | | | |].
  all: destruct svr, req, viewed; simpl; unfold bind, get, ret; simpl.
  all: rewrite ?Hatt; simpl.
  all: repeat match goal with
       | |- context [isEmpty (Type_ ?a)] =>
           let Hatt' := fresh "Hatt" in
           destruct (isEmpty (Type_ a)) eqn:Hatt'; simpl;
           [apply isEmpty_true in Hatt'; try contradiction|]
       | |- context [originSource ?b ?t] =>
           destruct (originSource b t) as [[? ?]|]; simpl
       | |- context [GoTypeTransform ?a ?b ?c ?d ?e ?f ?g ?h] =>
           destruct (GoTypeTransform a b c d e f g h) as [[? ?] [?|]]; simpl
       end.
  all: try exact I.
  all: split; [split; [intros [i Hi]; try discriminate; repeat split; try reflexivity;
                       try assumption
                      |intros (H1 & H2 & H3); try discriminate; try congruence;
                       try (eexists; reflexivity)]|].
  all: split; [intros i Hi; try discriminate; injection Hi as <-; eexists;
               repeat split; reflexivity|].
  all: try (intros Hv; exfalso; apply Hv; reflexivity).
  all: intros Hv; repeat split; try reflexivity; try discriminate; try (eexists; reflexivity).
  all: destruct (String.eqb_spec (RecursiveValidationCode body true true false "body") "");
    [contradiction | reflexivity].
Qed.

(* --------------------------------------------------------------------- *)
(* The query parameters and the headers                                  *)
(* --------------------------------------------------------------------- *)

Section ExtractFacts.
Context `{Env}.

(** A loop panics only where a run of its body does. *)
Lemma mapM_None {A B : Type} (f : A -> M B) (l : list A) sd :
  mapM f l sd = None -> exists a s, a ∈ l /\ f a s = None.
Proof.
  revert sd. induction l as [|a l IH]; intros sd Hm; simpl in Hm; [discriminate|].
  apply bind_None in Hm as [Hm|(b & sd1 & Hb & Hm)].
  - exists a, sd. split; [left | assumption].
  - apply bind_None in Hm as [Hm|(bs & sd2 & Hbs & Hm)]; [|discriminate].
    destruct (IH _ Hm) as (a' & s & Hin & Hf). exists a', s. split; [right|]; assumption.
Qed.

Lemma Forall2_fmap_eq {A B C : Type} (f : A -> C) (g : B -> C) l k :
  Forall2 (fun a b => g b = f a) l k -> g <$> k = f <$> l.
Proof. induction 1 as [|a b l k Hab _ IH]; csimpl; [reflexivity | congruence]. Qed.

Lemma isStringSlice_Some arr : isStringSlice arr = true -> is_Some arr.
Proof. destruct arr; [eexists; reflexivity | discriminate]. Qed.

End ExtractFacts.

(** X15. extractHeaders panics exactly when the headers are not an object, or
    when the service type is an object that lacks an attribute for one of
    them. Otherwise it returns one header for each attribute of the headers,
    in order; a header that is a slice of strings is a slice; and a header
    read from a service type that is not an object is required, is no
    pointer, stands for no field and has the service type itself. *)
Theorem extractHeaders_result :
  forall (E : Env) (a : MappedAttributeExpr) (serviceType : AttributeExpr) (req : bool)
         (sd : ServiceData),
    match extractHeaders a serviceType req sd with
    | Some (hs, _) =>
        exists obj, AsObject (Type_ (MAttribute a)) = Some obj
          /\ HeaderData.AttributeName <$> hs = Name <$> obj
          /\ Forall (fun h =>
               HeaderData.Name h = ElemName a (HeaderData.AttributeName h)
               /\ (HeaderData.StringSlice h = true -> HeaderData.Slice h = true)
               /\ (IsObject (Type_ serviceType) = false ->
                     HeaderData.Required h = true /\ HeaderData.Pointer h = false
                     /\ HeaderData.FieldName h = ""
                     /\ HeaderData.Type_ h = Type_ serviceType)
               /\ (IsObject (Type_ serviceType) = true ->
                     exists hattr, Find serviceType (HeaderData.AttributeName h) = Some hattr
                                   /\ HeaderData.Type_ h = Type_ hattr)) hs
    | None =>
        AsObject (Type_ (MAttribute a)) = None
        \/ (IsObject (Type_ serviceType) = true
            /\ exists obj nat, AsObject (Type_ (MAttribute a)) = Some obj /\ nat ∈ obj
                               /\ Find serviceType (Name nat) = None)
    end.
Proof.
  intros E a serviceType req sd. unfold extractHeaders.
  destruct (AsObject (Type_ (MAttribute a))) as [obj|]; [|left; reflexivity].
  unfold bind at 1. simpl.
  match goal with |- context [mapM ?f obj sd] => set (body := f) end.
  assert (Hbody : forall nat s h s', body nat s = Some (h, s') ->
            HeaderData.AttributeName h = Name nat
            /\ HeaderData.Name h = ElemName a (HeaderData.AttributeName h)
            /\ (HeaderData.StringSlice h = true -> HeaderData.Slice h = true)
            /\ (IsObject (Type_ serviceType) = false ->
                  HeaderData.Required h = true /\ HeaderData.Pointer h = false
                  /\ HeaderData.FieldName h = ""
                  /\ HeaderData.Type_ h = Type_ serviceType)
            /\ (IsObject (Type_ serviceType) = true ->
                  exists hattr, Find serviceType (HeaderData.AttributeName h) = Some hattr
                                /\ HeaderData.Type_ h = Type_ hattr)).
  { intros nat s h s' Hb. unfold body in Hb.
    apply bind_Some in Hb as (varn & s1 & _ & Hb).
    apply bind_Some in Hb as (s2 & s3 & _ & Hb).
    apply bind_Some in Hb as (hattr & s4 & Hh & Hb).
    apply must_Some in Hh as [Hh _].
    unfold ret in Hb. injection Hb as <- <-. simpl.
    split; [reflexivity|]. split; [reflexivity|]. split.
    - intros Hs. apply isStringSlice_Some in Hs. apply bool_decide_eq_true_2. assumption.
    - destruct (IsObject (Type_ serviceType)); split; try discriminate.
      + intros _. exists hattr. split; [assumption | reflexivity].
      + intros _. injection Hh as <-. repeat split; reflexivity. }
  destruct (mapM body obj sd) as [[hs sd']|] eqn:Hm.
  - exists obj. split; [reflexivity|]. split.
    + apply Forall2_fmap_eq.
      eapply (mapM_Forall2 body (fun nat h => HeaderData.AttributeName h = Name nat));
        [|exact Hm].
      intros nat s h s' Hb. apply (Hbody _ _ _ _ Hb).
    + eapply mapM_Forall; [|exact Hm].
      intros nat s h s' Hb. apply (Hbody _ _ _ _ Hb).
  - right. apply mapM_None in Hm as (nat & s & Hin & Hf). unfold body in Hf.
    apply bind_None in Hf as [Hf|(varn & s1 & _ & Hf)].
    { destruct (unique_Some (Goify (Name nat) false) s) as [? Hu]. congruence. }
    apply bind_None in Hf as [Hf|(s2 & s3 & _ & Hf)]; [discriminate|].
    apply bind_None in Hf as [Hf|(hattr & s4 & _ & Hf)]; [|discriminate].
    destruct (IsObject (Type_ serviceType)); [|discriminate].
    split; [reflexivity|]. exists obj, nat. split; [reflexivity|]. split; [assumption|].
    destruct (Find serviceType (Name nat)); [discriminate | reflexivity].
Qed.

(** X16. extractQueryParams panics exactly on a mapped attribute that is a map
    from strings to an array type which AsArray does not take for an array.
    Otherwise it returns one parameter for each mapped attribute, in order;
    a parameter that is a slice of strings is a slice, one that is a map of
    slices of strings is a map, the type reference of a pointer starts with
    a star, and no parameter stands for a field of a service type that is
    not an object. *)
Theorem extractQueryParams_result :
  forall (E : Env) (a : MappedAttributeExpr) (serviceType : AttributeExpr)
         (sd : ServiceData),
    match extractQueryParams a serviceType sd with
    | Some (ps, _) =>
        ParamData.AttributeName <$> ps = (fun it => it.1.1.1) <$> WalkMappedAttr a
        /\ Forall (fun p =>
             (ParamData.StringSlice p = true -> ParamData.Slice p = true)
             /\ (ParamData.MapStringSlice p = true -> ParamData.Map p = true)
             /\ ParamData.Pointer p
                = IsPrimitivePointer (MAttribute a) (ParamData.AttributeName p) true
             /\ (ParamData.Pointer p = true ->
                   exists ref, ParamData.TypeRef p = "*" ++ ref)
             /\ (IsObject (Type_ serviceType) = false -> ParamData.FieldName p = "")) ps
    | None =>
        exists name elem required c k el,
          (name, elem, required, c) ∈ WalkMappedAttr a
          /\ AsMap (Type_ c) = Some (k, el)
          /\ KindIsString (Type_ k) = true /\ KindIsArray (Type_ el) = true
          /\ AsArray (Type_ el) = None
    end.
Proof.
  intros E a serviceType sd. unfold extractQueryParams.
  match goal with |- context [mapM ?f (WalkMappedAttr a) sd] => set (body := f) end.
  assert (Hmss : forall mp s b s', isMapStringSlice mp s = Some (b, s') ->
            b = true -> is_Some mp).
  { intros [[k el]|] s b s' Hm Hb; [eexists; reflexivity|].
    simpl in Hm. unfold ret in Hm. congruence. }
  assert (Hbody : forall it s p s', body it s = Some (p, s') ->
            ParamData.AttributeName p = it.1.1.1
            /\ (ParamData.StringSlice p = true -> ParamData.Slice p = true)
            /\ (ParamData.MapStringSlice p = true -> ParamData.Map p = true)
            /\ ParamData.Pointer p
               = IsPrimitivePointer (MAttribute a) (ParamData.AttributeName p) true
            /\ (ParamData.Pointer p = true -> exists ref, ParamData.TypeRef p = "*" ++ ref)
            /\ (IsObject (Type_ serviceType) = false -> ParamData.FieldName p = "")).
  { intros [[[name elem] required] c] s p s' Hb. unfold body in Hb.
    apply bind_Some in Hb as (varn & s1 & _ & Hb).
    apply bind_Some in Hb as (s2 & s3 & _ & Hb).
    apply bind_Some in Hb as (mss & s4 & Hm & Hb).
    unfold ret in Hb. injection Hb as <- <-. simpl.
    split; [reflexivity|]. split; [|split; [|split; [reflexivity|split]]].
    - intros Hs. apply isStringSlice_Some in Hs. apply bool_decide_eq_true_2. assumption.
    - intros Hs. apply bool_decide_eq_true_2. eapply Hmss; eassumption.
    - intros ->. eexists. reflexivity.
    - intros ->. reflexivity. }
  destruct (mapM body (WalkMappedAttr a) sd) as [[ps sd']|] eqn:Hm.
  - split.
    + apply Forall2_fmap_eq.
      eapply (mapM_Forall2 body (fun it p => ParamData.AttributeName p = it.1.1.1));
        [|exact Hm].
      intros it s p s' Hb. apply (Hbody _ _ _ _ Hb).
    + eapply mapM_Forall; [|exact Hm].
      intros it s p s' Hb. apply (Hbody _ _ _ _ Hb).
  - apply mapM_None in Hm as ([[[name elem] required] c] & s & Hin & Hf). unfold body in Hf.
    apply bind_None in Hf as [Hf|(varn & s1 & _ & Hf)].
    { destruct (unique_Some (Goify name false) s) as [? Hu]. congruence. }
    apply bind_None in Hf as [Hf|(s2 & s3 & _ & Hf)]; [discriminate|].
    apply bind_None in Hf as [Hf|(mss & s4 & _ & Hf)]; [|discriminate].
    unfold isMapStringSlice in Hf.
    destruct (AsMap (Type_ c)) as [[k el]|] eqn:Hmap; [|discriminate].
    destruct (KindIsString (Type_ k)) eqn:Hk; [|discriminate].
    destruct (KindIsArray (Type_ el)) eqn:Hel; [|discriminate]. simpl in Hf.
    apply bind_None in Hf as [Hf|(inner & s5 & _ & Hf)]; [|discriminate].
    exists name, elem, required, c, k, el. repeat split; try assumption.
    destruct (AsArray (Type_ el)); [discriminate | reflexivity].
Qed.

(* --------------------------------------------------------------------- *)
(* The responses of a result, one by one                                 *)
(* --------------------------------------------------------------------- *)

Section ResponseShape.
Context `{Env}.

Lemma resultOf_pure svc e s x s' :
  resultOf svc e s = Some (x, s') ->
  x.2 = bool_decide (is_Some (ViewedResult (Method e)))
  /\ forall s2, resultOf svc e s2 = Some (x, s2).
Proof.
  unfold resultOf. destruct (ViewedResult (Method e)) as [vr|].
  - intros Hr. apply bind_Some in Hr as (obj & s1 & Ho & Hr).
    apply bind_Some in Hr as (projected & s2 & Hp & Hr).
    apply must_Some in Ho as [Ho _]. apply must_Some in Hp as [Hp _].
    unfold ret in Hr. injection Hr as <- _. split; [reflexivity|].
    intros s3. unfold bind. rewrite Ho. simpl. rewrite Hp. reflexivity.
  - unfold ret. intros Hr. injection Hr as <- _. split; [reflexivity|]. reflexivity.
Qed.

Lemma responseBodyArg_pointer resp result scope args origin pointer :
  responseBodyArg resp result scope = Some (args, origin, pointer) ->
  pointer = true ->
  Type_ (RBody resp) <> Empty /\ IsObject (Type_ (RBody resp)) = false.
Proof.
  unfold responseBodyArg. destruct (isEmpty (Type_ (RBody resp))) eqn:Hemp; simpl.
  - intros Heq. injection Heq as _ _ <-. discriminate.
  - apply isEmpty_false in Hemp.
    destruct (responseBody resp result) as [[[rb o] p]|]; simpl; [|discriminate].
    intros Heq. injection Heq as _ _ <-.
    destruct (IsObject (Type_ (RBody resp))); [discriminate | auto].
Qed.

Lemma buildResponseResultInit_shape svc v e sd i sd' :
  buildResponseResultInit svc v e sd = Some (i, sd') ->
  InitData.ServerArgs i = [] /\ InitData.ServerCode i = ""
  /\ (InitData.ReturnIsPrimitivePointer i = true ->
      Type_ (RBody v) <> Empty /\ IsObject (Type_ (RBody v)) = false).
Proof.
  intros Hb. unfold buildResponseResultInit in Hb.
  apply bind_Some in Hb as ([[result pkg] viewed] & sd1 & _ & Hb).
  apply bind_Some in Hb as (sd2 & sd3 & _ & Hb).
  apply bind_Some in Hb as ([[clientArgs origin] pointer] & sd4 & Hba & Hb).
  apply must_Some in Hba as [Hba _].
  apply bind_Some in Hb as (code & sd5 & _ & Hb).
  apply bind_Some in Hb as (headers & sd6 & _ & Hb).
  apply bind_Some in Hb as (name & sd7 & _ & Hb).
  apply bind_Some in Hb as (sd8 & sd9 & _ & Hb).
  unfold ret in Hb. injection Hb as <- <-. simpl.
  split; [reflexivity|]. split; [reflexivity|].
  eapply responseBodyArg_pointer. eassumption.
Qed.

Lemma buildResponseData_shape svc e result pkg viewed v r :
  BuiltFrom (buildResponseData svc e result pkg viewed) v r ->
  (ResponseData.ServerBody r = None <-> ResponseData.ClientBody r = None)
  /\ (ResponseData.ResultInit r = None <-> needInit (Type_ result) = false)
  /\ ResponseData.ViewedResult r = viewed
  /\ (ResponseData.TagRequired r = true -> viewed = false)
  /\ forall i, ResponseData.ResultInit r = Some i ->
       InitData.ServerArgs i = [] /\ InitData.ServerCode i = ""
       /\ (InitData.ReturnIsPrimitivePointer i = true ->
           ResponseData.ClientBody r <> None).
Proof.
  intros (sd & sd' & Hb). unfold buildResponseData in Hb.
  apply bind_Some in Hb as (origin & sd1 & _ & Hb).
  apply bind_Some in Hb as (init & sd2 & Hinit & Hb).
  apply bind_Some in Hb as (headersData & sd3 & _ & Hb).
  apply bind_Some in Hb as (s & sd4 & Hs & Hb).
  apply bind_Some in Hb as (c & sd5 & Hc & Hb).
  apply bind_Some in Hb as (u & sd6 & _ & Hb).
  unfold ret in Hb. injection Hb as <- <-. simpl.
  pose proof (buildBodyType_result svc e (RBody v) result false true viewed pkg sd3) as H1.
  rewrite Hs in H1.
  pose proof (buildBodyType_result svc e (RBody v) result false false viewed pkg sd4) as H2.
  rewrite Hc in H2.
  split; [rewrite H1, H2; reflexivity|].
  split; [|split; [reflexivity|split]].
  - destruct (needInit (Type_ result)).
    + apply bind_Some in Hinit as (i & sd7 & _ & Hinit).
      unfold ret in Hinit. injection Hinit as <- _. split; discriminate.
    + unfold ret in Hinit. injection Hinit as <- _. split; reflexivity.
  - intros Ht. apply andb_true_iff in Ht as [_ Ht]. destruct viewed; [discriminate | reflexivity].
  - intros i Hi. subst init. destruct (needInit (Type_ result)).
    + apply bind_Some in Hinit as (i' & sd7 & Hi' & Hinit).
      unfold ret in Hinit. injection Hinit as -> _.
      destruct (buildResponseResultInit_shape _ _ _ _ _ _ Hi') as (Ha & Hcode & Hp).
      split; [assumption|]. split; [assumption|].
      intros Hptr. destruct (Hp Hptr) as [Hne _]. rewrite H2. assumption.
    + unfold ret in Hinit. discriminate.
Qed.

Lemma Forall2_Forall_built {A B : Type} (R : A -> B -> Prop) (P : B -> Prop) l k :
  Forall2 R l k -> (forall a b, R a b -> P b) -> Forall P k.
Proof. induction 1; intros HR; constructor; eauto. Qed.

End ResponseShape.

(** X17. Every response of a result has a server body type exactly when it has
    a client body type; it has a result constructor exactly when the
    result, the projected attribute of the viewed result if the method has
    one, is or makes use of a user type, and that constructor is for the
    client only; a result returned through a primitive pointer is read
    from a response that has a body; and the tag of a response is never
    required for a viewed result. An Empty result has no type name. *)
Theorem buildResultData_responses_shape :
  forall (E : Env) (svc : ServiceInfo) (e : EndpointExpr) (sd : ServiceData),
    match buildResultData svc e sd with
    | Some (rd, _) =>
        (Type_ (Result e) = Empty -> ResultData.Name rd = "" /\ ResultData.Ref rd = "")
        /\ exists result pkg,
             let viewed := bool_decide (is_Some (ViewedResult (Method e))) in
             resultOf svc e sd = Some ((result, pkg, viewed), sd)
             /\ ResultData.IsStruct rd = IsObject (Type_ result)
             /\ Forall (fun r =>
                  (ResponseData.ServerBody r = None <-> ResponseData.ClientBody r = None)
                  /\ (ResponseData.ResultInit r = None <-> needInit (Type_ result) = false)
                  /\ ResponseData.ViewedResult r = viewed
                  /\ (ResponseData.TagRequired r = true -> viewed = false)
                  /\ forall i, ResponseData.ResultInit r = Some i ->
                       InitData.ServerArgs i = [] /\ InitData.ServerCode i = ""
                       /\ (InitData.ReturnIsPrimitivePointer i = true ->
                           ResponseData.ClientBody r <> None))
                  (ResultData.Responses rd)
    | None => True
    end.
Proof.
  intros E svc e sd.
  destruct (buildResultData svc e sd) as [[rd sd']|] eqn:Hb; [|exact I].
  unfold buildResultData in Hb.
  apply bind_Some in Hb as (view & sd1 & _ & Hb).
  apply bind_Some in Hb as (sd2 & sd3 & _ & Hb).
  assert (Hnm : forall name ref,
             (name, ref) = (if negb (isEmpty (Type_ (Result e)))
                            then (GoFullTypeName (Scope sd2) (Result e) (PkgName svc),
                                  GoFullTypeRef (Scope sd2) (Result e) (PkgName svc))
                            else ("", "")) ->
             Type_ (Result e) = Empty -> name = "" /\ ref = "").
  { intros name ref Heq Hemp. rewrite Hemp in Heq. simpl in Heq.
    injection Heq as -> ->. split; reflexivity. }
  destruct (if negb (isEmpty (Type_ (Result e)))
            then (GoFullTypeName (Scope sd2) (Result e) (PkgName svc),
                  GoFullTypeRef (Scope sd2) (Result e) (PkgName svc))
            else ("", "")) as [name ref].
  specialize (Hnm name ref eq_refl).
  apply bind_Some in Hb as ([[result pkg] viewed] & sd4 & Hres & Hb).
  apply bind_Some in Hb as ([notag responses] & sd5 & Hloop & Hb).
  unfold ret in Hb. injection Hb as <- <-. simpl.
  split; [assumption|].
  destruct (resultOf_pure _ _ _ _ _ Hres) as [Hv Hpure]. simpl in Hv. subst viewed.
  exists result, pkg. split; [apply Hpure|]. split; [reflexivity|].
  destruct (responsesLoop_spec _ _ _ _ _ _ _ _ _ [] Hloop) as [Hf _];
    [constructor | split; [lia|]; left; split; [reflexivity|]; split;
                   [reflexivity | constructor] |].
  simpl in Hf.
  eapply Forall2_Forall_built; [apply taglessLast_Forall2; exact Hf|].
  intros v r Hvr. exact (buildResponseData_shape _ _ _ _ _ _ _ Hvr).
Qed.

(* --------------------------------------------------------------------- *)
(* The arguments of the command line for basic authentication            *)
(* --------------------------------------------------------------------- *)

Lemma findBasic_head schemes :
  findBasic schemes = head (filter (fun s => SchemeType s = "Basic") schemes).
Proof.
  induction schemes as [|sc r IH]; [reflexivity|]. simpl. rewrite filter_cons.
  destruct (String.eqb_spec (SchemeType sc) "Basic") as [Heq|Hne].
  - rewrite decide_True by assumption. reflexivity.
  - rewrite decide_False by assumption. assumption.
Qed.

Lemma firstBasic_head reqs :
  firstBasic reqs = head (filter (fun s => SchemeType s = "Basic") (concat (map Schemes reqs))).
Proof.
  induction reqs as [|r rs IH]; [reflexivity|]. simpl.
  rewrite filter_app, findBasic_head, IH.
  destruct (filter (fun s => SchemeType s = "Basic") (Schemes r)); reflexivity.
Qed.

Section CLIArgFacts.
Context `{Env}.

(** The arguments of the first scheme of type Basic: both attributes are
    looked up in the payload, and the look-up of a missing one panics. *)
Lemma cliArgsOf_spec e sd :
  let basics :=
    filter (fun s => SchemeType s = "Basic")
      (concat (map Schemes (Requirements (Method e)))) in
  match cliArgsOf e sd with
  | Some (args, sd') =>
      sd' = sd
      /\ match head basics with
         | None => args = []
         | Some sc =>
             exists uatt patt,
               Find (Payload e) (UsernameAttr sc) = Some uatt
               /\ Find (Payload e) (PasswordAttr sc) = Some patt
               /\ InitArgData.Name <$> args = [UsernameAttr sc; PasswordAttr sc]
               /\ InitArgData.FieldName <$> args = [UsernameField sc; PasswordField sc]
               /\ InitArgData.Validate <$> args
                  = [RecursiveValidationCode uatt true false false (UsernameAttr sc);
                     RecursiveValidationCode uatt true false false (PasswordAttr sc)]
         end
  | None =>
      exists sc, head basics = Some sc
        /\ (Find (Payload e) (UsernameAttr sc) = None
            \/ Find (Payload e) (PasswordAttr sc) = None)
  end.
Proof.
  intros basics. unfold cliArgsOf. rewrite firstBasic_head. fold basics.
  destruct (head basics) as [sc|]; [|split; reflexivity].
  unfold bind, get, must, ret, panic.
  destruct (Find (Payload e) (UsernameAttr sc)) as [uatt|] eqn:Hu;
    [|exists sc; split; [reflexivity | left; assumption]].
  destruct (Find (Payload e) (PasswordAttr sc)) as [patt|] eqn:Hp;
    [|exists sc; split; [reflexivity | right; assumption]].
  split; [reflexivity|]. exists uatt, patt. repeat split; reflexivity.
Qed.

Lemma cliArgsOf_panics e sc sd :
  head (filter (fun s => SchemeType s = "Basic")
          (concat (map Schemes (Requirements (Method e))))) = Some sc ->
  Find (Payload e) (UsernameAttr sc) = None \/ Find (Payload e) (PasswordAttr sc) = None ->
  cliArgsOf e sd = None.
Proof.
  intros Hsc Hfind. unfold cliArgsOf. rewrite firstBasic_head, Hsc.
  unfold bind, get, must, ret, panic.
  destruct (Find (Payload e) (UsernameAttr sc)); [|reflexivity].
  destruct (Find (Payload e) (PasswordAttr sc)); [|reflexivity].
  destruct Hfind; discriminate.
Qed.

(** The command line arguments of the payload constructor are built with
    it, that is when the payload needs a constructor, and not otherwise. *)
Lemma buildPayloadInit_cliArgs svc e rq sd init sd' :
  buildPayloadInit svc e rq sd = Some (init, sd') ->
  match init with
  | None => needInit (Type_ (Payload e)) = false
  | Some i =>
      needInit (Type_ (Payload e)) = true
      /\ exists sd0, cliArgsOf e sd0 = Some (InitData.CLIArgs i, sd0)
  end.
Proof.
  unfold buildPayloadInit. destruct (needInit (Type_ (Payload e))).
  - intros Hb. apply bind_Some in Hb as (name & sd1 & _ & Hb).
    apply bind_Some in Hb as (sd2 & sd3 & _ & Hb).
    destruct (bodyArgs e (Scope sd2)) as [bodyServer bodyClient].
    apply bind_Some in Hb as (cli & sd4 & Hcli & Hb).
    apply bind_Some in Hb as ([[serverCode clientCode] origin] & sd5 & _ & Hb).
    apply bind_Some in Hb as (sd6 & sd7 & _ & Hb).
    unfold ret in Hb. injection Hb as <- <-. split; [reflexivity|]. simpl.
    exists sd3. pose proof (cliArgsOf_spec e sd3) as Hs. rewrite Hcli in Hs.
    destruct Hs as [-> _]. assumption.
  - unfold ret. intros Hb. injection Hb as <- <-. reflexivity.
Qed.

Lemma buildPayloadInit_panics svc e rq sd :
  needInit (Type_ (Payload e)) = true ->
  (forall sd0, cliArgsOf e sd0 = None) ->
  buildPayloadInit svc e rq sd = None.
Proof.
  intros Hn Hcli. unfold buildPayloadInit. rewrite Hn.
  apply bind_None.
  match goal with
  | |- ?m = None \/ _ => destruct m as [[name sd1]|] eqn:Hname; [right | left; reflexivity]
  end.
  exists name, sd1. split; [reflexivity|].
  apply bind_None. right. exists sd1, sd1. split; [reflexivity|].
  destruct (bodyArgs e (Scope sd1)) as [bodyServer bodyClient].
  apply bind_None. left. apply Hcli.
Qed.

Lemma buildPayloadInit_skipped svc e rq sd :
  needInit (Type_ (Payload e)) = false -> buildPayloadInit svc e rq sd = Some (None, sd).
Proof. intros Hn. unfold buildPayloadInit. rewrite Hn. reflexivity. Qed.

End CLIArgFacts.

(** X18. The user name and password arguments of the command line belong to
    the constructor of the payload, which buildPayloadData builds when the
    payload type is or makes use of a user type. They are then those of the
    first scheme of type Basic among the requirements of the method, whereas
    the basic scheme of the endpoint is the last one; none when no scheme
    is of type Basic. Both attributes are found in the payload, and the
    validation code of both arguments is the one of the user name attribute,
    under the name of each; when one of the two attributes is not found,
    buildPayloadData panics. A payload that needs no constructor has no
    such arguments: the schemes are not looked at, and a missing attribute
    does not make the constructor step panic. *)
Theorem cliArgs_first_basic_scheme :
  forall (E : Env) (SchemeName SchemeIn : SchemeData -> string)
         (svc : ServiceInfo) (e : EndpointExpr) (sd : ServiceData),
    let basics :=
      filter (fun s => SchemeType s = "Basic")
        (concat (map Schemes (Requirements (Method e)))) in
    basch (endpointSchemes SchemeName SchemeIn (Requirements (Method e))) = last basics
    /\ match buildPayloadData svc e sd with
       | Some (pd, _) =>
           match RequestData.PayloadInit (PayloadData.Request pd) with
           | None => needInit (Type_ (Payload e)) = false
           | Some init =>
               needInit (Type_ (Payload e)) = true
               /\ match head basics with
                  | None => InitData.CLIArgs init = []
                  | Some sc =>
                      exists uatt patt,
                        Find (Payload e) (UsernameAttr sc) = Some uatt
                        /\ Find (Payload e) (PasswordAttr sc) = Some patt
                        /\ InitArgData.Name <$> InitData.CLIArgs init
                           = [UsernameAttr sc; PasswordAttr sc]
                        /\ InitArgData.FieldName <$> InitData.CLIArgs init
                           = [UsernameField sc; PasswordField sc]
                        /\ InitArgData.Validate <$> InitData.CLIArgs init
                           = [RecursiveValidationCode uatt true false false
                                (UsernameAttr sc);
                              RecursiveValidationCode uatt true false false
                                (PasswordAttr sc)]
                  end
           end
       | None => True
       end
    /\ (forall sc,
          head basics = Some sc ->
          Find (Payload e) (UsernameAttr sc) = None
          \/ Find (Payload e) (PasswordAttr sc) = None ->
          if needInit (Type_ (Payload e))
          then buildPayloadData svc e sd = None
          else forall rq sd0, buildPayloadInit svc e rq sd0 = Some (None, sd0)).
Proof.
  intros E SchemeName SchemeIn svc e sd basics. split; [|split].
  - destruct (schemes_by_location SchemeName SchemeIn
                (concat (map Schemes (Requirements (Method e)))))
      as (_ & _ & _ & _ & _ & Hbasic).
    rewrite <- endpointSchemes_fold in Hbasic. exact Hbasic.
  - destruct (buildPayloadData svc e sd) as [[pd sd']|] eqn:Hb; [|exact I].
    unfold buildPayloadData in Hb.
    apply bind_Some in Hb as ([request0 mq] & sd1 & Hrq & Hb).
    apply bind_Some in Hb as (init & sd2 & Hinit & Hb).
    apply bind_Some in Hb as (sd3 & sd4 & _ & Hb).
    destruct (if negb (isEmpty (Type_ (Payload e)))
              then (GoFullTypeName (Scope sd3) (Payload e) (PkgName svc),
                    GoFullTypeRef (Scope sd3) (Payload e) (PkgName svc))
              else ("", "")) as [name ref].
    apply bind_Some in Hb as (rv & sd5 & _ & Hb).
    unfold ret in Hb. injection Hb as <- <-. simpl.
    pose proof (buildPayloadInit_cliArgs _ _ _ _ _ _ Hinit) as Hcli.
    destruct init as [init|]; [|assumption].
    destruct Hcli as (Hn & sd0 & Hcli). split; [assumption|].
    pose proof (cliArgsOf_spec e sd0) as Hs. rewrite Hcli in Hs.
    destruct Hs as [_ Hs]. exact Hs.
  - intros sc Hsc Hfind. destruct (needInit (Type_ (Payload e))) eqn:Hn.
    + unfold buildPayloadData. apply bind_None.
      destruct (buildRequestData svc e sd) as [[[request0 mq] sd1]|];
        [right | left; reflexivity].
      exists (request0, mq), sd1. split; [reflexivity|].
      apply bind_None. left. apply buildPayloadInit_panics; [assumption|].
      intros sd0. exact (cliArgsOf_panics e sc sd0 Hsc Hfind).
    + intros rq sd0. apply buildPayloadInit_skipped. assumption.
Qed.

(* --------------------------------------------------------------------- *)
(* What the builders leave alone                                         *)
(* --------------------------------------------------------------------- *)

Section FrameFacts.
Context `{Env}.

Lemma builderStep_refl sd : builderStep sd sd.
Proof. unfold builderStep. repeat split; reflexivity. Qed.

Lemma builderStep_trans a b c : builderStep a b -> builderStep b c -> builderStep a c.
Proof.
  intros (H1 & H2 & H3 & H4) (H5 & H6 & H7 & H8). unfold builderStep.
  split; [set_solver|]. split; [set_solver|]. split; congruence.
Qed.

Lemma registered_step sd sd' td : builderStep sd sd' -> registered sd td -> registered sd' td.
Proof. intros (H1 & H2 & _) [H3 H4]. split; set_solver. Qed.

Lemma Frames_ret {A : Type} (a : A) : Frames (ret a).
Proof. intros sd a' sd' Heq. injection Heq as _ <-. apply builderStep_refl. Qed.

Lemma Frames_bind {A B : Type} (m : M A) (k : A -> M B) :
  Frames m -> (forall a, Frames (k a)) -> Frames (bind m k).
Proof.
  intros Hm Hk sd b sd' Hb. apply bind_Some in Hb as (a & sd1 & H1 & H2).
  eapply builderStep_trans; [eapply Hm | eapply Hk]; eassumption.
Qed.

Lemma Frames_must {A : Type} (o : option A) : Frames (must o).
Proof. destruct o; [apply Frames_ret | intros sd a sd' Heq; discriminate]. Qed.

Lemma Frames_get : Frames get.
Proof. intros sd a sd' Heq. injection Heq as _ <-. apply builderStep_refl. Qed.

Lemma Frames_Println s : Frames (Println s).
Proof.
  intros sd a sd' Heq. injection Heq as _ <-.
  unfold builderStep. simpl. repeat split; reflexivity.
Qed.

Lemma Frames_setScope sc : Frames (setScope sc).
Proof.
  intros sd a sd' Heq. injection Heq as _ <-.
  unfold builderStep. simpl. repeat split; reflexivity.
Qed.

Lemma Frames_setServerTransformHelpers h : Frames (setServerTransformHelpers h).
Proof.
  intros sd a sd' Heq. injection Heq as _ <-.
  unfold builderStep. simpl. repeat split; reflexivity.
Qed.

Lemma Frames_setClientTransformHelpers h : Frames (setClientTransformHelpers h).
Proof.
  intros sd a sd' Heq. injection Heq as _ <-.
  unfold builderStep. simpl. repeat split; reflexivity.
Qed.

Lemma Frames_unique name : Frames (unique name).
Proof.
  intros sd a sd' Heq. unfold unique in Heq.
  destruct (Unique (Scope sd) name) as [n sc]. simpl in Heq.
  injection Heq as _ <-. unfold builderStep. simpl. repeat split; reflexivity.
Qed.

(** Recording a type name on both sides. *)
Lemma Frames_register (n : string) :
  Frames (bind get (fun sd =>
            setTypeNames ({[n]} ∪ ServerTypeNames sd) ({[n]} ∪ ClientTypeNames sd))).
Proof.
  intros sd a sd' Heq. unfold bind, get, setTypeNames, modify in Heq.
  injection Heq as _ <-. unfold builderStep. simpl.
  split; [set_solver|]. split; [set_solver|]. split; reflexivity.
Qed.

Lemma Frames_register_then {A : Type} (n : string) (k : unit -> M A) :
  (forall u, Frames (k u)) ->
  Frames (bind get (fun sd =>
            bind (setTypeNames ({[n]} ∪ ServerTypeNames sd) ({[n]} ∪ ClientTypeNames sd)) k)).
Proof.
  intros Hk sd a sd' Heq. unfold bind at 1, get in Heq.
  apply bind_Some in Heq as (u & sd1 & H1 & H2).
  eapply builderStep_trans; [|eapply Hk; eassumption].
  unfold setTypeNames, modify in H1. injection H1 as _ <-. unfold builderStep. simpl.
  split; [set_solver|]. split; [set_solver|]. split; reflexivity.
Qed.

Lemma Frames_mapM {A B : Type} (f : A -> M B) (l : list A) :
  (forall a, Frames (f a)) -> Frames (mapM f l).
Proof.
  intros Hf. induction l as [|a l IH]; simpl; [apply Frames_ret|].
  apply Frames_bind; [apply Hf|]. intros b.
  apply Frames_bind; [apply IH|]. intros bs. apply Frames_ret.
Qed.

End FrameFacts.

Ltac frames :=
  repeat first
    [ apply Frames_ret | apply Frames_must | apply Frames_get | apply Frames_Println
    | apply Frames_setScope | apply Frames_setServerTransformHelpers
    | apply Frames_setClientTransformHelpers | apply Frames_unique
    | apply Frames_register
    | apply Frames_register_then; intros
    | match goal with H : context [Frames] |- _ => apply H end
    | apply Frames_mapM; intros
    | apply Frames_bind; [|intros]
    | match goal with
      | |- Frames (match ?x with _ => _ end) => destruct x
      | |- Frames (let '(_, _) := ?x in _) => destruct x
      end ].

Section BuilderFrames.
Context `{Env}.

Lemma Frames_keepHelpers server helpers err : Frames (keepHelpers server helpers err).
Proof. unfold keepHelpers. frames. Qed.

Lemma Frames_printError err : Frames (printError err).
Proof. unfold printError. frames. Qed.

Lemma Frames_extractPathParams a st : Frames (extractPathParams a st).
Proof. unfold extractPathParams. frames. Qed.

Lemma Frames_isMapStringSlice mp : Frames (isMapStringSlice mp).
Proof. unfold isMapStringSlice. frames. Qed.

Lemma Frames_extractQueryParams a st : Frames (extractQueryParams a st).
Proof. unfold extractQueryParams. frames. apply Frames_isMapStringSlice. Qed.

Lemma Frames_extractHeaders a st req : Frames (extractHeaders a st req).
Proof. unfold extractHeaders. frames. Qed.

Lemma Frames_pathInitArgs e params : Frames (pathInitArgs e params).
Proof. unfold pathInitArgs. frames. Qed.

Lemma Frames_buildBodyType svc e body att req svr viewed pkg :
  Frames (buildBodyType svc e body att req svr viewed pkg).
Proof. unfold buildBodyType. frames. Qed.

Lemma Frames_mapQueryParamOf e : Frames (mapQueryParamOf e).
Proof. unfold mapQueryParamOf. frames. Qed.

Lemma Frames_buildRequestData svc e : Frames (buildRequestData svc e).
Proof.
  unfold buildRequestData.
  pose proof Frames_buildBodyType. pose proof Frames_extractPathParams.
  pose proof Frames_extractQueryParams. pose proof Frames_extractHeaders.
  pose proof Frames_mapQueryParamOf. frames.
Qed.

Lemma Frames_cliArgsOf e : Frames (cliArgsOf e).
Proof. unfold cliArgsOf. frames. Qed.

Lemma Frames_payloadInitCode svc e : Frames (payloadInitCode svc e).
Proof.
  unfold payloadInitCode. pose proof Frames_keepHelpers. pose proof Frames_printError.
  frames.
Qed.

Lemma Frames_buildPayloadInit svc e rq : Frames (buildPayloadInit svc e rq).
Proof.
  unfold buildPayloadInit. pose proof Frames_cliArgsOf. pose proof Frames_payloadInitCode.
  frames.
Qed.

Lemma Frames_buildPayloadData svc e : Frames (buildPayloadData svc e).
Proof.
  unfold buildPayloadData. pose proof Frames_buildRequestData.
  pose proof Frames_buildPayloadInit. frames.
Qed.

Lemma Frames_resultOf svc e : Frames (resultOf svc e).
Proof. unfold resultOf. frames. Qed.

Lemma Frames_responseInitCode svc resp e result pkg :
  Frames (responseInitCode svc resp e result pkg).
Proof.
  unfold responseInitCode. pose proof Frames_keepHelpers. pose proof Frames_printError.
  frames.
Qed.

Lemma Frames_buildResponseResultInit svc resp e : Frames (buildResponseResultInit svc resp e).
Proof.
  unfold buildResponseResultInit. pose proof Frames_resultOf.
  pose proof Frames_responseInitCode. pose proof Frames_extractHeaders. frames.
Qed.

Lemma Frames_buildResponseData svc e result pkg viewed v :
  Frames (buildResponseData svc e result pkg viewed v).
Proof.
  unfold buildResponseData. pose proof Frames_buildResponseResultInit.
  pose proof Frames_extractHeaders. pose proof Frames_buildBodyType. frames.
Qed.

Lemma Frames_responsesLoop (build : HTTPResponseExpr -> M ResponseData.t) :
  (forall v, Frames (build v)) ->
  forall vs i notag responses, Frames (responsesLoop build i vs notag responses).
Proof.
  intros Hb. induction vs as [|v vs IH]; intros i notag responses; simpl; frames.
Qed.

Lemma Frames_buildResultData svc e : Frames (buildResultData svc e).
Proof.
  unfold buildResultData. pose proof Frames_resultOf. frames.
  apply Frames_responsesLoop. intros v. apply Frames_buildResponseData.
Qed.

Lemma Frames_buildErrorInit svc e v : Frames (buildErrorInit svc e v).
Proof.
  unfold buildErrorInit. pose proof Frames_extractHeaders.
  pose proof Frames_keepHelpers. pose proof Frames_printError. frames.
Qed.

Lemma Frames_buildErrorResponse svc e v init : Frames (buildErrorResponse svc e v init).
Proof.
  unfold buildErrorResponse. pose proof Frames_extractHeaders.
  pose proof Frames_buildBodyType. frames.
Qed.

Lemma Frames_buildErrorData svc e v : Frames (buildErrorData svc e v).
Proof.
  unfold buildErrorData. pose proof Frames_buildErrorInit.
  pose proof Frames_buildErrorResponse. frames.
Qed.

Lemma Frames_buildErrorsData svc e errs : Frames (buildErrorsData svc e errs).
Proof. unfold buildErrorsData. pose proof Frames_buildErrorData. frames. Qed.

Lemma Frames_requestInitArgs routes : Frames (requestInitArgs routes).
Proof. unfold requestInitArgs. frames. Qed.

Section RouteFrames.
Variable ExtractRouteWildcards : string -> list string.
Variable wildcardFormat : string -> string.
Variable ToUpper : string -> string.
Variable renderPathInit : PathPlan -> string.

Lemma Frames_buildRoute svc e verb i rpath :
  Frames (buildRoute ExtractRouteWildcards wildcardFormat ToUpper renderPathInit
            svc e verb i rpath).
Proof. unfold buildRoute. pose proof Frames_pathInitArgs. frames. Qed.

Lemma Frames_buildRoutePaths svc e verb paths :
  forall i, Frames (buildRoutePaths ExtractRouteWildcards wildcardFormat ToUpper
                      renderPathInit svc e verb i paths).
Proof.
  induction paths as [|p paths IH]; intros i; simpl; pose proof Frames_buildRoute; frames.
Qed.

Lemma Frames_buildRoutes svc e routes :
  Frames (buildRoutes ExtractRouteWildcards wildcardFormat ToUpper renderPathInit
            svc e routes).
Proof.
  unfold buildRoutes. generalize 0%Z.
  induction routes as [|r routes IH]; intros i; simpl;
    pose proof Frames_buildRoutePaths; frames.
Qed.

Lemma Frames_analyzeEndpoint SchemeName SchemeIn svc a :
  Frames (analyzeEndpoint SchemeName SchemeIn ExtractRouteWildcards wildcardFormat
            ToUpper renderPathInit svc a).
Proof.
  unfold analyzeEndpoint. pose proof Frames_buildRoutes. pose proof Frames_buildPayloadData.
  pose proof Frames_requestInitArgs. pose proof Frames_buildResultData.
  pose proof Frames_buildErrorsData. frames.
Qed.

End RouteFrames.

End BuilderFrames.

(* --------------------------------------------------------------------- *)
(* The names of the body types are recorded                              *)
(* --------------------------------------------------------------------- *)

Section RegisterFacts.
Context `{Env}.

Lemma buildBodyType_Name svc e body att req svr viewed pkg sd :
  match buildBodyType svc e body att req svr viewed pkg sd with
  | Some (Some td, _) => TypeData.Name td = TypeNameOf (Type_ body)
  | _ => True
  end.
Proof.
  unfold buildBodyType. destruct (isEmpty (Type_ body)) eqn:Hemp; [exact I|].
  generalize (needInit (Type_ body)). intros ni.
  destruct (Type_ body) as [|k|el|k el|nats|id] eqn:Hty; [discriminate| | | | |].
  all: destruct svr, req, viewed, ni; simpl; unfold bind, get, ret; simpl.
  all: repeat match goal with
       | |- context [isEmpty (Type_ ?a)] => destruct (isEmpty (Type_ a)); simpl
       | |- context [originSource ?b ?t] =>
           destruct (originSource b t) as [[? ?]|]; simpl
       | |- context [GoTypeTransform ?a ?b ?c ?d ?e ?f ?g ?h] =>
           destruct (GoTypeTransform a b c d e f g h) as [[? ?] [?|]]; simpl
       end.
  all: try exact I; try reflexivity.
Qed.

(** Both body types of a body are there or not, under the same name. *)
Lemma body_types_same_name svc e body att req viewed pkg sd s sd1 sd1' c sd2 :
  buildBodyType svc e body att req true viewed pkg sd = Some (s, sd1) ->
  buildBodyType svc e body att req false viewed pkg sd1' = Some (c, sd2) ->
  (s = None /\ c = None)
  \/ exists ts tc, s = Some ts /\ c = Some tc /\ TypeData.Name ts = TypeData.Name tc.
Proof.
  intros Hs Hc.
  pose proof (buildBodyType_result svc e body att req true viewed pkg sd) as H1.
  pose proof (buildBodyType_Name svc e body att req true viewed pkg sd) as N1.
  rewrite Hs in H1, N1.
  pose proof (buildBodyType_result svc e body att req false viewed pkg sd1') as H2.
  pose proof (buildBodyType_Name svc e body att req false viewed pkg sd1') as N2.
  rewrite Hc in H2, N2.
  destruct s as [ts|], c as [tc|].
  - right. exists ts, tc. split; [reflexivity|]. split; [reflexivity | congruence].
  - exfalso. assert (Type_ body = Empty) by (apply H2; reflexivity).
    assert (Some ts = None) by (apply H1; assumption). discriminate.
  - exfalso. assert (Type_ body = Empty) by (apply H1; reflexivity).
    assert (Some tc = None) by (apply H2; assumption). discriminate.
  - left. split; reflexivity.
Qed.

Lemma registered_after n sd td :
  TypeData.Name td = n ->
  registered (MkServiceData (Scope sd) ({[n]} ∪ ServerTypeNames sd)
                ({[n]} ∪ ClientTypeNames sd) (ServerBodyAttributeTypes sd)
                (ClientBodyAttributeTypes sd) (ServerTransformHelpers sd)
                (ClientTransformHelpers sd) (Stdout sd)) td.
Proof. intros <-. unfold registered. simpl. split; set_solver. Qed.

Lemma Registers_buildRequestData svc e :
  Registers (fun x => (option_list (RequestData.ServerBody x.1)
                       ++ option_list (RequestData.ClientBody x.1))%list)
    (buildRequestData svc e).
Proof.
  intros sd [rq mq] sd' Hb. unfold buildRequestData in Hb.
  apply bind_Some in Hb as (s & sd1 & Hs & Hb).
  apply bind_Some in Hb as (c & sd2 & Hc & Hb).
  apply bind_Some in Hb as (ps & sd3 & Hps & Hb).
  apply bind_Some in Hb as (qs & sd4 & Hqs & Hb).
  apply bind_Some in Hb as (hs & sd5 & Hhs & Hb).
  apply bind_Some in Hb as (mq' & sd6 & Hmq & Hb).
  apply bind_Some in Hb as (u & sd7 & Hreg & Hb).
  unfold ret in Hb. injection Hb as <- <- <-. simpl.
  destruct (body_types_same_name _ _ _ _ _ _ _ _ _ _ _ _ _ Hs Hc)
    as [[-> ->]|(ts & tc & -> & -> & Hn)]; [constructor|].
  unfold bind, get, setTypeNames, modify in Hreg. injection Hreg as _ <-. simpl.
  constructor; [|constructor; [|constructor]]; apply registered_after; congruence.
Qed.

Lemma Registers_buildPayloadData svc e :
  Registers (fun pd => (option_list (RequestData.ServerBody (PayloadData.Request pd))
                        ++ option_list (RequestData.ClientBody (PayloadData.Request pd)))%list)
    (buildPayloadData svc e).
Proof.
  intros sd pd sd' Hb. unfold buildPayloadData in Hb.
  apply bind_Some in Hb as ([request0 mq] & sd1 & Hrq & Hb).
  pose proof (Registers_buildRequestData svc e _ _ _ Hrq) as Hreg. simpl in Hreg.
  apply bind_Some in Hb as (init & sd2 & Hinit & Hb).
  apply bind_Some in Hb as (sd3 & sd4 & Hget & Hb).
  unfold get in Hget. injection Hget as <- <-.
  destruct (if negb (isEmpty (Type_ (Payload e)))
            then (GoFullTypeName (Scope sd2) (Payload e) (PkgName svc),
                  GoFullTypeRef (Scope sd2) (Payload e) (PkgName svc))
            else ("", "")) as [name ref].
  apply bind_Some in Hb as (rv & sd5 & Hrv & Hb).
  unfold ret in Hb. injection Hb as <- <-. simpl.
  assert (Hstep : builderStep sd1 sd5).
  { eapply builderStep_trans; [eapply Frames_buildPayloadInit; eassumption|].
    revert Hrv. match goal with |- ?m sd2 = _ -> _ => assert (Hf : Frames m) by frames end.
    apply Hf. }
  eapply Forall_impl; [exact Hreg|]. intros td. apply registered_step. assumption.
Qed.

End RegisterFacts.

Section RegisterResponses.
Context `{Env}.

Lemma Registers_buildResponseData svc e result pkg viewed v :
  Registers responseBodyTypes (buildResponseData svc e result pkg viewed v).
Proof.
  intros sd r sd' Hb. unfold buildResponseData in Hb.
  apply bind_Some in Hb as (origin & sd1 & _ & Hb).
  apply bind_Some in Hb as (init & sd2 & _ & Hb).
  apply bind_Some in Hb as (headersData & sd3 & _ & Hb).
  apply bind_Some in Hb as (s & sd4 & Hs & Hb).
  apply bind_Some in Hb as (c & sd5 & Hc & Hb).
  apply bind_Some in Hb as (u & sd6 & Hreg & Hb).
  unfold ret in Hb. injection Hb as <- <-. unfold responseBodyTypes. simpl.
  destruct (body_types_same_name _ _ _ _ _ _ _ _ _ _ _ _ _ Hs Hc)
    as [[-> ->]|(ts & tc & -> & -> & Hn)]; [constructor|].
  unfold bind, get, setTypeNames, modify in Hreg. injection Hreg as _ <-. simpl.
  constructor; [|constructor; [|constructor]]; apply registered_after; congruence.
Qed.

(** A loop records what each run of its body records. *)
Lemma Registers_responsesLoop (build : HTTPResponseExpr -> M ResponseData.t) :
  (forall v, Frames (build v)) -> (forall v, Registers responseBodyTypes (build v)) ->
  forall vs i notag responses sd notag' responses' sd',
    responsesLoop build i vs notag responses sd = Some ((notag', responses'), sd') ->
    Forall (fun r => Forall (registered sd) (responseBodyTypes r)) responses ->
    Forall (fun r => Forall (registered sd') (responseBodyTypes r)) responses'.
Proof.
  intros Hf Hr. induction vs as [|v vs IH];
    intros i notag responses sd notag' responses' sd' Hl Hall; simpl in Hl.
  - unfold ret in Hl. injection Hl as <- <- <-. assumption.
  - destruct (tagless v && (notag >? -1)%Z); [eapply IH; eassumption|].
    apply bind_Some in Hl as (r & sd1 & Hb & Hl).
    eapply IH; [exact Hl|]. apply Forall_app. split.
    + eapply Forall_impl; [exact Hall|]. intros r' Hr'.
      eapply Forall_impl; [exact Hr'|]. intros td. apply registered_step.
      eapply Hf. eassumption.
    + constructor; [|constructor]. eapply Hr. eassumption.
Qed.

Lemma Registers_buildResultData svc e :
  Registers (fun rd => concat (responseBodyTypes <$> ResultData.Responses rd))
    (buildResultData svc e).
Proof.
  intros sd rd sd' Hb. unfold buildResultData in Hb.
  apply bind_Some in Hb as (view & sd1 & _ & Hb).
  apply bind_Some in Hb as (sd2 & sd3 & _ & Hb).
  destruct (if negb (isEmpty (Type_ (Result e)))
            then (GoFullTypeName (Scope sd2) (Result e) (PkgName svc),
                  GoFullTypeRef (Scope sd2) (Result e) (PkgName svc))
            else ("", "")) as [name ref].
  apply bind_Some in Hb as ([[result pkg] viewed] & sd4 & _ & Hb).
  apply bind_Some in Hb as ([notag responses] & sd5 & Hloop & Hb).
  unfold ret in Hb. injection Hb as <- <-. simpl.
  pose proof (Registers_responsesLoop _
                (Frames_buildResponseData svc e result pkg viewed)
                (Registers_buildResponseData svc e result pkg viewed)
                _ _ _ _ _ _ _ _ Hloop (Forall_nil_2 _)) as Hall.
  rewrite Forall_concat, Forall_fmap. apply Forall_forall. intros r Hin.
  apply taglessLast_elem in Hin. rewrite Forall_forall in Hall. apply Hall. assumption.
Qed.

Lemma Registers_buildErrorResponse svc e v init :
  Registers responseBodyTypes (buildErrorResponse svc e v init).
Proof.
  intros sd r sd' Hb. unfold buildErrorResponse in Hb.
  apply bind_Some in Hb as (s & sd1 & Hs & Hb).
  apply bind_Some in Hb as (c & sd2 & Hc & Hb).
  apply bind_Some in Hb as (bodies & sd3 & Hbodies & Hb).
  apply bind_Some in Hb as (headers & sd4 & Hh & Hb).
  unfold ret in Hb. injection Hb as <- <-. unfold responseBodyTypes. simpl.
  assert (Hreg : Forall (registered sd3) (option_list bodies.1 ++ option_list bodies.2)).
  { destruct (body_types_same_name _ _ _ _ _ _ _ _ _ _ _ _ _ Hs Hc)
      as [[-> ->]|(ts & tc & -> & -> & Hn)].
    - unfold ret in Hbodies. injection Hbodies as <- <-. constructor.
    - unfold bind, get, setTypeNames, modify, must, ret in Hbodies.
      injection Hbodies as <- <-. simpl.
      constructor; [|constructor; [|constructor]]; apply registered_after; simpl; congruence. }
  eapply Forall_impl; [exact Hreg|]. intros td. apply registered_step.
  eapply Frames_extractHeaders. eassumption.
Qed.

Lemma Registers_buildErrorData svc e v :
  Registers (responseBodyTypes ∘ ErrorData.Response) (buildErrorData svc e v).
Proof.
  intros sd d sd' Hb. unfold buildErrorData in Hb.
  apply bind_Some in Hb as (init & sd1 & _ & Hb).
  apply bind_Some in Hb as (r & sd2 & Hr & Hb).
  apply bind_Some in Hb as (sd3 & sd4 & Hget & Hb).
  unfold get in Hget. injection Hget as <- <-.
  unfold ret in Hb. injection Hb as <- <-. simpl.
  eapply Registers_buildErrorResponse. eassumption.
Qed.

Lemma Registers_mapM {A B : Type} (bodies : B -> list TypeData.t) (f : A -> M B) l :
  (forall a, Frames (f a)) -> (forall a, Registers bodies (f a)) ->
  Registers (fun bs => concat (bodies <$> bs)) (mapM f l).
Proof.
  intros Hf Hr. induction l as [|a l IH]; intros sd bs sd' Hm; simpl in Hm.
  - unfold ret in Hm. injection Hm as <- <-. constructor.
  - apply bind_Some in Hm as (b & sd1 & Hb & Hm).
    apply bind_Some in Hm as (bs' & sd2 & Hl & Hm).
    unfold ret in Hm. injection Hm as <- <-. csimpl. apply Forall_app. split.
    + eapply Forall_impl; [eapply Hr; eassumption|]. intros td. apply registered_step.
      eapply Frames_mapM; eassumption.
    + eapply IH. eassumption.
Qed.

Lemma Registers_buildErrorsData svc e errs :
  Registers (fun groups => concat ((responseBodyTypes ∘ ErrorData.Response)
                                     <$> groupedErrors groups))
    (buildErrorsData svc e errs).
Proof.
  intros sd groups sd' Hb. unfold buildErrorsData in Hb.
  apply bind_Some in Hb as (ds & sd1 & Hds & Hb).
  unfold ret in Hb. injection Hb as <- <-.
  pose proof (Registers_mapM (responseBodyTypes ∘ ErrorData.Response) _ _
                (Frames_buildErrorData svc e) (Registers_buildErrorData svc e)
                _ _ _ Hds) as Hall. simpl in Hall.
  destruct (groupErrors_spec
              (fold_left (fun data d => appendError data (ErrorData.Ref d) d) ds ∅))
    as (_ & _ & Hp).
  rewrite appendErrors_Permutation, map_to_list_empty in Hp. simpl in Hp.
  rewrite Forall_concat, Forall_fmap, Hp.
  rewrite Forall_concat, Forall_fmap in Hall. exact Hall.
Qed.

Section RegisterEndpoints.
Variable SchemeName : SchemeData -> string.
Variable SchemeIn : SchemeData -> string.
Variable ExtractRouteWildcards : string -> list string.
Variable wildcardFormat : string -> string.
Variable ToUpper : string -> string.
Variable renderPathInit : PathPlan -> string.

Lemma Registers_analyzeEndpoint svc a :
  Registers endpointBodyTypes
    (analyzeEndpoint SchemeName SchemeIn ExtractRouteWildcards wildcardFormat
       ToUpper renderPathInit svc a).
Proof.
  intros sd ad sd' Hb. unfold analyzeEndpoint in Hb.
  apply bind_Some in Hb as (routes & sd1 & _ & Hb).
  apply bind_Some in Hb as (payload & sd2 & Hp & Hb).
  apply bind_Some in Hb as (args & sd3 & Ha & Hb).
  apply bind_Some in Hb as (result & sd4 & Hr & Hb).
  apply bind_Some in Hb as (errors & sd5 & He & Hb).
  unfold ret in Hb. injection Hb as <- <-. unfold endpointBodyTypes. simpl.
  pose proof (Frames_requestInitArgs _ _ _ _ Ha) as S1.
  pose proof (Frames_buildResultData _ _ _ _ _ Hr) as S2.
  pose proof (Frames_buildErrorsData _ _ _ _ _ _ He) as S3.
  pose proof (Registers_buildPayloadData _ _ _ _ _ Hp) as R1. simpl in R1.
  pose proof (Registers_buildResultData _ _ _ _ _ Hr) as R2. simpl in R2.
  pose proof (Registers_buildErrorsData _ _ _ _ _ _ He) as R3. simpl in R3.
  rewrite (assoc app). apply Forall_app. split; [|apply Forall_app; split].
  - eapply Forall_impl; [exact R1|]. intros td. apply registered_step.
    eapply builderStep_trans; [exact S1|]. eapply builderStep_trans; eassumption.
  - eapply Forall_impl; [exact R2|]. intros td. apply registered_step. assumption.
  - exact R3.
Qed.

End RegisterEndpoints.

End RegisterResponses.

(** X19. No body type is generated a second time as a body attribute type.
    analyze leaves the body attribute types alone until its last loop; what
    that loop appends on each side are types of pairwise distinct names,
    and none of them has the name of a body type of a request, of a response
    or of an error response of any endpoint of the service. *)
Theorem analyze_body_types_not_repeated :
  forall (E : Env) (SchemeName SchemeIn : SchemeData -> string)
         (ExtractRouteWildcards : string -> list string)
         (wildcardFormat ToUpper : string -> string) (renderPathInit : PathPlan -> string)
         (svc : ServiceInfo) (eps : list HTTPEndpointExpr) (sd : ServiceData),
    match analyze SchemeName SchemeIn ExtractRouteWildcards wildcardFormat ToUpper
            renderPathInit svc eps sd with
    | Some (ads, sd') =>
        exists news newc,
          ServerBodyAttributeTypes sd' = (ServerBodyAttributeTypes sd ++ news)%list
          /\ ClientBodyAttributeTypes sd' = (ClientBodyAttributeTypes sd ++ newc)%list
          /\ NoDup (TypeData.Name <$> news) /\ NoDup (TypeData.Name <$> newc)
          /\ forall ad td, ad ∈ ads -> td ∈ endpointBodyTypes ad ->
               (TypeData.Name td ∉ (TypeData.Name <$> news))
               /\ (TypeData.Name td ∉ (TypeData.Name <$> newc))
    | None => True
    end.
Proof.
  intros E SchemeName SchemeIn X wf up render svc eps sd.
  destruct (analyze SchemeName SchemeIn X wf up render svc eps sd) as [[ads sd']|] eqn:Hb;
    [|exact I].
  unfold analyze in Hb.
  apply bind_Some in Hb as (ads' & sd1 & Hads & Hb).
  apply bind_Some in Hb as (sd2 & sd3 & Hget & Hb).
  unfold get in Hget. injection Hget as <- <-.
  apply bind_Some in Hb as (sd4 & sd5 & Hc & Hb).
  apply must_Some in Hc as [Hc _].
  apply bind_Some in Hb as (u & sd6 & Hput & Hb).
  unfold put in Hput. injection Hput as _ <-.
  unfold ret in Hb. injection Hb as <- <-.
  pose proof (Frames_mapM _ _ (Frames_analyzeEndpoint X wf up render SchemeName SchemeIn svc)
                _ _ _ Hads) as (_ & _ & Hs & Hcl).
  pose proof (Registers_mapM endpointBodyTypes _ _
                (Frames_analyzeEndpoint X wf up render SchemeName SchemeIn svc)
                (Registers_analyzeEndpoint SchemeName SchemeIn X wf up render svc)
                _ _ _ Hads) as Hreg.
  simpl in Hreg. rewrite Forall_concat, Forall_fmap in Hreg.
  destruct (collectAllBodies_extends (map (fun a => (HEndpoint a, HErrors a)) eps) sd1)
    as (sd4' & Hc' & Hext).
  rewrite Hc in Hc'. injection Hc' as <-.
  destruct Hext as ((news & Hn1 & Hn2 & Hn3 & _) & (newc & Hc1 & Hc2 & Hc3 & _) & _).
  exists news, newc. rewrite <- Hs, <- Hcl.
  split; [assumption|]. split; [assumption|]. split; [assumption|]. split; [assumption|].
  intros ad td Had Htd. rewrite Forall_forall in Hreg.
  specialize (Hreg ad Had). simpl in Hreg. rewrite Forall_forall in Hreg.
  destruct (Hreg td Htd) as [Hrs Hrc].
  split; intros Hin; [exact (Hn3 _ Hin Hrs) | exact (Hc3 _ Hin Hrc)].
Qed.

(* --------------------------------------------------------------------- *)
(* The constructor of an error                                           *)
(* --------------------------------------------------------------------- *)

Section ErrorInitFacts.
Context `{Env}.

Lemma buildErrorInit_shape svc e v sd init sd' :
  buildErrorInit svc e v sd = Some (init, sd') ->
  let body := Type_ (RBody (HEResponse v)) in
  (init = None <-> needInit (Type_ (ErrAttribute (HEError v))) = false)
  /\ forall i, init = Some i ->
       InitData.Name i
       = "New" ++ Goify (MName (Method e)) true ++ Goify (ErrName (HEError v)) true
       /\ InitData.ServerArgs i = [] /\ InitData.ServerCode i = ""
       /\ InitData.ReturnIsStruct i = negb (isEmpty body) && IsObject body
       /\ exists headers obj,
            AsObject (Type_ (MAttribute (RHeaders (HEResponse v)))) = Some obj
            /\ length headers = length obj
            /\ InitArgData.Name <$> InitData.ClientArgs i
               = ((if isEmpty body then [] else ["body"])
                  ++ (HeaderData.VarName <$> headers))%list.
Proof.
  unfold buildErrorInit. destruct (needInit (Type_ (ErrAttribute (HEError v)))).
  - intros Hb. apply bind_Some in Hb as (sd1 & sd2 & _ & Hb).
    apply bind_Some in Hb as (headers & sd3 & Hh & Hb).
    apply bind_Some in Hb as (sd4 & sd5 & _ & Hb).
    apply bind_Some in Hb as (t & sd6 & _ & Hb).
    apply bind_Some in Hb as (co & sd7 & _ & Hb).
    apply bind_Some in Hb as (sd8 & sd9 & _ & Hb).
    unfold ret in Hb. injection Hb as <- <-. simpl. split; [split; discriminate|].
    intros i Hi. injection Hi as <-. simpl.
    split; [reflexivity|]. split; [reflexivity|]. split; [reflexivity|].
    split; [destruct (isEmpty (Type_ (RBody (HEResponse v)))); reflexivity|].
    unfold extractHeaders in Hh.
    apply bind_Some in Hh as (obj & sd10 & Ho & Hh). apply must_Some in Ho as [Ho _].
    exists headers, obj. split; [assumption|]. split; [eapply mapM_length; eassumption|].
    rewrite fmap_app. change (@map) with (@fmap list _).
    rewrite <- list_fmap_compose.
    destruct (isEmpty (Type_ (RBody (HEResponse v)))); reflexivity.
  - unfold ret. intros Hb. injection Hb as <- <-. simpl.
    split; [tauto | discriminate].
Qed.

End ErrorInitFacts.

(** X20. An error has a constructor exactly when its type is or makes use of a
    user type. The constructor is named after the method and the error, is
    for the client only, and takes the body, if the response body is not
    Empty, followed by one argument for each header of the response. It
    returns a struct exactly when the response body is an object: an error
    whose response has no body is never returned as a struct, whatever the
    type of the error. *)
Theorem buildErrorData_constructor :
  forall (E : Env) (svc : ServiceInfo) (e : EndpointExpr) (v : HTTPErrorExpr)
         (sd : ServiceData),
    match buildErrorData svc e v sd with
    | Some (d, _) =>
        let body := Type_ (RBody (HEResponse v)) in
        let init := ResponseData.ResultInit (ErrorData.Response d) in
        (init = None <-> needInit (Type_ (ErrAttribute (HEError v))) = false)
        /\ forall i, init = Some i ->
             InitData.Name i
             = "New" ++ Goify (MName (Method e)) true ++ Goify (ErrName (HEError v)) true
             /\ InitData.ServerArgs i = [] /\ InitData.ServerCode i = ""
             /\ InitData.ReturnIsStruct i = negb (isEmpty body) && IsObject body
             /\ exists headers obj,
                  AsObject (Type_ (MAttribute (RHeaders (HEResponse v)))) = Some obj
                  /\ length headers = length obj
                  /\ InitArgData.Name <$> InitData.ClientArgs i
                     = ((if isEmpty body then [] else ["body"])
                        ++ (HeaderData.VarName <$> headers))%list
    | None => True
    end.
Proof.
  intros E svc e v sd.
  destruct (buildErrorData svc e v sd) as [[d sd']|] eqn:Hb; [|exact I].
  unfold buildErrorData in Hb.
  apply bind_Some in Hb as (init & sd1 & Hinit & Hb).
  apply bind_Some in Hb as (r & sd2 & Hr & Hb).
  apply bind_Some in Hb as (sd3 & sd4 & _ & Hb).
  unfold ret in Hb. injection Hb as <- <-. simpl.
  assert (Hri : ResponseData.ResultInit r = init).
  { unfold buildErrorResponse in Hr.
    apply bind_Some in Hr as (s & sd5 & _ & Hr).
    apply bind_Some in Hr as (c & sd6 & _ & Hr).
    apply bind_Some in Hr as (bodies & sd7 & _ & Hr).
    apply bind_Some in Hr as (headers & sd8 & _ & Hr).
    unfold ret in Hr. injection Hr as <- <-. reflexivity. }
  rewrite Hri. exact (buildErrorInit_shape _ _ _ _ _ _ Hinit).
Qed.

(* --------------------------------------------------------------------- *)
(* Looking up services and endpoints                                     *)
(* --------------------------------------------------------------------- *)

(** X21. Get computes the data of a service once. A call that returns leaves
    the data of the other services alone and stores what it returns, so
    that a second call returns the same without changing the map; data that
    is stored already is returned without analysis; nil is returned exactly
    for a name that is neither stored nor the name of a service of the
    design. Get only panics where analyze does. *)
Theorem Get_computes_once :
  forall (HTTPService Data : Type) (rootService : string -> option HTTPService)
         (analyzeService : HTTPService -> option Data)
         (d : gmap string Data) (name : string),
    match Get HTTPService Data rootService analyzeService d name with
    | Some (r, d') =>
        Get HTTPService Data rootService analyzeService d' name = Some (r, d')
        /\ d' !! name = r
        /\ (forall other, other <> name -> d' !! other = d !! other)
        /\ (forall data, d !! name = Some data -> r = Some data /\ d' = d)
        /\ (r = None <-> d !! name = None /\ rootService name = None)
    | None =>
        d !! name = None
        /\ exists service, rootService name = Some service /\ analyzeService service = None
    end.
Proof.
  intros HTTPService Data rootService analyzeService d name. unfold Get.
  destruct (d !! name) as [data|] eqn:Hd.
  - rewrite ?Hd. split; [reflexivity|]. split; [first [assumption | reflexivity]|].
    split; [reflexivity|].
    split; [intros data' Heq; injection Heq as <-; split; reflexivity|].
    split; [discriminate | intros [? _]; discriminate].
  - destruct (rootService name) as [service|] eqn:Hs.
    + destruct (analyzeService service) as [data|] eqn:Ha; simpl.
      * rewrite lookup_insert_eq. split; [reflexivity|]. split; [reflexivity|].
        split; [intros other Hne; apply lookup_insert_ne; congruence|].
        split; [discriminate|]. split; [discriminate | intros [_ ?]; discriminate].
      * split; [reflexivity|]. exists service. split; [reflexivity | assumption].
    + rewrite ?Hd, ?Hs. split; [reflexivity|]. split; [first [assumption | reflexivity]|].
      split; [reflexivity|]. split; [discriminate|]. split; [auto | reflexivity].
Qed.

Lemma Endpoint_spec endpoints name :
  match Endpoint endpoints name with
  | Some ad =>
      exists before after,
        endpoints = (before ++ ad :: after)%list
        /\ MName (EndpointData.Method ad) = name
        /\ Forall (fun x => MName (EndpointData.Method x) <> name) before
  | None => Forall (fun x => MName (EndpointData.Method x) <> name) endpoints
  end.
Proof.
  induction endpoints as [|x r IH]; simpl; [constructor|].
  destruct (String.eqb_spec (MName (EndpointData.Method x)) name) as [Heq|Hne].
  - exists [], r. split; [reflexivity|]. split; [assumption | constructor].
  - destruct (Endpoint r name) as [ad|].
    + destruct IH as (before & after & -> & Hn & Hb).
      exists (x :: before), after. split; [reflexivity|]. split; [assumption|].
      constructor; assumption.
    + constructor; assumption.
Qed.

(** X22. Every endpoint of the design analyze has gone through is found by the
    name of its method, in the data analyze returns: Endpoint then returns
    the data of the first endpoint declared for a method of that name, and
    it returns nil for a name that is the name of no such method. *)
Theorem Endpoint_finds_first_of_name :
  forall (E : Env) (SchemeName SchemeIn : SchemeData -> string)
         (ExtractRouteWildcards : string -> list string)
         (wildcardFormat ToUpper : string -> string) (renderPathInit : PathPlan -> string)
         (svc : ServiceInfo) (eps : list HTTPEndpointExpr) (sd : ServiceData)
         (name : string),
    match analyze SchemeName SchemeIn ExtractRouteWildcards wildcardFormat ToUpper
            renderPathInit svc eps sd with
    | Some (ads, _) =>
        (EndpointData.Method <$> ads) = (Method ∘ HEndpoint <$> eps)
        /\ match Endpoint ads name with
           | Some ad =>
               exists j, ads !! j = Some ad
                 /\ MName (EndpointData.Method ad) = name
                 /\ forall i a, eps !! i = Some a -> MName (Method (HEndpoint a)) = name ->
                      j <= i
           | None => Forall (fun a => MName (Method (HEndpoint a)) <> name) eps
           end
    | None => True
    end.
Proof.
  intros E SchemeName SchemeIn X wf up render svc eps sd name.
  destruct (analyze SchemeName SchemeIn X wf up render svc eps sd) as [[ads sd']|] eqn:Hb;
    [|exact I].
  unfold analyze in Hb.
  apply bind_Some in Hb as (ads' & sd1 & Hads & Hb).
  apply bind_Some in Hb as (sd2 & sd3 & _ & Hb).
  apply bind_Some in Hb as (sd4 & sd5 & _ & Hb).
  apply bind_Some in Hb as (u & sd6 & _ & Hb).
  unfold ret in Hb. injection Hb as <- <-.
  assert (Hm : EndpointData.Method <$> ads' = (Method ∘ HEndpoint <$> eps)).
  { apply Forall2_fmap_eq.
    eapply (mapM_Forall2 _ (fun a ad => EndpointData.Method ad = (Method ∘ HEndpoint) a));
      [|exact Hads].
    intros a s ad s' Ha. unfold analyzeEndpoint in Ha.
    apply bind_Some in Ha as (routes & s1 & _ & Ha).
    apply bind_Some in Ha as (payload & s2 & _ & Ha).
    apply bind_Some in Ha as (args & s3 & _ & Ha).
    apply bind_Some in Ha as (result & s4 & _ & Ha).
    apply bind_Some in Ha as (errors & s5 & _ & Ha).
    unfold ret in Ha. injection Ha as <- <-. reflexivity. }
  split; [assumption|].
  pose proof (Endpoint_spec ads' name) as Hsp.
  destruct (Endpoint ads' name) as [ad|].
  - destruct Hsp as (before & after & Heq & Hn & Hb).
    exists (length before). split; [|split; [assumption|]].
    + rewrite Heq. rewrite lookup_app_r by lia.
      replace (length before - length before) with 0 by lia. reflexivity.
    + intros i a Hi Ha. destruct (decide (length before <= i)) as [|Hlt]; [assumption|].
      exfalso. assert (Hi' : (Method ∘ HEndpoint <$> eps) !! i = Some (Method (HEndpoint a)))
        by (rewrite list_lookup_fmap, Hi; reflexivity).
      rewrite <- Hm, Heq, list_lookup_fmap, lookup_app_l in Hi' by lia.
      destruct (before !! i) as [x|] eqn:Hx; [|discriminate]. simpl in Hi'.
      injection Hi' as Hi'. rewrite Forall_forall in Hb.
      apply (Hb x (list_elem_of_lookup_2 _ _ _ Hx)). congruence.
  - apply Forall_forall. intros a Ha Hname.
    apply list_elem_of_lookup_1 in Ha as [i Hi].
    assert (Hi' : (Method ∘ HEndpoint <$> eps) !! i = Some (Method (HEndpoint a)))
      by (rewrite list_lookup_fmap, Hi; reflexivity).
    rewrite <- Hm, list_lookup_fmap in Hi'.
    destruct (ads' !! i) as [x|] eqn:Hx; [|discriminate]. simpl in Hi'.
    injection Hi' as Hi'. rewrite Forall_forall in Hsp.
    apply (Hsp x (list_elem_of_lookup_2 _ _ _ Hx)). congruence.
Qed.
